(** * gprofiler/merge.py: collapsed-stack parsing, scaling and merging

    A shallow embedding of [gprofiler/merge.py].  Python values are modelled
    as follows.

    - [str] is [string]; a character is a code point below 256.
    - [int] is [Z] (unbounded).
    - [float] is an IEEE-754 binary64 value, [spec_float] with
      [prec = 53] and [emax = 1024].
    - [dict], [Counter] and [defaultdict] are insertion-ordered association
      lists with unique keys: assigning to a present key keeps its position,
      assigning to an absent key appends.
    - A raised exception is the [Raise] case of [result].
    - A file is read through a [FileSystem]: the decoded characters of the
      file, or the exception of the read, which is passed on as it is.
    - [random.random()] takes the next of a sequence of 53-bit numerators.
    - Profile objects are taken by value: the two mappings given to
      [merge_profiles] share no [ProfileData] object. *)

From Stdlib Require Import ZArith Lia Ascii String List Bool.
From Stdlib Require Import QArith Qabs Lqa.
From Stdlib Require Import Floats.SpecFloat.
From stdpp Require Import base list sets strings pretty.

Set Warnings "-clear-no-such-hyp".

Open Scope string_scope.
Open Scope list_scope.
Open Scope Z_scope.

(** ** Exceptions *)

Inductive exn : Type :=
| ValueError
| KeyError
| AssertionError
| OverflowError
| ZeroDivisionError.

Inductive result (A : Type) : Type :=
| Ok (a : A)
| Raise (e : exn).

Arguments Ok {A} a.
Arguments Raise {A} e.

Definition bind {A B : Type} (r : result A) (k : A -> result B) : result B :=
  match r with
  | Ok a => k a
  | Raise e => Raise e
  end.

Notation "'let*' x := r 'in' k" := (bind r (fun x => k))
  (at level 10, x pattern, r at level 100, k at level 200).

(** ** Python strings *)

Module Str.

Definition code (c : ascii) : N := N_of_ascii c.

(** The line boundaries of [str.splitlines] below code point 256:
    LF, VT, FF, CR, FS, GS, RS and NEL. *)
Definition is_linebreak (c : ascii) : bool :=
  let n := code c in
  ((10 <=? n) && (n <=? 13) || (28 <=? n) && (n <=? 30) || (n =? 133))%N.

(** [str.isspace] on one character, as [str.strip] uses it. *)
Definition isspace (c : ascii) : bool :=
  let n := code c in
  ((9 <=? n) && (n <=? 13) || (28 <=? n) && (n <=? 32) || (n =? 133) || (n =? 160))%N.

(** The blanks [int] skips around a number: the C locale's white space and
    the non-ASCII spaces. *)
Definition int_space (c : ascii) : bool :=
  let n := code c in
  ((9 <=? n) && (n <=? 13) || (n =? 32) || (n =? 133) || (n =? 160))%N.

Definition digit_value (c : ascii) : option Z :=
  let n := code c in
  if ((48 <=? n) && (n <=? 57))%N then Some (Z.of_N n - 48) else None.

Definition CR : ascii := ascii_of_N 13.
Definition LF : ascii := ascii_of_N 10.

(** [splitlines_from after_cr cur s]: the lines of [s], where [cur] holds the
    characters of the current line so far, last one first, and [after_cr]
    says that the previous character was a CR that closed a line (a LF that
    follows belongs to the same boundary). *)
Fixpoint splitlines_from (after_cr : bool) (cur : list ascii) (s : string)
  : list string :=
  match s with
  | EmptyString =>
      match cur with
      | [] => []
      | _ => [string_of_list_ascii (rev cur)]
      end
  | String c rest =>
      if after_cr && Ascii.eqb c LF then splitlines_from false cur rest
      else if is_linebreak c
      then string_of_list_ascii (rev cur)
             :: splitlines_from (Ascii.eqb c CR) [] rest
      else splitlines_from false (c :: cur) rest
  end.

(** [s.splitlines()] *)
Definition splitlines (s : string) : list string :=
  splitlines_from false [] s.

Fixpoint lstrip_with (sp : ascii -> bool) (s : string) : string :=
  match s with
  | EmptyString => EmptyString
  | String c rest => if sp c then lstrip_with sp rest else s
  end.

Fixpoint rstrip_with (sp : ascii -> bool) (s : string) : string :=
  match s with
  | EmptyString => EmptyString
  | String c rest =>
      match rstrip_with sp rest with
      | EmptyString => if sp c then EmptyString else String c EmptyString
      | r => String c r
      end
  end.

Definition strip_with (sp : ascii -> bool) (s : string) : string :=
  rstrip_with sp (lstrip_with sp s).

(** [s.strip()] *)
Definition strip (s : string) : string := strip_with isspace s.

(** [s.startswith(c)] for a one-character prefix. *)
Definition startswith (c : ascii) (s : string) : bool :=
  match s with
  | String c' _ => Ascii.eqb c' c
  | EmptyString => false
  end.

(** The text before and after the first [sep] of [s], if there is one. *)
Fixpoint cut_first (sep : ascii) (s : string) : option (string * string) :=
  match s with
  | EmptyString => None
  | String c rest =>
      if Ascii.eqb c sep then Some (EmptyString, rest)
      else match cut_first sep rest with
           | Some (a, b) => Some (String c a, b)
           | None => None
           end
  end.

(** The text before and after the last [sep] of [s], if there is one. *)
Fixpoint cut_last (sep : ascii) (s : string) : option (string * string) :=
  match s with
  | EmptyString => None
  | String c rest =>
      match cut_last sep rest with
      | Some (a, b) => Some (String c a, b)
      | None => if Ascii.eqb c sep then Some (EmptyString, rest) else None
      end
  end.

(** [s.rpartition(sep)], without the separator: [(head, tail)]. *)
Definition rpartition (sep : ascii) (s : string) : string * string :=
  match cut_last sep s with
  | Some p => p
  | None => (EmptyString, s)
  end.

(** [s.rsplit(sep, maxsplit=1)] *)
Definition rsplit1 (sep : ascii) (s : string) : list string :=
  match cut_last sep s with
  | Some (a, b) => [a; b]
  | None => [s]
  end.

(** [s.split(sep, maxsplit=1)] *)
Definition split1 (sep : ascii) (s : string) : list string :=
  match cut_first sep s with
  | Some (a, b) => [a; b]
  | None => [s]
  end.

(** [s.split(sep)[0]] *)
Definition split_head (sep : ascii) (s : string) : string :=
  match cut_first sep s with
  | Some (a, _) => a
  | None => s
  end.

(** [a, b = parts]: unpacking into two names. *)
Definition unpack2 (parts : list string) : result (string * string) :=
  match parts with
  | [a; b] => Ok (a, b)
  | _ => Raise ValueError
  end.

(** The digits of a decimal literal as [int] reads them: one underscore may
    stand between two digits. [seen] says that the previous character was a
    digit. *)
Fixpoint int_digits (acc : Z) (seen : bool) (s : string) : option Z :=
  match s with
  | EmptyString => if seen then Some acc else None
  | String c rest =>
      match digit_value c with
      | Some d => int_digits (10 * acc + d) true rest
      | None =>
          if Ascii.eqb c "_" && seen then int_digits acc false rest
          else None
      end
  end.

(** [int(s)]: blanks around, an optional sign, decimal digits. The limit on
    the number of digits, an interpreter setting, is not modelled. *)
Definition int (s : string) : result Z :=
  let t := strip_with int_space s in
  let r :=
    match t with
    | String c d =>
        if Ascii.eqb c "+" then int_digits 0 false d
        else if Ascii.eqb c "-" then Z.opp <$> int_digits 0 false d
        else int_digits 0 false t
    | EmptyString => None
    end in
  match r with
  | Some n => Ok n
  | None => Raise ValueError
  end.

(** Every character of [s] satisfies [p]. *)
Fixpoint all_chars (p : ascii -> bool) (s : string) : bool :=
  match s with
  | EmptyString => true
  | String c rest => p c && all_chars p rest
  end.

(** [str(n)], as an f-string renders an [int]. *)
Definition of_int (n : Z) : string := pretty n.

End Str.

(** ** Insertion-ordered dictionaries *)

Module Dict.
Section Dict.
Context {K V : Type} `{EqDecision K}.

Definition t : Type := list (K * V).

(** [d.get(k)] *)
Fixpoint get (d : t) (k : K) : option V :=
  match d with
  | [] => None
  | (k', v) :: rest => if decide (k' = k) then Some v else get rest k
  end.

(** [d[k] = v] *)
Fixpoint set (d : t) (k : K) (v : V) : t :=
  match d with
  | [] => [(k, v)]
  | (k', v') :: rest =>
      if decide (k' = k) then (k', v) :: rest else (k', v') :: set rest k v
  end.

Definition keys (d : t) : list K := map fst d.
Definition values (d : t) : list V := map snd d.

End Dict.
Arguments t : clear implicits.
End Dict.

(** ** Counters: [collections.Counter] keyed by stack signature *)

Definition StackToSampleCount : Type := Dict.t string Z.

Module Counter.

(** [c[k]]: a missing key counts zero and is not inserted by the read. *)
Definition get (c : StackToSampleCount) (k : string) : Z :=
  match Dict.get c k with
  | Some n => n
  | None => 0
  end.

(** [c[k] += n] *)
Definition add (c : StackToSampleCount) (k : string) (n : Z)
  : StackToSampleCount :=
  Dict.set c k (get c k + n).

(** [sum(c.values())] *)
Definition total (c : StackToSampleCount) : Z :=
  fold_right Z.add 0 (Dict.values c).

End Counter.

(** ** The collapsed-stack parsers *)

(** The body of the loop of [parse_one_collapsed] on one line. An exception
    raised inside the [try] is logged and the line is left out. *)
Definition parse_one_line (add_comm : option string)
  (stacks : StackToSampleCount) (line : string) : StackToSampleCount :=
  if decide (Str.strip line = "") then stacks
  else if Str.startswith "#" line then stacks
  else
    let '(stack, count) := Str.rpartition " " line in
    let attempt :=
      match add_comm with
      | Some comm =>
          let* n := Str.int count in
          Ok (Counter.add stacks (comm +:+ ";" +:+ stack) n)
      | None =>
          let* n := Str.int count in
          Ok (Counter.add stacks stack n)
      end in
    match attempt with
    | Ok stacks' => stacks'
    | Raise _ => stacks
    end.

Definition parse_one_collapsed (collapsed : string) (add_comm : option string)
  : StackToSampleCount :=
  fold_left (parse_one_line add_comm) (Str.splitlines collapsed) [].

(** *** Reading a collapsed file *)

(** Text mode, as [Path.read_text] opens the file: universal newlines. CR
    LF and a CR alone are read as LF. [after_cr] says that the previous
    character was a CR, already read as LF. *)
Fixpoint universal_newlines (after_cr : bool) (s : string) : string :=
  match s with
  | EmptyString => EmptyString
  | String c rest =>
      if after_cr && Ascii.eqb c Str.LF then universal_newlines false rest
      else if Ascii.eqb c Str.CR
           then String Str.LF (universal_newlines true rest)
           else String c (universal_newlines false rest)
  end.

(** The file system: the decoded characters of a file, before the newline
    translation, or the exception that opening, reading or decoding
    raised. *)
Class FileSystem (E : Type) : Type := {
  read_decoded : string -> E + string
}.

(** [path.read_text()] *)
Definition read_text {E : Type} `{FileSystem E} (path : string) : E + string :=
  match read_decoded path with
  | inl e => inl e
  | inr raw => inr (universal_newlines false raw)
  end.

Definition parse_one_collapsed_file {E : Type} `{FileSystem E}
  (collapsed : string) (add_comm : option string) : E + StackToSampleCount :=
  match read_text collapsed with
  | inl e => inl e
  | inr text => inr (parse_one_collapsed text add_comm)
  end.

(** *** Stacks of many processes *)

Definition ProcessToStackSampleCounters : Type := Dict.t Z StackToSampleCount.

(** [results[pid]] on a [defaultdict(Counter)]: a missing pid is inserted
    with an empty counter by the read itself. *)
Definition results_getitem (results : ProcessToStackSampleCounters) (pid : Z)
  : StackToSampleCount * ProcessToStackSampleCounters :=
  match Dict.get results pid with
  | Some c => (c, results)
  | None => ([], Dict.set results pid [])
  end.

(** The [try] body of [parse_many_collapsed] on one line. The statement
    [results[pid][key] += int(count)] evaluates [results[pid]] and reads the
    old count before it evaluates [int(count)], so the mapping that reaches
    the handler already holds what the reads inserted: the second component
    is the mapping as the line left it, also when the line raised. *)
Definition parse_many_try (results : ProcessToStackSampleCounters)
  (line : string) : result unit * ProcessToStackSampleCounters :=
  match Str.unpack2 (Str.rsplit1 " " line) with
  | Raise e => (Raise e, results)
  | Ok (stack, count) =>
  match Str.unpack2 (Str.split1 ";" stack) with
  | Raise e => (Raise e, results)
  | Ok (comm_pid_tid, stack) =>
  match Str.unpack2 (Str.rsplit1 "-" comm_pid_tid) with
  | Raise e => (Raise e, results)
  | Ok (comm, pid_tid) =>
  match Str.int (Str.split_head "/" pid_tid) with
  | Raise e => (Raise e, results)
  | Ok pid =>
      let '(counter, results1) := results_getitem results pid in
      let key := comm +:+ ";" +:+ stack in
      let old := Counter.get counter key in
      match Str.int count with
      | Raise e => (Raise e, results1)
      | Ok n => (Ok tt, Dict.set results1 pid (Dict.set counter key (old + n)))
      end
  end end end end.

(** One turn of the loop of [parse_many_collapsed]: [except ValueError]
    appends the line to [bad_lines]; any other exception leaves the loop. *)
Definition parse_many_line
  (st : ProcessToStackSampleCounters * list string) (line : string)
  : result (ProcessToStackSampleCounters * list string) :=
  let '(results, bad_lines) := st in
  match parse_many_try results line with
  | (Ok _, results') => Ok (results', bad_lines)
  | (Raise ValueError, results') => Ok (results', bad_lines ++ [line])
  | (Raise e, _) => Raise e
  end.

Fixpoint parse_many_loop (lines : list string)
  (st : ProcessToStackSampleCounters * list string)
  : result (ProcessToStackSampleCounters * list string) :=
  match lines with
  | [] => Ok st
  | line :: rest =>
      let* st' := parse_many_line st line in parse_many_loop rest st'
  end.

(** [parse_many_collapsed], with the list of bad lines it logs. *)
Definition parse_many_collapsed_log (text : string)
  : result (ProcessToStackSampleCounters * list string) :=
  parse_many_loop (Str.splitlines text) ([], []).

Definition parse_many_collapsed (text : string)
  : result ProcessToStackSampleCounters :=
  let* (results, _) := parse_many_collapsed_log text in Ok results.

(** ** Python floats *)

Module Float.

Definition prec : Z := 53.
Definition emax : Z := 1024.

Definition t : Type := spec_float.

(** [float(n)] for an [int], as [n * ratio] converts its left operand:
    rounded to nearest, ties to even; too large a value raises. *)
Definition of_int (n : Z) : result t :=
  match binary_normalize prec emax n 0 false with
  | S754_infinity _ => Raise OverflowError
  | f => Ok f
  end.

(** [a / b] on two [int]s: the correctly rounded quotient. *)
Definition int_true_div (a b : Z) : result t :=
  match b with
  | Z0 => Raise ZeroDivisionError
  | _ =>
      let negate := xorb (a <? 0) (b <? 0) in
      match a with
      | Z0 => Ok (S754_zero negate)
      | _ =>
          let '(mz, ez, lz) :=
            SFdiv_core_binary prec emax (Z.abs a) 0 (Z.abs b) 0 in
          match binary_round_aux prec emax negate mz ez lz with
          | S754_infinity _ => Raise OverflowError
          | f => Ok f
          end
      end
  end.

(** [x * y] on two floats. *)
Definition mul (x y : t) : t := SFmul prec emax x y.

(** [n * y] for an [int] [n] and a float [y]: the [int] is converted. *)
Definition int_mul (n : Z) (y : t) : result t :=
  let* x := of_int n in Ok (mul x y).

(** The signed mantissa and the exponent of a zero or finite value. *)
Definition mantissa (x : t) : Z :=
  match x with
  | S754_finite s m _ => cond_Zopp s (Zpos m)
  | _ => 0
  end.

Definition exponent (x : t) : Z :=
  match x with
  | S754_finite _ _ e => e
  | _ => 0
  end.

(** [x <= y], by value. *)
Definition le (x y : t) : bool :=
  match x, y with
  | S754_nan, _ | _, S754_nan => false
  | S754_infinity sx, S754_infinity sy => sx || negb sy
  | S754_infinity sx, _ => sx
  | _, S754_infinity sy => negb sy
  | _, _ =>
      let e := Z.min (exponent x) (exponent y) in
      mantissa x * 2 ^ (exponent x - e) <=? mantissa y * 2 ^ (exponent y - e)
  end.

(** [x == n] for an [int] [n], by value. *)
Definition eq_int (x : t) (n : Z) : bool :=
  match x with
  | S754_nan | S754_infinity _ => false
  | _ =>
      if 0 <=? exponent x then mantissa x * 2 ^ exponent x =? n
      else mantissa x =? n * 2 ^ (- exponent x)
  end.

(** [math.floor(x)] *)
Definition floor (x : t) : result Z :=
  match x with
  | S754_nan => Raise ValueError
  | S754_infinity _ => Raise OverflowError
  | _ => Ok (Z.shiftl (mantissa x) (exponent x))
  end.

(** [math.ceil(x)] *)
Definition ceil (x : t) : result Z :=
  match x with
  | S754_nan => Raise ValueError
  | S754_infinity _ => Raise OverflowError
  | _ => Ok (- Z.shiftl (- mantissa x) (exponent x))
  end.

(** [math.modf(x)[0]]: the fractional part, with the sign of [x]. Floats
    are only compared by value here, so a non-zero fractional part keeps the
    exponent of [x] and is not renormalised. *)
Definition modf_frac (x : t) : t :=
  match x with
  | S754_nan => S754_nan
  | S754_infinity s => S754_zero s
  | S754_zero s => S754_zero s
  | S754_finite s m e =>
      if 0 <=? e then S754_zero s
      else match Zpos m mod 2 ^ (- e) with
           | Zpos r => S754_finite s r e
           | _ => S754_zero s
           end
  end.

(** A value that is not below zero: anything but a negative finite number
    or minus infinity. *)
Definition not_negative (x : t) : Prop :=
  match x with
  | S754_finite true _ _ | S754_infinity true => False
  | _ => True
  end.

(** The rational number [m * 2^e]. *)
Definition dyadic (m e : Z) : Q :=
  if 0 <=? e then inject_Z (m * 2 ^ e)
  else Qmake m (Z.to_pos (2 ^ (- e))).

(** The rational number a zero or finite float stands for. *)
Definition to_Q (x : t) : Q := dyadic (mantissa x) (exponent x).

(** The float [k / 2^53] that [random.random()] returns for the 53-bit
    numerator [k]. *)
Definition of_random (k : N) : t :=
  match k with
  | N0 => S754_zero false
  | Npos p => S754_finite false p (-53)
  end.

End Float.

(** ** The random source *)

(** The state of the [random] module: the numerators of the draws still to
    come, the next one at position 0. *)
Definition Random : Type := nat -> N.

(** [random.random()]: the numerator drawn and the source after the draw. *)
Definition random (g : Random) : N * Random :=
  (g 0%nat, fun i => g (S i)).

(** ** The sample scaler *)

(** The body of the loop of [scale_sample_counts] up to [scaled_value]. *)
Definition scale_one (count : Z) (ratio : Float.t) (g : Random)
  : result (Z * Random) :=
  let* new_count := Float.int_mul count ratio in
  let '(u, g') := random g in
  let* scaled_value :=
    if Float.le (Float.of_random u) (Float.modf_frac new_count)
    then Float.ceil new_count
    else Float.floor new_count in
  Ok (scaled_value, g').

Fixpoint scale_loop (items : list (string * Z)) (ratio : Float.t)
  (scaled_stacks : StackToSampleCount) (g : Random)
  : result (StackToSampleCount * Random) :=
  match items with
  | [] => Ok (scaled_stacks, g)
  | (stack, count) :: rest =>
      let* (scaled_value, g') := scale_one count ratio g in
      if scaled_value =? 0 then scale_loop rest ratio scaled_stacks g'
      else scale_loop rest ratio (Dict.set scaled_stacks stack scaled_value) g'
  end.

Definition scale_sample_counts (stacks : StackToSampleCount)
  (ratio : Float.t) (g : Random) : result (StackToSampleCount * Random) :=
  if Float.eq_int ratio 1 then Ok (stacks, g)
  else scale_loop stacks ratio [] g.

(** The product [count * ratio] of one entry as a rational number, and the
    sum of the products of a mapping. *)
Definition product_value (count : Z) (ratio : Float.t) : Q :=
  match Float.int_mul count ratio with
  | Ok x => Float.to_Q x
  | Raise _ => 0%Q
  end.

Definition sum_products (stacks : StackToSampleCount) (ratio : Float.t) : Q :=
  fold_right (fun entry acc => (product_value entry.2 ratio + acc)%Q) 0%Q
    stacks.

(** ** The distribution of the draws

    [random.random()] returns [k / 2^53] for a numerator [k] that is uniform
    on the [2^53] integers from 0; the draws of one call of the scaler are
    independent. Sums over all outcomes stand for expected values: the mean
    is the sum divided by the number of outcomes. *)

(** The number of values of one draw. It is never computed with. *)
Definition draw_count : nat := Z.to_nat (2 ^ 53).

(** The sum of [f k] over the first [n] numerators [k]. *)
Fixpoint sum_draws (n : nat) (f : N -> Z) : Z :=
  match n with
  | O => 0
  | S n' => sum_draws n' f + f (N.of_nat n')
  end.

(** The source that draws [k] first and goes on as [g]. *)
Definition cons_draw (k : N) (g : Random) : Random :=
  fun i => match i with O => k | S j => g j end.

(** The sum of [F g] over all outcomes of the first [len] draws of [g],
    each draw with [n] values. *)
Fixpoint sum_outcomes (n len : nat) (F : Random -> Z) : Z :=
  match len with
  | O => F (fun _ => 0%N)
  | S len' =>
      sum_draws n (fun k => sum_outcomes n len' (fun g => F (cons_draw k g)))
  end.

(** The sum of the values of the scaled mapping, 0 when the scaler raises. *)
Definition scaled_total (stacks : StackToSampleCount) (ratio : Float.t)
  (g : Random) : Z :=
  match scale_sample_counts stacks ratio g with
  | Ok (scaled, _) => Counter.total scaled
  | Raise _ => 0
  end.

(** The mean, over the outcomes of the draws, of the sum of the values of
    the scaled mapping: one draw per entry. *)
Definition expected_total (stacks : StackToSampleCount) (ratio : Float.t) : Q :=
  (inject_Z (sum_outcomes draw_count (length stacks)
               (scaled_total stacks ratio))
   / inject_Z (Z.of_nat draw_count ^ Z.of_nat (length stacks)))%Q.

(** The value stored for an entry of product [x] when the draw is [k]. *)
Definition rounded (x : Float.t) (k : N) : Z :=
  if Float.le (Float.of_random k) (Float.modf_frac x)
  then - Z.shiftl (- Float.mantissa x) (Float.exponent x)
  else Z.shiftl (Float.mantissa x) (Float.exponent x).

(** The sum of the values stored for the entries, one draw each. *)
Fixpoint scaled_sum (items : list (string * Z)) (ratio : Float.t)
  (g : Random) : Z :=
  match items with
  | [] => 0
  | (_, count) :: rest =>
      match Float.int_mul count ratio with
      | Ok x => rounded x (g 0%nat)
      | Raise _ => 0
      end + scaled_sum rest ratio (fun i => g (S i))
  end.

(** The product of an entry is a zero or a finite float. *)
Definition product_finite (count : Z) (ratio : Float.t) : bool :=
  match Float.int_mul count ratio with
  | Ok (S754_zero _) | Ok (S754_finite _ _ _) => true
  | _ => false
  end.

(** ** Collaborators *)

(** [gprofiler.containers_client.ContainerNamesClient]: a client of state
    [C] resolves the container of a pid and remembers the names it saw. *)
Class ContainerNamesClient (C : Type) : Type := {
  get_container_name : C -> Z -> string * C;
  container_names : C -> list string;
  reset_cache : C -> C
}.

(** [gprofiler.gprofiler_types.ProfilingErrorStack]: the two static methods
    [merge_profiles] calls. *)
Class ProfilingErrorStack : Type := {
  is_error_stack : StackToSampleCount -> bool;
  attach_error_to_stacks :
    StackToSampleCount -> StackToSampleCount -> StackToSampleCount
}.

(** [gprofiler.metadata.enrichment.EnrichmentOptions] *)
Record EnrichmentOptions : Type := {
  profile_api_version : option string;
  container_names_option : bool;
  application_identifiers : bool;
  application_metadata_option : bool
}.

(** [profile_api_version != "v1"] *)
Definition not_v1 (enrichment_options : EnrichmentOptions) : bool :=
  negb (bool_decide (profile_api_version enrichment_options = Some "v1")).

Record PidStackEnrichment : Type := {
  appid_frame : option string;
  application_prefix : string;
  container_prefix : string
}.

(** [sep.join(lines)] *)
Fixpoint join (sep : string) (lines : list string) : string :=
  match lines with
  | [] => ""
  | [l] => l
  | l :: rest => l +:+ sep +:+ join sep rest
  end.

Definition newline : string := String Str.LF "".

(** [l.index(x)]: the first position of a value equal to [x]. *)
Fixpoint index {A : Type} `{EqDecision A} (l : list A) (x : A) : result nat :=
  match l with
  | [] => Raise ValueError
  | y :: rest =>
      if decide (y = x) then Ok 0%nat
      else let* i := index rest x in Ok (S i)
  end.

Section Merge.

(** [AppMetadata]: a structured application-metadata document, compared by
    value. [MetaValue]: a value of the run metadata document. [Metrics]: the
    metrics snapshot. [Client]: the state of the container-names client. *)
Context {AppMetadata : Type} `{EqDecision AppMetadata}.
Context {MetaValue Metrics Client : Type}.
Context `{client_ops : ContainerNamesClient Client}.
Context `{error_stack : ProfilingErrorStack}.

(** [gprofiler.gprofiler_types.ProfileData] *)
Record ProfileData : Type := {
  stacks : StackToSampleCount;
  appid : option string;
  app_metadata : option AppMetadata
}.

Definition ProcessToProfileData : Type := Dict.t Z ProfileData.
Definition Metadata : Type := Dict.t string MetaValue.

(** The document [_make_profile_metadata] serialises. *)
Record ProfileMetadata : Type := {
  pm_containers : list string;
  pm_container_names_enabled : bool;
  pm_metadata : Metadata;
  pm_metrics : Metrics;
  pm_application_metadata : list (option AppMetadata);
  pm_application_metadata_enabled : bool;
  pm_profiling_mode : MetaValue
}.

(** [json.dumps] on that document. *)
Variable json_dumps : ProfileMetadata -> string.

Definition _make_profile_metadata (container_names_client : option Client)
  (add_container_names : bool) (metadata : Metadata) (metrics : Metrics)
  (application_metadata : list (option AppMetadata))
  (application_metadata_enabled : bool) : result (string * option Client) :=
  let '(names, enabled, client') :=
    match container_names_client with
    | Some c =>
        if add_container_names
        then (container_names c, true, Some (reset_cache c))
        else ([], false, container_names_client)
    | None => ([], false, container_names_client)
    end in
  match Dict.get metadata "profiling_mode" with
  | None => Raise KeyError
  | Some mode =>
      Ok ("# " +:+ json_dumps
            {| pm_containers := names;
               pm_container_names_enabled := enabled;
               pm_metadata := metadata;
               pm_metrics := metrics;
               pm_application_metadata := application_metadata;
               pm_application_metadata_enabled := application_metadata_enabled;
               pm_profiling_mode := mode |},
          client')
  end.

Definition _get_container_name (pid : Z)
  (container_names_client : option Client) (add_container_names : bool)
  : string * option Client :=
  match container_names_client with
  | Some c =>
      if add_container_names
      then let '(name, c') := get_container_name c pid in (name, Some c')
      else ("", container_names_client)
  | None => ("", container_names_client)
  end.

(** The "generate metadata" block of [_enrich_pid_stacks]: the table after
    the append, and the index of the document in it. *)
Definition register_app_metadata
  (application_metadata : list (option AppMetadata))
  (app_metadata : option AppMetadata)
  : result (nat * list (option AppMetadata)) :=
  let application_metadata' :=
    if decide (app_metadata ∈ application_metadata)
    then application_metadata
    else application_metadata ++ [app_metadata] in
  let* idx := index application_metadata' app_metadata in
  Ok (idx, application_metadata').

Definition _enrich_pid_stacks (pid : Z) (profile : ProfileData)
  (enrichment_options : EnrichmentOptions)
  (container_names_client : option Client)
  (application_metadata : list (option AppMetadata))
  : result (PidStackEnrichment * list (option AppMetadata) * option Client) :=
  let appid :=
    match appid profile with
    | Some a => Some ("appid: " +:+ a)
    | None => None
    end in
  let* (idx, application_metadata') :=
    register_app_metadata application_metadata (app_metadata profile) in
  let application_prefix :=
    if not_v1 enrichment_options
       && application_metadata_option enrichment_options
    then Str.of_int (Z.of_nat idx) +:+ ";"
    else "" in
  let '(container_prefix, client') :=
    if not_v1 enrichment_options
    then
      let '(name, c') :=
        _get_container_name pid container_names_client
          (container_names_option enrichment_options) in
      (name +:+ ";", c')
    else ("", container_names_client) in
  Ok ({| appid_frame := appid;
         application_prefix := application_prefix;
         container_prefix := container_prefix |},
      application_metadata', client').

Definition _enrich_and_finalize_stack (stack : string) (count : Z)
  (enrichment_options : EnrichmentOptions) (enrich_data : PidStackEnrichment)
  : string :=
  let stack :=
    match application_identifiers enrichment_options, appid_frame enrich_data with
    | true, Some appid =>
        match Str.unpack2 (Str.split1 ";" stack) with
        | Ok (first_frame, others) =>
            first_frame +:+ ";" +:+ appid +:+ ";" +:+ others
        | Raise _ => stack +:+ ";" +:+ appid
        end
    | _, _ => stack
    end in
  application_prefix enrich_data +:+ container_prefix enrich_data
    +:+ stack +:+ " " +:+ Str.of_int count.

(** The inner loop of [concatenate_profiles]: the lines of one process.
    Each line is kept with the pid of the profile it was made from; the pid
    is dropped when the lines are joined. *)
Definition profile_lines (pid : Z) (profile : ProfileData)
  (enrichment_options : EnrichmentOptions) (enrich_data : PidStackEnrichment)
  : list (Z * string) :=
  map (fun '(stack, count) =>
         (pid, _enrich_and_finalize_stack stack count enrichment_options
                 enrich_data))
      (stacks profile).

(** The state of the outer loop of [concatenate_profiles]. *)
Record ConcatState : Type := {
  cs_lines : list (Z * string);
  cs_application_metadata : list (option AppMetadata);
  cs_client : option Client
}.

Definition concatenate_step (enrichment_options : EnrichmentOptions)
  (st : ConcatState) (item : Z * ProfileData) : result ConcatState :=
  let '(pid, profile) := item in
  let* (enrich_data, application_metadata', client') :=
    _enrich_pid_stacks pid profile enrichment_options (cs_client st)
      (cs_application_metadata st) in
  Ok {| cs_lines :=
          cs_lines st
            ++ profile_lines pid profile enrichment_options enrich_data;
        cs_application_metadata := application_metadata';
        cs_client := client' |}.

Fixpoint concatenate_loop (enrichment_options : EnrichmentOptions)
  (items : list (Z * ProfileData)) (st : ConcatState) : result ConcatState :=
  match items with
  | [] => Ok st
  | item :: rest =>
      let* st' := concatenate_step enrichment_options st item in
      concatenate_loop enrichment_options rest st'
  end.

Definition concat_init (container_names_client : option Client)
  : ConcatState :=
  {| cs_lines := [];
     cs_application_metadata := [None];
     cs_client := container_names_client |}.

(** [concatenate_profiles] before the join: the header line, the stack
    lines with their pids, and the client afterwards. *)
Definition concatenate_profiles_lines (process_profiles : ProcessToProfileData)
  (container_names_client : option Client)
  (enrichment_options : EnrichmentOptions) (metadata : Metadata)
  (metrics : Metrics) : result (string * list (Z * string) * option Client) :=
  let* st :=
    concatenate_loop enrichment_options process_profiles
      (concat_init container_names_client) in
  let* (header, client') :=
    _make_profile_metadata (cs_client st)
      (container_names_option enrichment_options) metadata metrics
      (cs_application_metadata st)
      (application_metadata_option enrichment_options) in
  Ok (header, cs_lines st, client').

Definition concatenate_profiles (process_profiles : ProcessToProfileData)
  (container_names_client : option Client)
  (enrichment_options : EnrichmentOptions) (metadata : Metadata)
  (metrics : Metrics) : result (string * option Client) :=
  let* (header, lines, client') :=
    concatenate_profiles_lines process_profiles container_names_client
      enrichment_options metadata metrics in
  Ok (join newline (header :: map snd lines), client').

(** One turn of the loop of [merge_profiles]. *)
Definition merge_step (st : ProcessToProfileData * Random)
  (item : Z * ProfileData) : result (ProcessToProfileData * Random) :=
  let '(perf_pid_to_profiles, g) := st in
  let '(pid, profile) := item in
  match stacks profile with
  | [] => Ok st
  | _ =>
      let process_perf := Dict.get perf_pid_to_profiles pid in
      let perf_samples_count :=
        match process_perf with
        | None => 0
        | Some p => Counter.total (stacks p)
        end in
      let profile_samples_count := Counter.total (stacks profile) in
      if negb (0 <? profile_samples_count) then Raise AssertionError
      else
        let attach :=
          match process_perf with
          | Some p =>
              if (0 <? perf_samples_count) && is_error_stack (stacks profile)
              then Some p
              else None
          | None => None
          end in
        let* (stacks', g') :=
          match attach with
          | Some p =>
              Ok (attach_error_to_stacks (stacks p) (stacks profile), g)
          | None =>
              let* ratio :=
                Float.int_true_div perf_samples_count profile_samples_count in
              scale_sample_counts (stacks profile) ratio g
          end in
        let profile' :=
          {| stacks := stacks';
             appid := appid profile;
             app_metadata := app_metadata profile |} in
        Ok (Dict.set perf_pid_to_profiles pid profile', g')
  end.

Fixpoint merge_loop (items : list (Z * ProfileData))
  (st : ProcessToProfileData * Random)
  : result (ProcessToProfileData * Random) :=
  match items with
  | [] => Ok st
  | item :: rest => let* st' := merge_step st item in merge_loop rest st'
  end.

(** [merge_profiles] before the join. *)
Definition merge_profiles_lines (perf_pid_to_profiles : ProcessToProfileData)
  (process_profiles : ProcessToProfileData)
  (container_names_client : option Client)
  (enrichment_options : EnrichmentOptions) (metadata : Metadata)
  (metrics : Metrics) (g : Random)
  : result (string * list (Z * string) * option Client * Random) :=
  let* (merged, g') := merge_loop process_profiles (perf_pid_to_profiles, g) in
  let* (header, lines, client') :=
    concatenate_profiles_lines merged container_names_client
      enrichment_options metadata metrics in
  Ok (header, lines, client', g').

Definition merge_profiles (perf_pid_to_profiles : ProcessToProfileData)
  (process_profiles : ProcessToProfileData)
  (container_names_client : option Client)
  (enrichment_options : EnrichmentOptions) (metadata : Metadata)
  (metrics : Metrics) (g : Random) : result (string * option Client * Random) :=
  let* (header, lines, client', g') :=
    merge_profiles_lines perf_pid_to_profiles process_profiles
      container_names_client enrichment_options metadata metrics g in
  Ok (join newline (header :: map snd lines), client', g').

End Merge.

Arguments ProfileData : clear implicits.
Arguments ProcessToProfileData : clear implicits.
Arguments Metadata : clear implicits.
Arguments ProfileMetadata : clear implicits.
Arguments ConcatState : clear implicits.

(** ** Invariants of the merger *)

(** The table the "generate metadata" block leaves. *)
Definition table_with {AppMetadata : Type} `{EqDecision AppMetadata}
  (table : list (option AppMetadata)) (doc : option AppMetadata) :
  list (option AppMetadata) :=
  if decide (doc ∈ table) then table else table ++ [doc].

(** The sentinel stays first and no document enters the table twice. *)
Definition table_ok {AppMetadata : Type} (table : list (option AppMetadata)) :
  Prop :=
  table !! 0%nat = Some None /\ NoDup table.

(** Every profile stored under [pid] has an empty mapping. *)
Definition no_samples_for {AppMetadata : Type} (pid : Z)
  (perf : list (Z * ProfileData AppMetadata)) : Prop :=
  forall p : ProfileData AppMetadata, (pid, p) ∈ perf -> stacks p = [].

(** ** The parser's contract, in the words of the specification *)

(** What one line contributes: nothing for an empty line, a comment or a
    line whose count is no integer; otherwise the stack signature before the
    last space, under the root frame if one is given, with the count after
    it. *)
Definition spec_entry (root : option string) (line : string)
  : option (string * Z) :=
  if decide (line = "") then None
  else if Str.startswith "#" line then None
  else
    let '(signature, count) := Str.rpartition " " line in
    match Str.int count with
    | Ok n =>
        Some (match root with
              | Some r => r +:+ ";" +:+ signature
              | None => signature
              end, n)
    | Raise _ => None
    end.

Fixpoint spec_entries (root : option string) (lines : list string)
  : list (string * Z) :=
  match lines with
  | [] => []
  | line :: rest =>
      match spec_entry root line with
      | Some entry => entry :: spec_entries root rest
      | None => spec_entries root rest
      end
  end.

(** The sum of the counts recorded for one signature. *)
Fixpoint spec_count (entries : list (string * Z)) (signature : string) : Z :=
  match entries with
  | [] => 0
  | (s, n) :: rest =>
      (if decide (s = signature) then n else 0) + spec_count rest signature
  end.

(** What a list of lines adds for one signature. *)
Definition lines_count (root : option string) (signature : string)
  (lines : list string) : Z :=
  spec_count (spec_entries root lines) signature.

(** A text that is empty or ends with a line boundary. *)
Fixpoint closed_text (s : string) : bool :=
  match s with
  | EmptyString => true
  | String c EmptyString => Str.is_linebreak c
  | String _ rest => closed_text rest
  end.

(** ** The error-stack helpers, from the specification *)

Module SpecErrorStack.

(** Modelled from the spec: [ProfilingErrorStack.attach_error_to_stacks] of
    [gprofiler.gprofiler_types] is not among the sources. For every stack of
    the error mapping, one entry per stack of the reference mapping: the
    error stack, a semicolon, the reference stack, with the reference
    stack's count. *)
Definition attach_error (reference_mapping error_mapping : StackToSampleCount)
  : StackToSampleCount :=
  fold_left
    (fun acc '(error_stack, _) =>
       fold_left
         (fun acc '(stack, count) =>
            Dict.set acc (error_stack +:+ ";" +:+ stack) count)
         reference_mapping acc)
    error_mapping [].

(** Modelled from the spec: [ProfilingErrorStack.is_error_stack] of
    [gprofiler.gprofiler_types] is not among the sources, and the
    specification names no marker. Its example of an error stack is the
    one-entry mapping of ERROR;failed_to_attach; the model accepts a
    one-entry mapping whose signature starts with the frame ERROR. *)
Definition is_error (mapping : StackToSampleCount) : bool :=
  match mapping with
  | [(signature, _)] => bool_decide (Str.split_head ";" signature = "ERROR")
  | _ => false
  end.

#[export] Instance spec_error_stack : ProfilingErrorStack :=
  {| is_error_stack := is_error; attach_error_to_stacks := attach_error |}.

End SpecErrorStack.

(** ** A concrete environment for examples *)

Module Example.

(** A client that knows one container name per pid and keeps the names it
    resolved. *)
#[export] Instance list_client : ContainerNamesClient (list string) :=
  {| get_container_name := fun seen pid =>
       let name := "c" +:+ Str.of_int pid in (name, seen ++ [name]);
     container_names := fun seen => seen;
     reset_cache := fun _ => [] |}.

(** A stand-in for [json.dumps]: only the profiling mode is rendered. *)
Definition dumps (doc : ProfileMetadata string string unit) : string :=
  "{profiling_mode: " +:+ pm_profiling_mode doc +:+ "}".

Definition no_enrichment : EnrichmentOptions :=
  {| profile_api_version := Some "v1";
     container_names_option := false;
     application_identifiers := false;
     application_metadata_option := false |}.

Definition full_enrichment : EnrichmentOptions :=
  {| profile_api_version := Some "v2";
     container_names_option := true;
     application_identifiers := true;
     application_metadata_option := true |}.

Definition profile (stacks : StackToSampleCount) : ProfileData string :=
  {| stacks := stacks; appid := None; app_metadata := None |}.

Definition cpu_metadata : Metadata string :=
  [("profiling_mode", "cpu")].

(** A random source that always draws the numerator [k]. *)
Definition constant_source (k : N) : Random := fun _ => k.

End Example.

(** ** Vocabulary of the properties *)

(** *** Characters and lines *)

(** A character that is not [sep]. *)
Definition is_not (sep : ascii) (c : ascii) : bool := negb (Ascii.eqb c sep).

(** A decimal digit. *)
Definition is_digit (c : ascii) : bool :=
  match Str.digit_value c with Some _ => true | None => false end.

(** A character of the text of any integer: a digit or the minus sign. *)
Definition is_int_char (c : ascii) : bool := is_digit c || Ascii.eqb c "-".

(** No character of [s] is a line boundary. *)
Definition one_line (s : string) : bool :=
  Str.all_chars (fun c => negb (Str.is_linebreak c)) s.

(** A stack signature that can stand on a line of its own: no line boundary
    in it and no hash sign at its start. *)
Definition line_safe (stack : string) : bool :=
  one_line stack && negb (Str.startswith "#" stack).

(** *** Parsed samples *)

(** The key of a stack under a root frame. *)
Definition under_root (comm : string) (entry : string * Z) : string * Z :=
  (comm +:+ ";" +:+ entry.1, entry.2).

(** The samples a parse holds for a process and a signature. *)
Definition sample_count (results : ProcessToStackSampleCounters) (pid : Z)
  (signature : string) : Z :=
  match Dict.get results pid with
  | Some counter => Counter.get counter signature
  | None => 0
  end.

(** The line [perf script] collapses to for one stack of a thread. *)
Definition perf_line (comm : string) (pid tid : Z) (stack : string) (count : Z)
  : string :=
  comm +:+ "-" +:+ Str.of_int pid +:+ "/" +:+ Str.of_int tid +:+ ";"
    +:+ stack +:+ " " +:+ Str.of_int count.

(** *** Products *)

(** The product of an entry is a whole number. *)
Definition product_whole (count : Z) (ratio : Float.t) : bool :=
  match Float.int_mul count ratio with
  | Ok (S754_zero _) => true
  | Ok (S754_finite _ m e) => (0 <=? e) || (Z.pos m mod 2 ^ (- e) =? 0)
  | _ => false
  end.

(** *** Container names *)

(** The client after it resolved the container names of the processes, one
    after the other. *)
Definition resolve_all {Client : Type} `{ContainerNamesClient Client}
  (c : Client) (pids : list Z) : Client :=
  fold_left (fun c pid => (get_container_name c pid).2) pids c.

(** The client [concatenate_profiles] hands to [_make_profile_metadata]. *)
Definition client_after_lines {Client : Type} `{ContainerNamesClient Client}
  (client : option Client) (enrichment_options : EnrichmentOptions)
  (pids : list Z) : option Client :=
  match client with
  | Some c =>
      if not_v1 enrichment_options && container_names_option enrichment_options
      then Some (resolve_all c pids)
      else client
  | None => None
  end.

(** *** Output lines *)

(** The stack of [_enrich_and_finalize_stack] after the application frame
    went in. *)
Definition with_appid (stack : string) (enrichment_options : EnrichmentOptions)
  (enrich_data : PidStackEnrichment) : string :=
  match application_identifiers enrichment_options, appid_frame enrich_data with
  | true, Some appid =>
      match Str.unpack2 (Str.split1 ";" stack) with
      | Ok (first_frame, others) =>
          first_frame +:+ ";" +:+ appid +:+ ";" +:+ others
      | Raise _ => stack +:+ ";" +:+ appid
      end
  | _, _ => stack
  end.

(** The line of [_enrich_and_finalize_stack] up to the space before the
    count. *)
Definition enriched_stack (stack : string)
  (enrichment_options : EnrichmentOptions) (enrich_data : PidStackEnrichment)
  : string :=
  application_prefix enrich_data +:+ container_prefix enrich_data
    +:+ with_appid stack enrichment_options enrich_data.

(** The line of a stack that nothing is added to. *)
Definition plain_line (entry : string * Z) : string :=
  entry.1 +:+ " " +:+ Str.of_int entry.2.

(** The stack lines of the processes, nothing added. *)
Definition plain_lines {AppMetadata : Type}
  (profiles : list (Z * ProfileData AppMetadata)) : list string :=
  flat_map (fun item => map plain_line (stacks item.2)) profiles.

(** The samples all the processes together hold for a stack signature. *)
Definition samples_of {AppMetadata : Type} (signature : string)
  (profiles : list (Z * ProfileData AppMetadata)) : Z :=
  fold_right (fun item acc => Counter.get (stacks item.2) signature + acc) 0
    profiles.

(** ** Inputs of the examples *)

Module Sample.

Definition half : Float.t := S754_finite false 4503599627370496 (-53).
Definition two : Float.t := S754_finite false 4503599627370496 (-51).

(** Two processes, the first with two stacks. *)
Definition two_processes : ProcessToProfileData string :=
  [(1, Example.profile [("a;b", 3); ("c", 1)]);
   (2, Example.profile [("d", 4)])].

(** A protocol version after v1 with every feature off. *)
Definition bare_v2 : EnrichmentOptions :=
  {| profile_api_version := Some "v2";
     container_names_option := false;
     application_identifiers := false;
     application_metadata_option := false |}.

Definition app_frames : PidStackEnrichment :=
  {| appid_frame := Some "appid: app";
     application_prefix := "1;";
     container_prefix := "c1;" |}.

End Sample.

(** * Properties *)

(** ** Dictionaries and counters *)

Section DictFacts.
Context {K V : Type} `{EqDecision K}.
Implicit Types (d : Dict.t K V) (k : K) (v : V).

Lemma dict_get_set_eq d k v : Dict.get (Dict.set d k v) k = Some v.
Proof.
  induction d as [|[k' v'] d IH]; simpl.
  - by rewrite decide_True.
  - destruct (decide (k' = k)) as [->|Hne]; simpl.
    + by rewrite decide_True.
    + by rewrite decide_False.
Qed.

Lemma dict_get_set_ne d k k' v :
  k <> k' -> Dict.get (Dict.set d k v) k' = Dict.get d k'.
Proof.
  intros Hne. induction d as [|[k0 v0] d IH]; simpl.
  - by rewrite decide_False.
  - destruct (decide (k0 = k)) as [->|Hne0]; simpl.
    + by rewrite !decide_False.
    + by rewrite IH.
Qed.

Lemma dict_keys_set d k v k' :
  k' ∈ Dict.keys (Dict.set d k v) <-> k' = k \/ k' ∈ Dict.keys d.
Proof.
  unfold Dict.keys. induction d as [|[k0 v0] d IH]; simpl.
  - rewrite list_elem_of_singleton, elem_of_nil. tauto.
  - destruct (decide (k0 = k)) as [->|Hne0]; simpl;
      rewrite !elem_of_cons; [tauto | rewrite IH; tauto].
Qed.

Lemma dict_get_None d k : Dict.get d k = None <-> k ∉ Dict.keys d.
Proof.
  unfold Dict.keys. induction d as [|[k0 v0] d IH]; simpl.
  - rewrite elem_of_nil. tauto.
  - rewrite not_elem_of_cons.
    destruct (decide (k0 = k)) as [->|Hne0]; [|rewrite IH]; naive_solver.
Qed.

Lemma dict_keys_NoDup_set d k v :
  NoDup (Dict.keys d) -> NoDup (Dict.keys (Dict.set d k v)).
Proof.
  unfold Dict.keys. induction d as [|[k0 v0] d IH]; simpl; intros Hnd.
  - apply NoDup_singleton.
  - apply NoDup_cons in Hnd as [Hnotin Hnd].
    destruct (decide (k0 = k)) as [->|Hne0]; simpl; apply NoDup_cons.
    + done.
    + split; [|by apply IH].
      intros Hin. apply (dict_keys_set d k v k0) in Hin. naive_solver.
Qed.

End DictFacts.

Lemma counter_get_add (c : StackToSampleCount) (k k' : string) (n : Z) :
  Counter.get (Counter.add c k n) k'
  = if decide (k = k') then Counter.get c k + n else Counter.get c k'.
Proof.
  unfold Counter.add, Counter.get at 1.
  destruct (decide (k = k')) as [->|Hne].
  - by rewrite dict_get_set_eq.
  - by rewrite dict_get_set_ne.
Qed.

(** ** Strings *)

Lemma all_chars_lstrip p sp s :
  Str.all_chars p s = true -> Str.all_chars p (Str.lstrip_with sp s) = true.
Proof.
  induction s as [|c s IH]; simpl; [done|].
  intros [Hc Hs]%andb_true_iff.
  destruct (sp c); [by apply IH|]. simpl. by rewrite Hc, Hs.
Qed.

Lemma all_chars_rstrip p sp s :
  Str.all_chars p s = true -> Str.all_chars p (Str.rstrip_with sp s) = true.
Proof.
  induction s as [|c s IH]; simpl; [done|].
  intros [Hc Hs]%andb_true_iff. specialize (IH Hs).
  destruct (Str.rstrip_with sp s) as [|c' r].
  - destruct (sp c); simpl; [done|]. by rewrite Hc.
  - change (p c && Str.all_chars p (String c' r) = true). by rewrite Hc, IH.
Qed.

Lemma lstrip_all sp s :
  Str.all_chars sp (Str.lstrip_with sp s) = Str.all_chars sp s.
Proof.
  induction s as [|c s IH]; simpl; [done|].
  destruct (sp c) eqn:Hc; simpl; [done|]. by rewrite Hc.
Qed.

Lemma rstrip_empty sp s :
  Str.rstrip_with sp s = "" -> Str.all_chars sp s = true.
Proof.
  induction s as [|c s IH]; simpl; [done|].
  destruct (Str.rstrip_with sp s) as [|c' r]; [|done].
  destruct (sp c); [|done]. intros _. by rewrite IH.
Qed.

Lemma strip_empty sp s :
  Str.strip_with sp s = "" -> Str.all_chars sp s = true.
Proof.
  unfold Str.strip_with. intros He%rstrip_empty. by rewrite lstrip_all in He.
Qed.

Lemma cut_last_tail p sep s a b :
  Str.cut_last sep s = Some (a, b) ->
  Str.all_chars p s = true -> Str.all_chars p b = true.
Proof.
  revert a. induction s as [|c s IH]; simpl; [done|].
  intros a Hcut [Hc Hs]%andb_true_iff.
  destruct (Str.cut_last sep s) as [[a' b']|].
  - injection Hcut as <- <-. by apply (IH a').
  - destruct (Ascii.eqb c sep); [|done]. by injection Hcut as <- <-.
Qed.

Lemma rpartition_tail p sep s :
  Str.all_chars p s = true ->
  Str.all_chars p (Str.rpartition sep s).2 = true.
Proof.
  unfold Str.rpartition. intros Hs.
  destruct (Str.cut_last sep s) as [[a b]|] eqn:Hcut; simpl; [|done].
  by apply (cut_last_tail p sep s a b).
Qed.

Lemma isspace_not_digit c :
  Str.isspace c = true -> Str.digit_value c = None.
Proof.
  unfold Str.isspace, Str.digit_value. set (n := Str.code c). intros Hsp.
  destruct ((48 <=? n)%N && (n <=? 57)%N) eqn:Hd; [|done].
  exfalso.
  repeat match goal with
         | H : _ && _ = true |- _ => apply andb_true_iff in H as [? ?]
         | H : _ || _ = true |- _ => apply orb_true_iff in H as [?|?]
         | H : (_ <=? _)%N = true |- _ => apply N.leb_le in H
         | H : (_ =? _)%N = true |- _ => apply N.eqb_eq in H
         end; lia.
Qed.

Lemma isspace_not_mark c (m : ascii) :
  Str.isspace m = false -> Str.isspace c = true -> Ascii.eqb c m = false.
Proof.
  intros Hm Hc. destruct (Ascii.eqb_spec c m) as [->|]; [congruence|done].
Qed.

(** A text of blanks only is no integer. *)
Lemma int_blank s :
  Str.all_chars Str.isspace s = true -> Str.int s = Raise ValueError.
Proof.
  intros Hs. unfold Str.int, Str.strip_with.
  pose proof (all_chars_rstrip Str.isspace Str.int_space _
                (all_chars_lstrip Str.isspace Str.int_space _ Hs)) as Ht.
  destruct (Str.rstrip_with _ _) as [|c d]; [done|].
  simpl in Ht. apply andb_true_iff in Ht as [Hc _].
  rewrite (isspace_not_mark c "+"), (isspace_not_mark c "-") by done.
  simpl. rewrite (isspace_not_digit c Hc).
  by rewrite andb_false_r.
Qed.

(** ** The single-process parser *)

Lemma parse_one_line_spec root stacks line :
  parse_one_line root stacks line
  = match spec_entry root line with
    | Some (s, n) => Counter.add stacks s n
    | None => stacks
    end.
Proof.
  unfold parse_one_line, spec_entry.
  destruct (decide (Str.strip line = "")) as [Hblank|Hfull].
  - destruct (decide (line = "")) as [|_]; [done|].
    destruct (Str.startswith "#" line); [done|].
    apply strip_empty in Hblank.
    pose proof (rpartition_tail Str.isspace " " line Hblank) as Htail.
    destruct (Str.rpartition " " line) as [stack count]. simpl in Htail.
    by rewrite (int_blank count Htail).
  - destruct (decide (line = "")) as [->|_]; [done|].
    destruct (Str.startswith "#" line); [done|].
    destruct (Str.rpartition " " line) as [stack count].
    destruct root; destruct (Str.int count); done.
Qed.

Lemma spec_count_app entries1 entries2 signature :
  spec_count (entries1 ++ entries2) signature
  = spec_count entries1 signature + spec_count entries2 signature.
Proof.
  induction entries1 as [|[s n] entries1 IH]; simpl; [done|].
  rewrite IH. lia.
Qed.

(** The loop accumulates: what the lines add for a signature is the sum of
    the counts of their entries with that signature. *)
Lemma parse_lines_count root lines stacks signature :
  Counter.get (fold_left (parse_one_line root) lines stacks) signature
  = Counter.get stacks signature
    + spec_count (spec_entries root lines) signature.
Proof.
  revert stacks. induction lines as [|line lines IH]; intros stacks; simpl.
  - lia.
  - rewrite IH, parse_one_line_spec.
    destruct (spec_entry root line) as [[s n]|]; simpl; [|done].
    rewrite counter_get_add.
    destruct (decide (s = signature)) as [->|]; lia.
Qed.

Lemma parse_lines_keys root lines stacks signature :
  signature ∈ Dict.keys (fold_left (parse_one_line root) lines stacks)
  <-> signature ∈ Dict.keys stacks
      \/ signature ∈ (spec_entries root lines).*1.
Proof.
  revert stacks. induction lines as [|line lines IH]; intros stacks; simpl.
  - rewrite elem_of_nil. tauto.
  - rewrite IH, parse_one_line_spec.
    destruct (spec_entry root line) as [[s n]|]; simpl; [|done].
    unfold Counter.add. rewrite dict_keys_set, elem_of_cons. tauto.
Qed.

(** C5. [parse_one_collapsed] leaves out empty lines and lines that start
    with a hash sign, splits every other line at its last space into a stack
    signature and a count, reads the count as an integer, puts the root
    frame and a semicolon before the signature when a root is given, and sums
    the counts of a signature that recurs; a line whose count is no integer
    is left out and the lines after it are still read. So for every
    signature the count in the result is the sum of the counts of the text's
    entries with that signature, and the signatures of the result are those
    of the entries. *)
Theorem parse_one_collapsed_contract (text : string) (root : option string)
  (signature : string) :
  Counter.get (parse_one_collapsed text root) signature
  = spec_count (spec_entries root (Str.splitlines text)) signature
  /\ (signature ∈ Dict.keys (parse_one_collapsed text root)
      <-> signature ∈ (spec_entries root (Str.splitlines text)).*1).
Proof.
  unfold parse_one_collapsed. split.
  - by rewrite parse_lines_count.
  - rewrite parse_lines_keys. unfold Dict.keys. simpl.
    rewrite elem_of_nil. tauto.
Qed.

(** ** Parsing a concatenation *)

Lemma lines_count_cons root signature line lines :
  lines_count root signature (line :: lines)
  = lines_count root signature [line] + lines_count root signature lines.
Proof.
  unfold lines_count. simpl.
  destruct (spec_entry root line) as [[s n]|]; cbn [spec_count]; lia.
Qed.

Lemma lines_count_empty_line root signature :
  lines_count root signature [""] = 0.
Proof. done. Qed.

(** A line feed right after a carriage return opens no line of its own; read
    with or without the carriage return before it, a text adds the same
    counts. *)
Lemma splitlines_after_cr_count root signature s :
  lines_count root signature (Str.splitlines_from true [] s)
  = lines_count root signature (Str.splitlines_from false [] s).
Proof.
  destruct s as [|c s]; simpl; [done|].
  destruct (Ascii.eqb_spec c Str.LF) as [->|Hne]; [|done].
  simpl. by rewrite lines_count_cons, lines_count_empty_line.
Qed.

Lemma splitlines_from_cons after_cr cur c rest :
  Str.splitlines_from after_cr cur (String c rest)
  = if after_cr && Ascii.eqb c Str.LF
    then Str.splitlines_from false cur rest
    else if Str.is_linebreak c
         then string_of_list_ascii (rev cur)
                :: Str.splitlines_from (Ascii.eqb c Str.CR) [] rest
         else Str.splitlines_from false (c :: cur) rest.
Proof. done. Qed.

Lemma splitlines_closed_app_count root signature s1 :
  s1 <> "" -> closed_text s1 = true ->
  forall after_cr cur s2,
    (after_cr = true -> cur = []) ->
    lines_count root signature (Str.splitlines_from after_cr cur (s1 +:+ s2))
    = lines_count root signature (Str.splitlines_from after_cr cur s1)
      + lines_count root signature (Str.splitlines s2).
Proof.
  induction s1 as [|c s1 IH]; [done|]. intros _ Hclosed after_cr cur s2 Hinv.
  destruct s1 as [|c' s1].
  - (* the last character of the first text: a line boundary *)
    simpl in Hclosed. simpl.
    destruct (after_cr && Ascii.eqb c Str.LF) eqn:Hlf.
    + apply andb_true_iff in Hlf as [-> _]. rewrite (Hinv eq_refl). done.
    + rewrite Hclosed. rewrite (lines_count_cons _ _ _ (Str.splitlines_from _ _ s2)).
      rewrite (lines_count_cons _ _ _ []).
      destruct (Ascii.eqb c Str.CR).
      * rewrite splitlines_after_cr_count. unfold Str.splitlines.
        change (lines_count root signature []) with 0. lia.
      * unfold Str.splitlines.
        change (lines_count root signature []) with 0. lia.
  - assert (Hrest : closed_text (String c' s1) = true) by exact Hclosed.
    assert (Hne : String c' s1 <> "") by done.
    specialize (IH Hne Hrest).
    change (String c (String c' s1) +:+ s2)
      with (String c (String c' s1 +:+ s2)).
    rewrite (splitlines_from_cons after_cr cur c (String c' s1 +:+ s2)).
    rewrite (splitlines_from_cons after_cr cur c (String c' s1)).
    destruct (after_cr && Ascii.eqb c Str.LF).
    + by apply IH.
    + destruct (Str.is_linebreak c).
      * rewrite (lines_count_cons _ _ _ (Str.splitlines_from _ _ (_ +:+ _))).
        rewrite (lines_count_cons _ _ _ (Str.splitlines_from _ _ (String c' s1))).
        rewrite IH by done. lia.
      * by apply IH.
Qed.

(** C6, as amended. When the first text is empty or ends with a line
    boundary, parsing the concatenation of two texts gives, for every stack
    signature, the sum of the counts that parsing each text alone gives. *)
Theorem parse_one_collapsed_concat (text1 text2 : string)
  (root : option string) (signature : string) :
  closed_text text1 = true ->
  Counter.get (parse_one_collapsed (text1 +:+ text2) root) signature
  = Counter.get (parse_one_collapsed text1 root) signature
    + Counter.get (parse_one_collapsed text2 root) signature.
Proof.
  intros Hclosed. unfold parse_one_collapsed.
  rewrite !parse_lines_count.
  change (Counter.get [] signature) with 0.
  fold (lines_count root signature (Str.splitlines (text1 +:+ text2))).
  fold (lines_count root signature (Str.splitlines text1)).
  fold (lines_count root signature (Str.splitlines text2)).
  destruct text1 as [|c text1].
  { change (lines_count root signature (Str.splitlines "")) with 0.
    change ("" +:+ text2) with text2. lia. }
  unfold Str.splitlines at 1 2.
  rewrite (splitlines_closed_app_count root signature (String c text1)) by done.
  lia.
Qed.

Lemma parse_one_collapsed_concat_witness :
  closed_text ("a 1" +:+ newline) = true
  /\ Counter.get
       (parse_one_collapsed (("a 1" +:+ newline) +:+ "a 2") None) "a"
     = Counter.get (parse_one_collapsed ("a 1" +:+ newline) None) "a"
       + Counter.get (parse_one_collapsed "a 2" None) "a".
Proof.
  split; [reflexivity|].
  apply (parse_one_collapsed_concat ("a 1" +:+ newline) "a 2" None "a").
  reflexivity.
Defined.

(** C6, as stated, fails: the last line of a first text that does not end
    with a line boundary runs into the first line of the second. The texts
    [a 1] and [b 2] concatenate to the one line [a 1b 2], whose signature is
    [a 1b]: the signature [a] counts 0 there, and 1 in the first text. *)
Lemma parse_one_collapsed_concat_counterexample :
  parse_one_collapsed ("a 1" +:+ "b 2") None = [("a 1b", 2)]
  /\ parse_one_collapsed "a 1" None = [("a", 1)]
  /\ parse_one_collapsed "b 2" None = [("b", 2)]
  /\ Counter.get (parse_one_collapsed ("a 1" +:+ "b 2") None) "a"
     <> Counter.get (parse_one_collapsed "a 1" None) "a"
        + Counter.get (parse_one_collapsed "b 2" None) "a".
Proof. repeat split; vm_compute; congruence. Qed.

(** ** The multi-process parser *)

Lemma unpack2_raises parts e : Str.unpack2 parts = Raise e -> e = ValueError.
Proof.
  destruct parts as [|a [|b [|c parts]]]; simpl; congruence.
Qed.

Lemma int_raises s e : Str.int s = Raise e -> e = ValueError.
Proof.
  unfold Str.int. destruct (Str.strip_with _ _) as [|c d].
  - congruence.
  - repeat match goal with
           | |- context [match ?x with _ => _ end] => destruct x
           end; congruence.
Qed.

(** The only exception a line raises is the one the handler catches. *)
Lemma parse_many_try_raises results line e results' :
  parse_many_try results line = (Raise e, results') -> e = ValueError.
Proof.
  unfold parse_many_try.
  destruct (Str.unpack2 (Str.rsplit1 " " line)) as [[stack count]|e1] eqn:H1;
    [|intros [= <- _]; by eapply unpack2_raises].
  destruct (Str.unpack2 (Str.split1 ";" stack)) as [[ident stack']|e2] eqn:H2;
    [|intros [= <- _]; by eapply unpack2_raises].
  destruct (Str.unpack2 (Str.rsplit1 "-" ident)) as [[comm pid_tid]|e3] eqn:H3;
    [|intros [= <- _]; by eapply unpack2_raises].
  destruct (Str.int (Str.split_head "/" pid_tid)) as [pid|e4] eqn:H4;
    [|intros [= <- _]; by eapply int_raises].
  destruct (results_getitem results pid) as [counter results1].
  destruct (Str.int count) as [n|e5] eqn:H5; [done|].
  intros [= <- _]. by eapply int_raises.
Qed.

Lemma parse_many_line_ok st line :
  exists st', parse_many_line st line = Ok st'.
Proof.
  destruct st as [results bad_lines]. unfold parse_many_line.
  destruct (parse_many_try results line) as [[[]|e] results'] eqn:Htry.
  - eauto.
  - apply parse_many_try_raises in Htry as ->. eauto.
Qed.

Lemma parse_many_loop_ok lines st :
  exists st', parse_many_loop lines st = Ok st'.
Proof.
  revert st. induction lines as [|line lines IH]; intros st; simpl; [eauto|].
  destruct (parse_many_line_ok st line) as [st' ->]. simpl. apply IH.
Qed.

(** C9. A malformed line never stops [parse_many_collapsed], and yet the
    error path changes the result: the line [comm-12/34;a;b xyz] has an
    identity portion that reads as pid 12 and a count token that is no
    integer; it is recorded as a bad line, and the returned mapping holds
    an entry for pid 12 whose sample-count mapping is empty. *)
Theorem parse_many_bad_count_leaves_empty_entry :
  (forall text : string,
     exists results bad_lines,
       parse_many_collapsed_log text = Ok (results, bad_lines)
       /\ parse_many_collapsed text = Ok results)
  /\ exists (comm pid_tid stack count : string) (pid : Z),
       let line := comm +:+ "-" +:+ pid_tid +:+ ";" +:+ stack +:+ " " +:+ count in
       Str.int (Str.split_head "/" pid_tid) = Ok pid
       /\ Str.int count = Raise ValueError
       /\ parse_many_collapsed_log line = Ok ([(pid, [])], [line])
       /\ parse_many_collapsed line = Ok [(pid, [])].
Proof.
  split.
  - intros text. unfold parse_many_collapsed, parse_many_collapsed_log.
    destruct (parse_many_loop_ok (Str.splitlines text) ([], []))
      as [[results bad_lines] Hloop].
    exists results, bad_lines. by rewrite Hloop.
  - exists "comm", "12/34", "a;b", "xyz", 12. by vm_compute.
Qed.

(** ** Scaling by zero *)

Lemma scale_one_zero count s g v g' :
  scale_one count (S754_zero s) g = Ok (v, g') -> v = 0.
Proof.
  unfold scale_one, Float.int_mul.
  destruct (Float.of_int count) as [c|]; [|done].
  cbn [bind]. destruct (random g) as [u g1].
  destruct c as [sc|sc| |sc m e]; cbn [Float.mul SFmul];
    destruct (Float.le _ _); cbn; intros Heq; try discriminate;
    injection Heq as <- _; reflexivity.
Qed.

Lemma scale_loop_zero items s acc g r g' :
  scale_loop items (S754_zero s) acc g = Ok (r, g') -> r = acc.
Proof.
  revert acc g. induction items as [|[stack count] items IH]; intros acc g.
  - simpl. congruence.
  - simpl. destruct (scale_one count (S754_zero s) g) as [[v g1]|] eqn:Hone;
      [|done].
    apply scale_one_zero in Hone as ->. simpl. apply IH.
Qed.

(** Scaling by a ratio of zero leaves no entry. *)
Lemma scale_sample_counts_zero stacks s g r g' :
  scale_sample_counts stacks (S754_zero s) g = Ok (r, g') -> r = [].
Proof.
  unfold scale_sample_counts. cbn. apply scale_loop_zero.
Qed.

Lemma int_true_div_zero b :
  b <> 0 -> Float.int_true_div 0 b = Ok (S754_zero (b <? 0)).
Proof. by destruct b. Qed.

(** ** The application-metadata table *)

Section IndexFacts.
Context {A : Type} `{EqDecision A}.
Implicit Types (l k : list A) (x : A).

Lemma index_elem l x :
  x ∈ l -> exists i, index l x = Ok i /\ l !! i = Some x.
Proof.
  induction l as [|y l IH]; [by intros ?%elem_of_nil|].
  intros Hin. simpl. destruct (decide (y = x)) as [->|Hne].
  - by exists 0%nat.
  - apply elem_of_cons in Hin as [?|Hin]; [congruence|].
    destruct (IH Hin) as (i & -> & Hi). by exists (S i).
Qed.

Lemma index_app_l l k x : x ∈ l -> index (l ++ k) x = index l x.
Proof.
  induction l as [|y l IH]; [by intros ?%elem_of_nil|].
  intros Hin. simpl. destruct (decide (y = x)) as [->|Hne]; [done|].
  apply elem_of_cons in Hin as [?|Hin]; [congruence|]. by rewrite IH.
Qed.

Lemma index_inj l x y i :
  index l x = Ok i -> index l y = Ok i -> x = y.
Proof.
  revert i. induction l as [|z l IH]; intros i; simpl; [done|].
  destruct (decide (z = x)) as [Hx|Hx], (decide (z = y)) as [Hy|Hy].
  - congruence.
  - intros [= <-]. by destruct (index l y).
  - destruct (index l x); [|done]. simpl. by intros [= <-].
  - destruct (index l x) as [ix|] eqn:Hix; [|done].
    destruct (index l y) as [iy|] eqn:Hiy; [|done].
    simpl. intros [= <-] [= ->]. by eapply IH.
Qed.

End IndexFacts.

Lemma semicolon_suffix_nonempty (s : string) : s +:+ ";" <> "".
Proof. by destruct s. Qed.

Section MergeFacts.
Context {AppMetadata : Type} `{EqDecision AppMetadata}.
Context {MetaValue Metrics Client : Type}.
Context `{client_ops : ContainerNamesClient Client}.
Context `{error_stack : ProfilingErrorStack}.
Variable json_dumps : ProfileMetadata AppMetadata MetaValue Metrics -> string.

Implicit Types (table : list (option AppMetadata)).
Implicit Types (doc : option AppMetadata).
Implicit Types (st : ConcatState AppMetadata Client).
Implicit Types (items : list (Z * ProfileData AppMetadata)).

Lemma elem_of_table_with table doc : doc ∈ table_with table doc.
Proof.
  unfold table_with. destruct (decide (doc ∈ table)); [done|].
  apply elem_of_app. right. by apply list_elem_of_singleton.
Qed.

Lemma register_app_metadata_ok table doc :
  exists idx,
    register_app_metadata table doc = Ok (idx, table_with table doc)
    /\ index (table_with table doc) doc = Ok idx
    /\ table_with table doc !! idx = Some doc.
Proof.
  unfold register_app_metadata. fold (table_with table doc).
  destruct (index_elem _ _ (elem_of_table_with table doc)) as (idx & Hidx & Hl).
  exists idx. by rewrite Hidx.
Qed.

Lemma table_ok_init : table_ok (AppMetadata := AppMetadata) [None].
Proof. split; [done|]. apply NoDup_singleton. Qed.

Lemma table_ok_with table doc : table_ok table -> table_ok (table_with table doc).
Proof.
  intros [Hhead Hnd]. unfold table_with.
  destruct (decide (doc ∈ table)) as [Hin|Hnotin]; [done|]. split.
  - by apply lookup_app_l_Some.
  - apply NoDup_app. split_and!; [done| |apply NoDup_singleton].
    intros x Hx ->%list_elem_of_singleton. done.
Qed.

Lemma enrich_pid_stacks_ok pid (profile : ProfileData AppMetadata)
  enrichment_options (client : option Client) table :
  exists idx enrich_data client',
    _enrich_pid_stacks pid profile enrichment_options client table
    = Ok (enrich_data, table_with table (app_metadata profile), client')
    /\ index (table_with table (app_metadata profile)) (app_metadata profile)
       = Ok idx
    /\ table_with table (app_metadata profile) !! idx
       = Some (app_metadata profile)
    /\ application_prefix enrich_data
       = if not_v1 enrichment_options
            && application_metadata_option enrichment_options
         then Str.of_int (Z.of_nat idx) +:+ ";"
         else "".
Proof.
  unfold _enrich_pid_stacks.
  destruct (register_app_metadata_ok table (app_metadata profile))
    as (idx & -> & Hidx & Hl).
  exists idx. simpl.
  destruct (not_v1 enrichment_options); simpl.
  - destruct (_get_container_name _ _ _) as [name c']. eauto 10.
  - eauto 10.
Qed.

(** C8. For every process the enrichment resolver leaves the metadata table
    with the process's document in it, appended when it was not there,
    whatever the protocol version and the feature flags; the metadata-index
    prefix is the index of the document followed by a semicolon, a non-empty
    string, exactly when the protocol version is not v1 and the
    application-metadata feature is enabled, and the empty string
    otherwise. *)
Theorem enrich_pid_stacks_metadata_prefix (pid : Z)
  (profile : ProfileData AppMetadata) (enrichment_options : EnrichmentOptions)
  (client : option Client) (table : list (option AppMetadata)) :
  exists (idx : nat) (enrich_data : PidStackEnrichment) (client' : option Client),
    _enrich_pid_stacks pid profile enrichment_options client table
    = Ok (enrich_data,
          if decide (app_metadata profile ∈ table) then table
          else table ++ [app_metadata profile],
          client')
    /\ (if decide (app_metadata profile ∈ table) then table
        else table ++ [app_metadata profile]) !! idx
       = Some (app_metadata profile)
    /\ application_prefix enrich_data
       = (if negb (bool_decide (profile_api_version enrichment_options
                                = Some "v1"))
             && application_metadata_option enrichment_options
          then Str.of_int (Z.of_nat idx) +:+ ";"
          else "")
    /\ Str.of_int (Z.of_nat idx) +:+ ";" <> "".
Proof.
  destruct (enrich_pid_stacks_ok pid profile enrichment_options client table)
    as (idx & enrich_data & client' & Hrun & _ & Hlookup & Hprefix).
  exists idx, enrich_data, client'. split_and!; try done.
  apply semicolon_suffix_nonempty.
Qed.

(** ** The loop of [concatenate_profiles] *)

Lemma table_with_extends table doc :
  exists ext, table_with table doc = table ++ ext.
Proof.
  unfold table_with. destruct (decide (doc ∈ table)).
  - exists []. by rewrite app_nil_r.
  - by exists [doc].
Qed.

Lemma concatenate_step_ok enrichment_options st item :
  exists st',
    concatenate_step enrichment_options st item = Ok st'
    /\ cs_application_metadata st'
       = table_with (cs_application_metadata st) (app_metadata item.2).
Proof.
  destruct item as [pid profile]. unfold concatenate_step.
  destruct (enrich_pid_stacks_ok pid profile enrichment_options (cs_client st)
              (cs_application_metadata st))
    as (idx & enrich_data & client' & -> & _).
  simpl. eauto.
Qed.

Lemma concatenate_loop_ok enrichment_options items st :
  exists st',
    concatenate_loop enrichment_options items st = Ok st'
    /\ (table_ok (cs_application_metadata st) ->
        table_ok (cs_application_metadata st'))
    /\ exists ext,
         cs_application_metadata st' = cs_application_metadata st ++ ext.
Proof.
  revert st. induction items as [|item items IH]; intros st; simpl.
  - exists st. split_and!; [done..|]. exists []. by rewrite app_nil_r.
  - destruct (concatenate_step_ok enrichment_options st item)
      as (st1 & -> & Htable).
    simpl. destruct (IH st1) as (st' & Hloop & Hok & ext & Hext).
    exists st'. split_and!; [done| |].
    + intros Hst. apply Hok. rewrite Htable. by apply table_ok_with.
    + destruct (table_with_extends (cs_application_metadata st)
                  (app_metadata item.2)) as [ext1 Hext1].
      exists (ext1 ++ ext). by rewrite Hext, Htable, Hext1, app_assoc.
Qed.

(** The state a run is in after a prefix of the processes is the result of
    the loop on that prefix. *)
Lemma concatenate_loop_app enrichment_options items1 items2 st :
  concatenate_loop enrichment_options (items1 ++ items2) st
  = let* st' := concatenate_loop enrichment_options items1 st in
    concatenate_loop enrichment_options items2 st'.
Proof.
  revert st. induction items1 as [|item items1 IH]; intros st; simpl; [done|].
  destruct (concatenate_step enrichment_options st item); simpl; [|done].
  apply IH.
Qed.

(** C7. At every point of a run of [concatenate_profiles], that is after
    every prefix of the processes, the application-metadata table has the
    sentinel at index 0 and holds no value twice; the table only grows at its
    end; and of two processes of the run, the later one resolves to the same
    index as the earlier one exactly when the two metadata documents are
    equal by value. *)
Theorem metadata_table_invariant (enrichment_options : EnrichmentOptions)
  (client : option Client) :
  (forall done_items todo_items : list (Z * ProfileData AppMetadata),
     exists st st' : ConcatState AppMetadata Client,
       concatenate_loop enrichment_options done_items (concat_init client)
       = Ok st
       /\ concatenate_loop enrichment_options (done_items ++ todo_items)
            (concat_init client)
          = concatenate_loop enrichment_options todo_items st
       /\ concatenate_loop enrichment_options todo_items st = Ok st'
       /\ cs_application_metadata st !! 0%nat = Some None
       /\ NoDup (cs_application_metadata st)
       /\ exists ext,
            cs_application_metadata st' = cs_application_metadata st ++ ext)
  /\ (forall (before : list (Z * ProfileData AppMetadata)) (pid1 : Z)
        (profile1 : ProfileData AppMetadata)
        (between : list (Z * ProfileData AppMetadata)) (pid2 : Z)
        (profile2 : ProfileData AppMetadata),
        exists (st1 st2 : ConcatState AppMetadata Client)
          (enrich1 enrich2 : PidStackEnrichment)
          (table1 table2 : list (option AppMetadata))
          (client1 client2 : option Client) (idx1 idx2 : nat),
          concatenate_loop enrichment_options before (concat_init client)
          = Ok st1
          /\ concatenate_loop enrichment_options
               (before ++ (pid1, profile1) :: between) (concat_init client)
             = Ok st2
          /\ _enrich_pid_stacks pid1 profile1 enrichment_options
               (cs_client st1) (cs_application_metadata st1)
             = Ok (enrich1, table1, client1)
          /\ _enrich_pid_stacks pid2 profile2 enrichment_options
               (cs_client st2) (cs_application_metadata st2)
             = Ok (enrich2, table2, client2)
          /\ index table1 (app_metadata profile1) = Ok idx1
          /\ index table2 (app_metadata profile2) = Ok idx2
          /\ (app_metadata profile1 = app_metadata profile2 <-> idx1 = idx2)
          /\ (app_metadata profile1 = app_metadata profile2 ->
              application_prefix enrich1 = application_prefix enrich2)).
Proof.
  split.
  - intros done_items todo_items.
    destruct (concatenate_loop_ok enrichment_options done_items
                (concat_init client)) as (st & Hst & Hok & _).
    destruct (concatenate_loop_ok enrichment_options todo_items st)
      as (st' & Hst' & _ & Hext).
    destruct (Hok table_ok_init) as [Hhead Hnd].
    exists st, st'. rewrite concatenate_loop_app, Hst. by split_and!.
  - intros before pid1 profile1 between pid2 profile2.
    set (doc1 := app_metadata profile1). set (doc2 := app_metadata profile2).
    destruct (concatenate_loop_ok enrichment_options before
                (concat_init client)) as (st1 & Hst1 & _ & _).
    destruct (enrich_pid_stacks_ok pid1 profile1 enrichment_options
                (cs_client st1) (cs_application_metadata st1))
      as (idx1 & enrich1 & client1 & Hrun1 & Hidx1 & Hl1 & Hp1).
    destruct (concatenate_step_ok enrichment_options st1 (pid1, profile1))
      as (st1' & Hstep & Htable1).
    destruct (concatenate_loop_ok enrichment_options between st1')
      as (st2 & Hst2 & _ & ext & Hext).
    destruct (enrich_pid_stacks_ok pid2 profile2 enrichment_options
                (cs_client st2) (cs_application_metadata st2))
      as (idx2 & enrich2 & client2 & Hrun2 & Hidx2 & Hl2 & Hp2).
    fold doc1 in Hidx1, Hl1. fold doc2 in Hidx2, Hl2. simpl in Htable1.
    fold doc1 in Htable1.
    (* the table at the second process extends the table after the first *)
    destruct (table_with_extends (cs_application_metadata st2) doc2)
      as [ext2 Hext2].
    assert (Hstable :
      index (table_with (cs_application_metadata st2) doc2) doc1 = Ok idx1).
    { rewrite Hext2, Hext, Htable1, <- app_assoc.
      rewrite index_app_l by apply elem_of_table_with. done. }
    exists st1, st2, enrich1, enrich2,
      (table_with (cs_application_metadata st1) doc1),
      (table_with (cs_application_metadata st2) doc2),
      client1, client2, idx1, idx2.
    split_and!; try done.
    + rewrite concatenate_loop_app, Hst1. cbn [bind concatenate_loop].
      by rewrite Hstep.
    + split.
      * intros Heq. rewrite Heq in Hstable. congruence.
      * intros <-. by eapply index_inj.
    + intros Heq. rewrite Heq in Hstable.
      assert (idx1 = idx2) as -> by congruence. by rewrite Hp1, Hp2.
Qed.

(** ** The header line *)

Lemma make_profile_metadata_cases (client : option Client) add_container_names
  (metadata : Metadata MetaValue) (metrics : Metrics) table enabled :
  match Dict.get metadata "profiling_mode" with
  | Some mode =>
      exists document client',
        _make_profile_metadata json_dumps client add_container_names metadata
          metrics table enabled
        = Ok ("# " +:+ json_dumps document, client')
        /\ pm_profiling_mode document = mode
        /\ pm_metadata document = metadata
        /\ pm_metrics document = metrics
        /\ pm_application_metadata document = table
  | None =>
      _make_profile_metadata json_dumps client add_container_names metadata
        metrics table enabled
      = Raise KeyError
  end.
Proof.
  unfold _make_profile_metadata.
  destruct (Dict.get metadata "profiling_mode") as [mode|].
  - destruct client as [c|]; [destruct add_container_names|]; eauto 10.
  - by destruct client as [c|]; [destruct add_container_names|].
Qed.

Lemma concatenate_profiles_cases
  (process_profiles : ProcessToProfileData AppMetadata)
  (client : option Client) enrichment_options
  (metadata : Metadata MetaValue) (metrics : Metrics) :
  match Dict.get metadata "profiling_mode" with
  | Some mode =>
      exists document lines client',
        concatenate_profiles json_dumps process_profiles client
          enrichment_options metadata metrics
        = Ok (join newline (("# " +:+ json_dumps document) :: lines), client')
        /\ pm_profiling_mode document = mode
        /\ pm_metadata document = metadata
        /\ pm_metrics document = metrics
  | None =>
      concatenate_profiles json_dumps process_profiles client
        enrichment_options metadata metrics
      = Raise KeyError
  end.
Proof.
  unfold concatenate_profiles, concatenate_profiles_lines.
  destruct (concatenate_loop_ok enrichment_options process_profiles
              (concat_init client)) as (st & -> & _).
  cbn [bind].
  pose proof (make_profile_metadata_cases (cs_client st)
                (container_names_option enrichment_options) metadata metrics
                (cs_application_metadata st)
                (application_metadata_option enrichment_options)) as Hheader.
  destruct (Dict.get metadata "profiling_mode") as [mode|].
  - destruct Hheader as (document & client' & -> & Hmode & Hmeta & Hmetrics & _).
    exists document, (map snd (cs_lines st)), client'. by split_and!.
  - by rewrite Hheader.
Qed.

Lemma merge_profiles_unfold
  (perf_pid_to_profiles process_profiles : ProcessToProfileData AppMetadata)
  (client : option Client) enrichment_options
  (metadata : Metadata MetaValue) (metrics : Metrics) (g : Random) :
  merge_profiles json_dumps perf_pid_to_profiles process_profiles client
    enrichment_options metadata metrics g
  = let* (merged, g') := merge_loop process_profiles (perf_pid_to_profiles, g) in
    let* (text, client') :=
      concatenate_profiles json_dumps merged client enrichment_options metadata
        metrics in
    Ok (text, client', g').
Proof.
  unfold merge_profiles, merge_profiles_lines, concatenate_profiles.
  destruct (merge_loop _ _) as [[merged g']|e]; [|done]. cbn [bind].
  destruct (concatenate_profiles_lines _ _ _ _ _ _)
    as [[[header lines] client']|e]; done.
Qed.

(** C10. [concatenate_profiles] needs the key [profiling_mode] in the run
    metadata document: when the key is present the header line, a hash sign
    and a blank before the serialised document, is the first line of the
    result; when it is absent the call raises [KeyError]. [merge_profiles]
    ends with that call: it raises what its own loop raised, and after a
    loop that went through it returns or raises as [concatenate_profiles]
    does. *)
Theorem profiling_mode_precondition
  (process_profiles : ProcessToProfileData AppMetadata)
  (client : option Client) (enrichment_options : EnrichmentOptions)
  (metadata : Metadata MetaValue) (metrics : Metrics) :
  match Dict.get metadata "profiling_mode" with
  | Some mode =>
      exists document lines client',
        concatenate_profiles json_dumps process_profiles client
          enrichment_options metadata metrics
        = Ok (join newline (("# " +:+ json_dumps document) :: lines), client')
        /\ pm_profiling_mode document = mode
        /\ pm_metadata document = metadata
        /\ pm_metrics document = metrics
  | None =>
      concatenate_profiles json_dumps process_profiles client
        enrichment_options metadata metrics
      = Raise KeyError
  end
  /\ forall (perf_pid_to_profiles : ProcessToProfileData AppMetadata)
       (g : Random),
       match merge_loop process_profiles (perf_pid_to_profiles, g) with
       | Raise e =>
           merge_profiles json_dumps perf_pid_to_profiles process_profiles
             client enrichment_options metadata metrics g
           = Raise e
       | Ok (merged, g') =>
           match Dict.get metadata "profiling_mode" with
           | Some mode =>
               exists document lines client',
                 merge_profiles json_dumps perf_pid_to_profiles
                   process_profiles client enrichment_options metadata
                   metrics g
                 = Ok (join newline (("# " +:+ json_dumps document) :: lines),
                       client', g')
                 /\ pm_profiling_mode document = mode
           | None =>
               merge_profiles json_dumps perf_pid_to_profiles
                 process_profiles client enrichment_options metadata metrics g
               = Raise KeyError
           end
       end.
Proof.
  split; [apply concatenate_profiles_cases|].
  intros perf_pid_to_profiles g. rewrite merge_profiles_unfold.
  destruct (merge_loop _ _) as [[merged g']|e]; [|done]. cbn [bind].
  pose proof (concatenate_profiles_cases merged client enrichment_options
                metadata metrics) as Hconcat.
  destruct (Dict.get metadata "profiling_mode") as [mode|].
  - destruct Hconcat as (document & lines & client' & -> & Hmode & _).
    exists document, lines, client'. by split.
  - by rewrite Hconcat.
Qed.

(** ** The loop of [merge_profiles] *)

Implicit Types (perf : ProcessToProfileData AppMetadata).

Lemma merge_loop_app items1 items2 (mst : ProcessToProfileData AppMetadata * Random) :
  merge_loop (items1 ++ items2) mst
  = let* mst' := merge_loop items1 mst in merge_loop items2 mst'.
Proof.
  revert mst. induction items1 as [|item items1 IH]; intros mst; simpl; [done|].
  destruct (merge_step mst item); simpl; [|done]. apply IH.
Qed.

(** A turn of the loop changes the entry of its own pid only. *)
Lemma merge_step_other perf g pid profile perf' g' q :
  merge_step (perf, g) (pid, profile) = Ok (perf', g') ->
  q <> pid -> Dict.get perf' q = Dict.get perf q.
Proof.
  unfold merge_step. intros Hstep Hne.
  destruct (stacks profile) as [|entry entries]; [congruence|].
  destruct (negb _); [done|].
  match type of Hstep with
  | bind ?r _ = _ => destruct r as [[stacks' g1]|]; [|done]
  end.
  cbn in Hstep. injection Hstep as <- <-.
  by rewrite dict_get_set_ne.
Qed.

Lemma merge_loop_other items perf g perf' g' q :
  merge_loop items (perf, g) = Ok (perf', g') ->
  q ∉ Dict.keys items -> Dict.get perf' q = Dict.get perf q.
Proof.
  revert perf g. induction items as [|[pid profile] items IH]; intros perf g.
  - simpl. congruence.
  - cbn [merge_loop]. unfold Dict.keys. cbn [map fst].
    intros Hloop [Hne Hnotin]%not_elem_of_cons.
    destruct (merge_step (perf, g) (pid, profile)) as [[perf1 g1]|] eqn:Hstep;
      [|done].
    cbn [bind] in Hloop. rewrite (IH _ _ Hloop Hnotin).
    by eapply merge_step_other.
Qed.

Lemma dict_get_split {V : Type} (d : Dict.t Z V) k v :
  NoDup (Dict.keys d) -> Dict.get d k = Some v ->
  exists d1 d2,
    d = d1 ++ (k, v) :: d2 /\ (k ∉ Dict.keys d1) /\ (k ∉ Dict.keys d2).
Proof.
  unfold Dict.keys. induction d as [|[k0 v0] d IH]; simpl; [done|].
  intros [Hnotin Hnd]%NoDup_cons.
  destruct (decide (k0 = k)) as [->|Hne].
  - intros [= ->]. exists [], d. split_and!; [done| |done].
    simpl. apply not_elem_of_nil.
  - intros Hget. destruct (IH Hnd Hget) as (d1 & d2 & -> & H1 & H2).
    exists ((k0, v0) :: d1), d2. split_and!; [done| |done].
    simpl. apply not_elem_of_cons. split; [congruence|done].
Qed.

(** The turn of a candidate whose reference has samples and whose own
    mapping is an error stack. *)
Lemma merge_step_attach perf g pid (profile reference : ProfileData AppMetadata)
  perf' g' :
  stacks profile <> [] ->
  Dict.get perf pid = Some reference ->
  0 < Counter.total (stacks reference) ->
  is_error_stack (stacks profile) = true ->
  merge_step (perf, g) (pid, profile) = Ok (perf', g') ->
  perf' = Dict.set perf pid
            {| stacks := attach_error_to_stacks (stacks reference)
                           (stacks profile);
               appid := appid profile;
               app_metadata := app_metadata profile |}
  /\ g' = g.
Proof.
  unfold merge_step. intros Hne -> Hpos ->.
  destruct (stacks profile) as [|entry entries] eqn:Hstacks; [done|].
  destruct (negb _); [done|].
  apply Z.ltb_lt in Hpos. rewrite Hpos. cbn. by intros [= <- <-].
Qed.

(** C1, as amended. For every process id that the candidate profiles hold
    with a mapping of at least one stack and that the reference profiles
    hold with a sample total above zero, if the candidate's mapping is an
    error stack, then the profile stored for that process id when the loop
    of [merge_profiles] ends carries the error-attach combination of the
    reference's mapping and the candidate's mapping. *)
Theorem merge_profiles_attaches_error
  (perf_pid_to_profiles process_profiles : ProcessToProfileData AppMetadata)
  (g : Random) (merged : ProcessToProfileData AppMetadata) (g' : Random)
  (pid : Z) (profile reference : ProfileData AppMetadata) :
  NoDup (Dict.keys process_profiles) ->
  Dict.get process_profiles pid = Some profile ->
  stacks profile <> [] ->
  Dict.get perf_pid_to_profiles pid = Some reference ->
  0 < Counter.total (stacks reference) ->
  is_error_stack (stacks profile) = true ->
  merge_loop process_profiles (perf_pid_to_profiles, g) = Ok (merged, g') ->
  Dict.get merged pid
  = Some {| stacks := attach_error_to_stacks (stacks reference)
                        (stacks profile);
            appid := appid profile;
            app_metadata := app_metadata profile |}.
Proof.
  intros Hnd Hcand Hne Href Hpos Herr Hloop.
  destruct (dict_get_split _ _ _ Hnd Hcand) as (l1 & l2 & -> & Hl1 & Hl2).
  rewrite merge_loop_app in Hloop.
  destruct (merge_loop l1 (perf_pid_to_profiles, g)) as [[perf1 g1]|] eqn:H1;
    [|done].
  cbn [bind merge_loop] in Hloop.
  destruct (merge_step (perf1, g1) (pid, profile)) as [[perf2 g2]|] eqn:H2;
    [|done].
  cbn [bind] in Hloop.
  rewrite (merge_loop_other _ _ _ _ _ _ Hloop Hl2).
  pose proof (merge_loop_other _ _ _ _ _ _ H1 Hl1) as Hsame.
  rewrite Href in Hsame.
  destruct (merge_step_attach _ _ _ _ _ _ _ Hne Hsame Hpos Herr H2) as [-> _].
  apply dict_get_set_eq.
Qed.

(** ** A process the reference does not know *)

Lemma dict_get_elem {V : Type} (d : Dict.t Z V) k v :
  Dict.get d k = Some v -> (k, v) ∈ d.
Proof.
  induction d as [|[k0 v0] d IH]; simpl; [done|].
  destruct (decide (k0 = k)) as [->|Hne].
  - intros [= ->]. apply list_elem_of_here.
  - intros Hget. apply list_elem_of_further. by apply IH.
Qed.

Lemma dict_set_elem {V : Type} (d : Dict.t Z V) k v k' v' :
  (k', v') ∈ Dict.set d k v -> (k', v') ∈ d \/ (k', v') = (k, v).
Proof.
  induction d as [|[k0 v0] d IH]; simpl.
  - intros ->%list_elem_of_singleton. by right.
  - destruct (decide (k0 = k)) as [->|Hne]; rewrite !elem_of_cons.
    + intros [->|Hin]; [by right|by left; right].
    + intros [->|Hin]; [by left; left|].
      destruct (IH Hin) as [?|?]; [by left; right|by right].
Qed.

(** What a turn that stores a profile did. *)
Lemma merge_step_inv perf g pid (profile : ProfileData AppMetadata) perf' g' :
  merge_step (perf, g) (pid, profile) = Ok (perf', g') ->
  stacks profile <> [] ->
  exists stacks',
    perf' = Dict.set perf pid
              {| stacks := stacks';
                 appid := appid profile;
                 app_metadata := app_metadata profile |}
    /\ 0 < Counter.total (stacks profile)
    /\ ((exists reference,
           Dict.get perf pid = Some reference
           /\ 0 < Counter.total (stacks reference)
           /\ is_error_stack (stacks profile) = true
           /\ stacks' = attach_error_to_stacks (stacks reference)
                          (stacks profile)
           /\ g' = g)
        \/ (exists ratio,
              Float.int_true_div
                match Dict.get perf pid with
                | Some p => Counter.total (stacks p)
                | None => 0
                end
                (Counter.total (stacks profile))
              = Ok ratio
              /\ scale_sample_counts (stacks profile) ratio g
                 = Ok (stacks', g'))).
Proof.
  unfold merge_step. intros Hstep Hne.
  destruct (stacks profile) as [|entry entries] eqn:Hstacks; [done|].
  destruct (0 <? Counter.total (entry :: entries)) eqn:Hassert; [|done].
  apply Z.ltb_lt in Hassert. cbn [negb] in Hstep.
  match type of Hstep with
  | bind ?r _ = _ => destruct r as [[stacks' g1]|] eqn:Hbranch; [|done]
  end.
  cbn in Hstep. injection Hstep as <- <-.
  exists stacks'. split_and!; [done..|].
  destruct (Dict.get perf pid) as [reference|].
  - destruct ((0 <? Counter.total (stacks reference))
              && is_error_stack (entry :: entries)) eqn:Hattach.
    + apply andb_true_iff in Hattach as [Hpos%Z.ltb_lt Herr].
      injection Hbranch as <- <-. left. by exists reference.
    + right. destruct (Float.int_true_div _ _) as [ratio|] eqn:Hdiv; [|done].
      by exists ratio.
  - right. destruct (Float.int_true_div _ _) as [ratio|] eqn:Hdiv; [|done].
    by exists ratio.
Qed.

Lemma merge_step_no_samples perf g item perf' g' pid :
  merge_step (perf, g) item = Ok (perf', g') ->
  no_samples_for pid perf -> no_samples_for pid perf'.
Proof.
  destruct item as [q profile]. intros Hstep Hinv.
  destruct (decide (stacks profile = [])) as [Hempty|Hfull].
  { unfold merge_step in Hstep. rewrite Hempty in Hstep.
    by injection Hstep as <- <-. }
  destruct (merge_step_inv _ _ _ _ _ _ Hstep Hfull)
    as (stacks' & -> & Hpos & Hcases).
  intros p [Hin|[= <- ->]]%dict_set_elem; [by apply Hinv|]. simpl.
  destruct Hcases as [(reference & Hget & Href & _)|(ratio & Hdiv & Hscale)].
  - (* a reference stored under this pid has no stack, so no sample *)
    apply dict_get_elem, Hinv in Hget. rewrite Hget in Href.
    by vm_compute in Href.
  - assert (Hzero : match Dict.get perf pid with
                    | Some p => Counter.total (stacks p)
                    | None => 0
                    end = 0).
    { destruct (Dict.get perf pid) as [p|] eqn:Hget; [|done].
      apply dict_get_elem, Hinv in Hget. by rewrite Hget. }
    rewrite Hzero, int_true_div_zero in Hdiv by lia.
    injection Hdiv as <-. by eapply scale_sample_counts_zero.
Qed.

Lemma merge_loop_no_samples items perf g perf' g' pid :
  merge_loop items (perf, g) = Ok (perf', g') ->
  no_samples_for pid perf -> no_samples_for pid perf'.
Proof.
  revert perf g. induction items as [|item items IH]; intros perf g.
  - cbn. by intros [= <- <-].
  - cbn [merge_loop].
    destruct (merge_step (perf, g) item) as [[perf1 g1]|] eqn:Hstep; [|done].
    cbn [bind]. intros Hloop Hinv. eapply IH; [done|].
    by eapply merge_step_no_samples.
Qed.

(** Every line of the result comes from a stack of the profile of its pid. *)
Lemma concatenate_loop_lines enrichment_options items st st' pid line :
  concatenate_loop enrichment_options items st = Ok st' ->
  (pid, line) ∈ cs_lines st' ->
  (pid, line) ∈ cs_lines st
  \/ exists p : ProfileData AppMetadata, (pid, p) ∈ items /\ stacks p <> [].
Proof.
  revert st. induction items as [|[q profile] items IH]; intros st.
  - cbn. intros [= <-]. by left.
  - cbn [concatenate_loop].
    destruct (concatenate_step enrichment_options st (q, profile))
      as [st1|] eqn:Hstep; [|done].
    cbn [bind]. intros Hloop Hin.
    destruct (IH _ Hloop Hin) as [Hin1|(p & Hp & Hne)].
    + unfold concatenate_step in Hstep.
      destruct (_enrich_pid_stacks _ _ _ _ _) as [[[e t] c]|]; [|done].
      cbn in Hstep. injection Hstep as <-. cbn in Hin1.
      apply elem_of_app in Hin1 as [?|Hnew]; [by left|]. right.
      unfold profile_lines in Hnew.
      apply list_elem_of_fmap in Hnew as ([stack count] & [= <- _] & Hentry).
      exists profile. split; [apply list_elem_of_here|].
      intros Hempty. rewrite Hempty in Hentry. by apply elem_of_nil in Hentry.
    + right. exists p. split; [by apply list_elem_of_further|done].
Qed.

(** C2. When the reference profiles hold no entry for a process id, the
    artifact of [merge_profiles] has no stack line made from a profile of
    that process; and a candidate of that process with at least one stack is
    stored with an empty mapping, its samples scaled by the ratio zero. *)
Theorem merge_profiles_drops_unreferenced
  (perf_pid_to_profiles process_profiles : ProcessToProfileData AppMetadata)
  (client : option Client) (enrichment_options : EnrichmentOptions)
  (metadata : Metadata MetaValue) (metrics : Metrics) (g : Random)
  (header : string) (lines : list (Z * string)) (client' : option Client)
  (g' : Random) (pid : Z) :
  Dict.get perf_pid_to_profiles pid = None ->
  merge_profiles_lines json_dumps perf_pid_to_profiles process_profiles client
    enrichment_options metadata metrics g
  = Ok (header, lines, client', g') ->
  (forall line, (pid, line) ∉ lines)
  /\ merge_profiles json_dumps perf_pid_to_profiles process_profiles client
       enrichment_options metadata metrics g
     = Ok (join newline (header :: map snd lines), client', g')
  /\ exists merged,
       merge_loop process_profiles (perf_pid_to_profiles, g) = Ok (merged, g')
       /\ forall profile,
            NoDup (Dict.keys process_profiles) ->
            Dict.get process_profiles pid = Some profile ->
            stacks profile <> [] ->
            Dict.get merged pid
            = Some {| stacks := [];
                      appid := appid profile;
                      app_metadata := app_metadata profile |}.
Proof.
  intros Habsent Hrun. unfold merge_profiles. rewrite Hrun. cbn [bind].
  unfold merge_profiles_lines in Hrun.
  destruct (merge_loop process_profiles (perf_pid_to_profiles, g))
    as [[merged g1]|] eqn:Hloop; [|done].
  cbn [bind] in Hrun.
  destruct (concatenate_profiles_lines _ _ _ _ _ _)
    as [[[header1 lines1] client1]|] eqn:Hconcat; [|done].
  cbn in Hrun. injection Hrun as -> -> -> ->.
  assert (Hinit : no_samples_for pid perf_pid_to_profiles).
  { intros p Hin. apply dict_get_None in Habsent. exfalso. apply Habsent.
    unfold Dict.keys. apply list_elem_of_fmap. by exists (pid, p). }
  pose proof (merge_loop_no_samples _ _ _ _ _ pid Hloop Hinit) as Hmerged.
  split_and!; [|done|].
  - intros line Hin. unfold concatenate_profiles_lines in Hconcat.
    destruct (concatenate_loop _ _ _) as [st|] eqn:Hcl; [|done].
    cbn [bind] in Hconcat.
    destruct (_make_profile_metadata _ _ _ _ _ _ _) as [[h c]|]; [|done].
    cbn in Hconcat. injection Hconcat as _ <- _.
    destruct (concatenate_loop_lines _ _ _ _ _ _ Hcl Hin)
      as [Hnil|(p & Hp & Hne)].
    + by apply elem_of_nil in Hnil.
    + by apply Hne, Hmerged.
  - exists merged. split; [done|]. intros profile Hnd Hcand Hne.
    destruct (dict_get_split _ _ _ Hnd Hcand) as (l1 & l2 & -> & Hl1 & Hl2).
    rewrite merge_loop_app in Hloop.
    destruct (merge_loop l1 (perf_pid_to_profiles, g)) as [[perf1 g2]|] eqn:H1;
      [|done].
    cbn [bind merge_loop] in Hloop.
    destruct (merge_step (perf1, g2) (pid, profile)) as [[perf2 g3]|] eqn:H2;
      [|done].
    cbn [bind] in Hloop.
    rewrite (merge_loop_other _ _ _ _ _ _ Hloop Hl2).
    destruct (merge_step_inv _ _ _ _ _ _ H2 Hne) as (stacks' & -> & _ & _).
    rewrite dict_get_set_eq. do 2 f_equal.
    pose proof (merge_loop_no_samples _ _ _ _ _ pid H1 Hinit) as Hperf1.
    pose proof (merge_step_no_samples _ _ _ _ _ pid H2 Hperf1) as Hperf2.
    specialize (Hperf2 _ (dict_get_elem _ _ _ (dict_get_set_eq perf1 pid _))).
    by f_equal.
Qed.

End MergeFacts.

(** ** The merger on concrete profiles *)

Lemma merge_profiles_attaches_error_witness :
  Dict.get [(2, Example.profile [("ERROR;failed_to_attach;m;n", 50)])] 2
  = Some
      {| stacks :=
           SpecErrorStack.attach_error (stacks (Example.profile [("m;n", 50)]))
             (stacks (Example.profile [("ERROR;failed_to_attach", 1)]));
         appid := None;
         app_metadata := None |}.
Proof.
  apply (merge_profiles_attaches_error
           (error_stack := SpecErrorStack.spec_error_stack)
           [(2, Example.profile [("m;n", 50)])]
           [(2, Example.profile [("ERROR;failed_to_attach", 1)])]
           (Example.constant_source 0)
           [(2, Example.profile [("ERROR;failed_to_attach;m;n", 50)])]
           (Example.constant_source 0)
           2
           (Example.profile [("ERROR;failed_to_attach", 1)])
           (Example.profile [("m;n", 50)])).
  - apply NoDup_singleton.
  - reflexivity.
  - discriminate.
  - reflexivity.
  - reflexivity.
  - reflexivity.
  - reflexivity.
Defined.

(** C1, as stated, fails when the reference is present with a sample total
    of zero: the guard of [merge_profiles] asks for a total above zero, so
    the error stack is scaled by the ratio 0 and stored empty, while the
    error-attach combination has one entry per reference stack. *)
Lemma merge_profiles_attaches_error_counterexample :
  Dict.get [(2, Example.profile [("ERROR;failed_to_attach", 1)])] 2
  = Some (Example.profile [("ERROR;failed_to_attach", 1)])
  /\ Dict.get [(2, Example.profile [("m;n", 0)])] 2
     = Some (Example.profile [("m;n", 0)])
  /\ SpecErrorStack.is_error [("ERROR;failed_to_attach", 1)] = true
  /\ SpecErrorStack.attach_error [("m;n", 0)] [("ERROR;failed_to_attach", 1)]
     = [("ERROR;failed_to_attach;m;n", 0)]
  /\ merge_loop (error_stack := SpecErrorStack.spec_error_stack)
       [(2, Example.profile [("ERROR;failed_to_attach", 1)])]
       ([(2, Example.profile [("m;n", 0)])], Example.constant_source 0)
     = Ok ([(2, Example.profile [])],
           Example.constant_source 0)
  /\ Dict.get [(2, Example.profile [])] 2
     <> Some (Example.profile
                (SpecErrorStack.attach_error [("m;n", 0)]
                   [("ERROR;failed_to_attach", 1)])).
Proof. split_and!; try reflexivity. vm_compute. discriminate. Qed.

Lemma merge_profiles_drops_unreferenced_witness :
  (forall line, (3, line) ∉ [(1, "x;a;b 100")])
  /\ merge_profiles (client_ops := Example.list_client)
       (error_stack := SpecErrorStack.spec_error_stack) Example.dumps
       [(1, Example.profile [("a;b", 100)])]
       [(1, Example.profile [("x;a;b", 10)]); (3, Example.profile [("z", 4)])]
       (Some []) Example.no_enrichment Example.cpu_metadata tt
       (Example.constant_source 0)
     = Ok (join newline
             ("# {profiling_mode: cpu}" :: map snd [(1, "x;a;b 100")]),
           Some [],
           Example.constant_source 0)
  /\ exists merged,
       merge_loop (error_stack := SpecErrorStack.spec_error_stack)
         [(1, Example.profile [("x;a;b", 10)]); (3, Example.profile [("z", 4)])]
         ([(1, Example.profile [("a;b", 100)])], Example.constant_source 0)
       = Ok (merged,
             Example.constant_source 0)
       /\ forall profile,
            NoDup (Dict.keys
                     [(1, Example.profile [("x;a;b", 10)]);
                      (3, Example.profile [("z", 4)])]) ->
            Dict.get
              [(1, Example.profile [("x;a;b", 10)]);
               (3, Example.profile [("z", 4)])] 3
            = Some profile ->
            stacks profile <> [] ->
            Dict.get merged 3
            = Some {| stacks := [];
                      appid := appid profile;
                      app_metadata := app_metadata profile |}.
Proof.
  apply (merge_profiles_drops_unreferenced
           (client_ops := Example.list_client)
           (error_stack := SpecErrorStack.spec_error_stack)
           Example.dumps
           [(1, Example.profile [("a;b", 100)])]
           [(1, Example.profile [("x;a;b", 10)]); (3, Example.profile [("z", 4)])]
           (Some []) Example.no_enrichment Example.cpu_metadata tt
           (Example.constant_source 0)).
  - reflexivity.
  - reflexivity.
Defined.

(** ** The sample scaler *)

Lemma binary_round_aux_sign sx mx ex lx :
  match binary_round_aux Float.prec Float.emax sx mx ex lx with
  | S754_zero s | S754_infinity s | S754_finite s _ _ => s = sx
  | S754_nan => True
  end.
Proof.
  unfold binary_round_aux.
  destruct (shr_fexp _ _ mx ex lx) as [mrs' e'].
  destruct (shr_fexp _ _ _ e' loc_Exact) as [mrs'' e''].
  destruct (shr_m mrs''); [done| |done].
  by destruct (_ <=? _).
Qed.

Lemma of_int_not_negative n c :
  0 <= n -> Float.of_int n = Ok c -> Float.not_negative c.
Proof.
  unfold Float.of_int, binary_normalize. intros Hn.
  destruct n as [|m|m]; [by intros [= <-]| |lia].
  unfold binary_round. destruct (shl_align _ _ _) as [mz ez].
  pose proof (binary_round_aux_sign false (Z.pos mz) ez loc_Exact) as Hs.
  destruct (binary_round_aux _ _ _ _ _ _) as [s|s| |s m' e'];
    intros [= <-]; simpl; by subst.
Qed.

Lemma le_zero_not_negative r :
  Float.le (S754_zero false) r = true -> Float.not_negative r.
Proof.
  destruct r as [s|[]| |[] m e]; simpl; try done.
  intros Hle%Z.leb_le.
  assert (0 < 2 ^ (e - Z.min 0 e)) by (apply Z.pow_pos_nonneg; lia).
  nia.
Qed.

Lemma mul_not_negative x y :
  Float.not_negative x -> Float.not_negative y ->
  Float.not_negative (Float.mul x y).
Proof.
  destruct x as [sx|[]| |[] mx ex], y as [sy|[]| |[] my ey]; simpl; try done.
  intros _ _.
  pose proof (binary_round_aux_sign false (Z.pos (mx * my)) (ex + ey)
                loc_Exact) as Hs.
  destruct (binary_round_aux _ _ _ _ _ _) as [s|s| |s m' e']; simpl;
    by subst.
Qed.

Lemma floor_not_negative x v :
  Float.not_negative x -> Float.floor x = Ok v -> 0 <= v.
Proof.
  destruct x as [s|s| |[] m e]; simpl; try done.
  - intros _ [= <-]. by rewrite Z.shiftl_0_l.
  - intros _ [= <-]. by apply Z.shiftl_nonneg.
Qed.

Lemma ceil_not_negative x v :
  Float.not_negative x -> Float.ceil x = Ok v -> 0 <= v.
Proof.
  destruct x as [s|s| |[] m e]; simpl; try done.
  - intros _ [= <-]. by rewrite Z.shiftl_0_l.
  - intros _ [= <-]. change (- Z.pos m) with (Z.neg m).
    destruct (Z.shiftl_nonneg (Z.neg m) e) as [Hsh _].
    destruct (Z.le_gt_cases 0 (Z.shiftl (Z.neg m) e)) as [Hge|Hlt];
      [specialize (Hsh Hge)|]; lia.
Qed.

Lemma scale_one_not_negative count ratio g v g' :
  0 <= count -> Float.not_negative ratio ->
  scale_one count ratio g = Ok (v, g') -> 0 <= v.
Proof.
  unfold scale_one, Float.int_mul. intros Hcount Hratio.
  destruct (Float.of_int count) as [c|] eqn:Hc; [|done]. cbn [bind].
  pose proof (mul_not_negative c ratio (of_int_not_negative _ _ Hcount Hc)
                Hratio) as Hprod.
  destruct (random g) as [u g1].
  destruct (Float.le _ _).
  - destruct (Float.ceil _) as [w|] eqn:Hw; [|done]. cbn.
    intros [= <- _]. by eapply ceil_not_negative.
  - destruct (Float.floor _) as [w|] eqn:Hw; [|done]. cbn.
    intros [= <- _]. by eapply floor_not_negative.
Qed.

Lemma dict_set_values_Forall (Q : Z -> Prop) (d : StackToSampleCount) k v :
  Forall (fun entry => Q entry.2) d -> Q v ->
  Forall (fun entry => Q entry.2) (Dict.set d k v).
Proof.
  intros Hd Hv. induction d as [|[k0 v0] d IH]; simpl.
  - by apply Forall_singleton.
  - apply Forall_cons in Hd as [H0 Hd].
    destruct (decide (k0 = k)); apply Forall_cons; auto.
Qed.

Lemma scale_loop_positive items ratio acc g scaled g' :
  Forall (fun entry => 0 <= entry.2) items ->
  Float.not_negative ratio ->
  Forall (fun entry => 0 < entry.2) acc ->
  scale_loop items ratio acc g = Ok (scaled, g') ->
  Forall (fun entry => 0 < entry.2) scaled.
Proof.
  intros Hitems Hratio. revert acc g.
  induction Hitems as [|[stack count] items Hcount _ IH]; intros acc g Hacc.
  - cbn. by intros [= <- _].
  - cbn [scale_loop].
    destruct (scale_one count ratio g) as [[v g1]|] eqn:Hone; [|done].
    cbn [bind]. apply scale_one_not_negative in Hone; [|done..].
    destruct (Z.eqb_spec v 0) as [->|Hv]; [by apply IH|].
    apply IH. apply (dict_set_values_Forall (fun n => 0 < n)); [done|lia].
Qed.

(** C3, as amended. For every sample-count mapping whose counts are not
    negative and every ratio that is not negative, when the ratio is not 1 or
    no count of the mapping is zero, every entry of
    [scale_sample_counts mapping ratio] has a value above zero: an entry
    whose scaled value is zero is left out and no negative value appears. *)
Theorem scale_sample_counts_positive (stacks : StackToSampleCount)
  (ratio : Float.t) (g : Random) (scaled : StackToSampleCount) (g' : Random) :
  Forall (fun entry => 0 <= entry.2) stacks ->
  Float.le (S754_zero false) ratio = true ->
  Float.eq_int ratio 1 = false \/ Forall (fun entry => 0 < entry.2) stacks ->
  scale_sample_counts stacks ratio g = Ok (scaled, g') ->
  Forall (fun entry => 0 < entry.2) scaled.
Proof.
  intros Hstacks Hratio%le_zero_not_negative Hcase. unfold scale_sample_counts.
  destruct (Float.eq_int ratio 1) eqn:Hone.
  - destruct Hcase as [?|Hpos]; [done|]. by intros [= <- _].
  - by apply scale_loop_positive.
Qed.

Lemma scale_sample_counts_positive_witness :
  Forall (fun entry => 0 < entry.2) [("a", 2); ("c", 4)].
Proof.
  apply (scale_sample_counts_positive [("a", 3); ("b", 0); ("c", 7)]
           (S754_finite false 4503599627370496 (-53))
           (Example.constant_source 4503599627370496)
           [("a", 2); ("c", 4)]
           (Example.constant_source 4503599627370496)).
  - repeat constructor; simpl; lia.
  - reflexivity.
  - left. reflexivity.
  - reflexivity.
Defined.

(** C3, as stated, fails at the ratio 1: the mapping is returned as it is,
    and a count of zero stays in it. *)
Lemma scale_sample_counts_positive_counterexample :
  Float.le (S754_zero false) (S754_finite false 4503599627370496 (-52)) = true
  /\ Float.eq_int (S754_finite false 4503599627370496 (-52)) 1 = true
  /\ scale_sample_counts [("a", 0)]
       (S754_finite false 4503599627370496 (-52)) (Example.constant_source 0)
     = Ok ([("a", 0)], Example.constant_source 0)
  /\ ~ Forall (fun entry => 0 < entry.2) [("a", 0)].
Proof.
  split_and!; try reflexivity.
  intros [Hlt _]%Forall_cons. simpl in Hlt. lia.
Qed.

(** ** Rounding error of the scaler *)

Lemma dyadic_floor m e :
  (inject_Z (Z.shiftl m e) <= Float.dyadic m e
   /\ Float.dyadic m e < inject_Z (Z.shiftl m e) + 1)%Q.
Proof.
  unfold Float.dyadic. destruct (Z.leb_spec 0 e) as [Hpos|Hneg].
  - rewrite Z.shiftl_mul_pow2 by lia. split; lra.
  - replace (Z.shiftl m e) with (m / 2 ^ (- e)).
    2: { rewrite <- (Z.opp_involutive e) at 2.
         by rewrite Z.shiftl_opp_r, Z.shiftr_div_pow2 by lia. }
    assert (0 < 2 ^ (- e)) as Hd by (apply Z.pow_pos_nonneg; lia).
    pose proof (Z.mul_div_le m (2 ^ (- e)) Hd) as Hle.
    pose proof (Z.mul_succ_div_gt m (2 ^ (- e)) Hd) as Hgt.
    unfold Qle, Qlt, Qplus. simpl. rewrite Z2Pos.id by lia. split; lia.
Qed.

Lemma dyadic_opp m e : (Float.dyadic (- m) e == - Float.dyadic m e)%Q.
Proof.
  unfold Float.dyadic. destruct (0 <=? e).
  - rewrite Z.mul_opp_l, inject_Z_opp. reflexivity.
  - reflexivity.
Qed.

Lemma floor_bounds x v :
  Float.floor x = Ok v ->
  (inject_Z v <= Float.to_Q x /\ Float.to_Q x < inject_Z v + 1)%Q.
Proof.
  unfold Float.to_Q.
  destruct x as [s|s| |s m e]; simpl; try done; intros [= <-];
    apply dyadic_floor.
Qed.

Lemma ceil_bounds x v :
  Float.ceil x = Ok v ->
  (Float.to_Q x <= inject_Z v /\ inject_Z v < Float.to_Q x + 1)%Q.
Proof.
  unfold Float.to_Q. intros Hceil.
  assert (v = - Z.shiftl (- Float.mantissa x) (Float.exponent x)) as ->.
  { destruct x; unfold Float.ceil in Hceil; try discriminate;
      by injection Hceil as <-. }
  destruct (dyadic_floor (- Float.mantissa x) (Float.exponent x)) as [Hle Hlt].
  rewrite dyadic_opp in Hle, Hlt. rewrite inject_Z_opp. split; lra.
Qed.

(** The value stored for an entry is less than one away from the product of
    the entry. *)
Lemma scale_one_bounds count ratio g v g' :
  scale_one count ratio g = Ok (v, g') ->
  (inject_Z v - 1 < product_value count ratio
   /\ product_value count ratio < inject_Z v + 1)%Q.
Proof.
  unfold scale_one, product_value.
  destruct (Float.int_mul count ratio) as [x|]; [|done]. cbn [bind].
  destruct (random g) as [u g1]. destruct (Float.le _ _).
  - destruct (Float.ceil x) as [w|] eqn:Hw; [|done]. cbn. intros [= <- _].
    destruct (ceil_bounds x w Hw). split; lra.
  - destruct (Float.floor x) as [w|] eqn:Hw; [|done]. cbn. intros [= <- _].
    destruct (floor_bounds x w Hw). split; lra.
Qed.

Lemma total_set_fresh (c : StackToSampleCount) k v :
  k ∉ Dict.keys c -> Counter.total (Dict.set c k v) = Counter.total c + v.
Proof.
  unfold Counter.total, Dict.values, Dict.keys.
  induction c as [|[k0 v0] c IH]; simpl; [lia|].
  intros [Hne Hnotin]%not_elem_of_cons.
  rewrite decide_False by done. simpl. rewrite IH by done. lia.
Qed.


(** ** Expected value of the scaled sum *)

Lemma sum_draws_ext n f f' :
  (forall k, (k < N.of_nat n)%N -> f k = f' k) -> sum_draws n f = sum_draws n f'.
Proof.
  induction n as [|n IH]; intros Hext; simpl; [done|].
  rewrite IH, Hext; [done|lia|]. intros k Hk. apply Hext. lia.
Qed.




Lemma sum_draws_mul n a f :
  sum_draws n (fun k => a * f k) = a * sum_draws n f.
Proof. induction n as [|n IH]; simpl; [lia|]. rewrite IH. lia. Qed.

(** The number of numerators below [n] that are at most [t]. *)
Lemma sum_draws_count n t :
  -1 <= t ->
  sum_draws n (fun k => if Z.of_N k <=? t then 1 else 0)
  = Z.min (Z.of_nat n) (t + 1).
Proof.
  intros Ht. induction n as [|n IH]; simpl sum_draws; [lia|].
  rewrite IH. destruct (Z.leb_spec (Z.of_N (N.of_nat n)) t); lia.
Qed.

Lemma le_of_random k r e :
  Float.le (Float.of_random k) (S754_finite false r e)
  = (Z.of_N k * 2 ^ (-53 - Z.min (-53) e) <=? Z.pos r * 2 ^ (e - Z.min (-53) e)).
Proof.
  destruct k as [|p]; [|done].
  cbn [Float.of_random Float.le Float.mantissa Float.exponent cond_Zopp Z.of_N].
  rewrite !Z.mul_0_l.
  assert (0 <= 2 ^ (e - Z.min (-53) e)) by (apply Z.pow_nonneg; lia).
  assert (0 <= 2 ^ (e - Z.min 0 e)) by (apply Z.pow_nonneg; lia).
  transitivity true; [|symmetry]; apply Z.leb_le; lia.
Qed.

Lemma le_of_random_zero k s :
  Float.le (Float.of_random k) (S754_zero s) = (Z.of_N k =? 0).
Proof.
  destruct k as [|p]; [done|].
  cbn [Float.of_random Float.le Float.mantissa Float.exponent cond_Zopp Z.of_N].
  change (Z.min (-53) 0) with (-53). change (0 - -53) with 53.
  change (-53 - -53) with 0. rewrite Z.mul_0_l, Z.pow_0_r, Z.mul_1_r.
  transitivity false; [by apply Z.leb_gt|symmetry; by apply Z.eqb_neq].
Qed.

(** The ceiling and the floor of [m * 2^e], for [m] positive. *)
Lemma ceil_floor_exact m e :
  (0 <= e \/ m mod 2 ^ (- e) = 0) ->
  - Z.shiftl (- m) e = Z.shiftl m e.
Proof.
  intros [Hpos|Hmod].
  - rewrite !Z.shiftl_mul_pow2 by lia. lia.
  - destruct (Z.le_gt_cases 0 e) as [Hpos|Hneg].
    { rewrite !Z.shiftl_mul_pow2 by lia. lia. }
    rewrite <- (Z.opp_involutive e).
    rewrite !Z.shiftl_opp_r, !Z.shiftr_div_pow2 by lia.
    rewrite Z_div_zero_opp_full by done. lia.
Qed.





(** The value stored for an entry whose product is zero or finite. *)
Lemma scale_one_rounded count ratio g :
  product_finite count ratio = true ->
  exists x,
    Float.int_mul count ratio = Ok x
    /\ scale_one count ratio g = Ok (rounded x (g 0%nat), fun i => g (S i)).
Proof.
  unfold product_finite, scale_one, rounded.
  destruct (Float.int_mul count ratio) as [x|]; [|done].
  intros Hfin. exists x. split; [done|]. cbn [bind random].
  unfold random.
  destruct x as [s|s| |s m e]; try done;
    by destruct (Float.le _ _).
Qed.

Lemma scale_loop_total items ratio acc g :
  Forall (fun entry => product_finite entry.2 ratio = true) items ->
  NoDup (Dict.keys items) ->
  (forall k, k ∈ Dict.keys items -> k ∉ Dict.keys acc) ->
  exists scaled g',
    scale_loop items ratio acc g = Ok (scaled, g')
    /\ Counter.total scaled = Counter.total acc + scaled_sum items ratio g.
Proof.
  intros Hfin. revert acc g.
  induction Hfin as [|[stack count] items Hcount _ IH]; intros acc g.
  - intros _ _. exists acc, g. split; [done|]. simpl. lia.
  - unfold Dict.keys. cbn [map fst]. fold (Dict.keys items).
    intros [Hfresh Hnd]%NoDup_cons Hdisj. cbn [scale_loop scaled_sum].
    destruct (scale_one_rounded count ratio g Hcount) as (x & -> & ->).
    cbn [bind].
    destruct (Z.eqb_spec (rounded x (g 0%nat)) 0) as [Hv|Hv].
    + destruct (IH acc (fun i => g (S i)) Hnd) as (scaled & g' & -> & Htot).
      { intros k Hk. apply Hdisj, elem_of_cons. by right. }
      exists scaled, g'. split; [done|]. lia.
    + destruct (IH (Dict.set acc stack (rounded x (g 0%nat)))
                  (fun i => g (S i)) Hnd) as (scaled & g' & -> & Htot).
      { intros k Hk [->|Hin]%dict_keys_set; [done|].
        revert Hin. apply Hdisj, elem_of_cons. by right. }
      exists scaled, g'. split; [done|].
      rewrite Htot, total_set_fresh; [lia|].
      apply Hdisj, elem_of_cons. by left.
Qed.

Lemma scaled_total_sum stacks ratio g :
  Float.eq_int ratio 1 = false ->
  Forall (fun entry => product_finite entry.2 ratio = true) stacks ->
  NoDup (Dict.keys stacks) ->
  scaled_total stacks ratio g = scaled_sum stacks ratio g.
Proof.
  intros Hone Hfin Hnd. unfold scaled_total, scale_sample_counts.
  rewrite Hone.
  destruct (scale_loop_total stacks ratio [] g Hfin Hnd)
    as (scaled & g' & -> & ->).
  { intros k _. apply not_elem_of_nil. }
  done.
Qed.

Section Outcomes.
Variable n : nat.



End Outcomes.




Section Expectation.
Variable n : nat.
Hypothesis Hn : Z.of_nat n = 2 ^ 53.


End Expectation.

Lemma draw_count_eq : Z.of_nat draw_count = 2 ^ 53.
Proof. unfold draw_count. apply Z2Nat.id. lia. Qed.




(** The test [random.random() <= fraction] holds for one draw more than
    [fraction * 2^53]: one sample scaled by one half becomes 1 for the
    [2^52 + 1] draws up to one half, hence in mean [1/2 + 2^-53]. *)
Example scale_sample_counts_rounds_up_more_often :
  let stacks : StackToSampleCount := [("a", 1)] in
  let half := S754_finite false 4503599627370496 (-53) in
  (sum_products stacks half == 1 # 2)%Q
  /\ (expected_total stacks half == (1 # 2) + 1 / inject_Z (2 ^ 53))%Q.
Proof.
  intros stacks half. split; [reflexivity|].
  unfold expected_total. change (length stacks) with 1%nat.
  rewrite draw_count_eq. cbn [sum_outcomes].
  rewrite (sum_draws_ext _ _ (fun k => if Z.of_N k <=? 2 ^ 52 then 1 else 0)).
  2: { intros k _. rewrite scaled_total_sum.
       2: reflexivity. 2: by repeat constructor.
       2: { apply (bool_decide_unpack _). reflexivity. }
       unfold stacks. cbn [scaled_sum snd cons_draw].
       change (Float.int_mul 1 half) with (Ok half).
       unfold rounded.
       change (Float.modf_frac half)
         with (S754_finite false 4503599627370496 (-53)).
       rewrite le_of_random.
       change (-53 - Z.min (-53) (-53)) with 0.
       rewrite Z.pow_0_r, !Z.mul_1_r.
       change (Z.pos 4503599627370496) with (2 ^ 52).
       by destruct (Z.of_N k <=? 2 ^ 52). }
  rewrite sum_draws_count by lia. rewrite draw_count_eq.
  rewrite Z.min_r by lia. change (Z.of_nat 1) with 1. rewrite Z.pow_1_r.
  by vm_compute.
Qed.

(** * Further properties *)

(** ** Integers as text *)

Lemma digit_value_pretty d :
  (d < 10)%N -> Str.digit_value (pretty_N_char d) = Some (Z.of_N d).
Proof.
  intros Hd.
  assert (d = 0 \/ d = 1 \/ d = 2 \/ d = 3 \/ d = 4 \/ d = 5 \/ d = 6
          \/ d = 7 \/ d = 8 \/ d = 9)%N as Hcases by lia.
  by repeat destruct Hcases as [->|Hcases]; [..|subst d].
Qed.

Lemma pretty_N_char_digit d : is_digit (pretty_N_char d) = true.
Proof.
  unfold pretty_N_char.
  by repeat match goal with |- context [match ?x with _ => _ end] => destruct x end.
Qed.

(** Reading the digits [pretty_N_go] writes. *)
Lemma int_digits_pretty x s seen :
  (0 < x)%N ->
  Str.int_digits 0 seen (pretty_N_go x s) = Str.int_digits (Z.of_N x) true s.
Proof.
  revert s seen. induction (N.lt_wf_0 x) as [x _ IH]. intros s seen Hx.
  rewrite pretty_N_go_step by done.
  assert (x `mod` 10 < 10)%N as Hmod by (apply N.mod_lt; lia).
  pose proof (N.div_mod x 10 ltac:(lia)) as Hdiv.
  destruct (decide (x `div` 10 = 0)%N) as [Hzero|Hpos].
  - rewrite Hzero, pretty_N_go_0. cbn [Str.int_digits].
    rewrite digit_value_pretty by done. f_equal. lia.
  - rewrite IH; [|apply N.div_lt; lia|lia].
    cbn [Str.int_digits]. rewrite digit_value_pretty by done. f_equal. lia.
Qed.

Lemma all_chars_pretty_go p x s :
  (forall d, p (pretty_N_char d) = true) ->
  Str.all_chars p s = true -> Str.all_chars p (pretty_N_go x s) = true.
Proof.
  intros Hp. revert s. induction (N.lt_wf_0 x) as [x _ IH]. intros s Hs.
  destruct (decide (x = 0)%N) as [->|Hx]; [by rewrite pretty_N_go_0|].
  rewrite pretty_N_go_step by lia. apply IH; [apply N.div_lt; lia|].
  simpl. by rewrite Hp, Hs.
Qed.

(** The text of a number that is not negative holds digits only. *)
Lemma of_int_digits n : 0 <= n -> Str.all_chars is_digit (Str.of_int n) = true.
Proof.
  intros Hn. destruct n as [|p|p]; [done| |lia].
  unfold Str.of_int, pretty, pretty_Z, pretty, pretty_positive, pretty, pretty_N.
  destruct (decide _); [done|].
  apply all_chars_pretty_go; [apply pretty_N_char_digit|done].
Qed.

Lemma all_chars_impl (p q : ascii -> bool) s :
  (forall c, p c = true -> q c = true) ->
  Str.all_chars p s = true -> Str.all_chars q s = true.
Proof.
  intros Hpq. induction s as [|c s IH]; simpl; [done|].
  intros [Hc Hs]%andb_true_iff. by rewrite (Hpq c Hc), IH.
Qed.

Lemma all_chars_app p s1 s2 :
  Str.all_chars p (s1 +:+ s2) = Str.all_chars p s1 && Str.all_chars p s2.
Proof.
  induction s1 as [|c s1 IH]; simpl; [done|]. by rewrite IH, andb_assoc.
Qed.

Lemma of_int_chars n : Str.all_chars is_int_char (Str.of_int n) = true.
Proof.
  assert (Hpos : forall m, 0 <= m -> Str.all_chars is_int_char (Str.of_int m) = true).
  { intros m Hm. eapply all_chars_impl; [|by apply of_int_digits].
    intros c Hc. unfold is_int_char. by rewrite Hc. }
  destruct n as [|p|p]; [by apply Hpos|by apply Hpos|].
  change (Str.of_int (Z.neg p)) with ("-" +:+ Str.of_int (Z.pos p)).
  rewrite all_chars_app. by rewrite Hpos.
Qed.

Lemma lstrip_head sp c s : sp c = false -> Str.lstrip_with sp (String c s) = String c s.
Proof. intros Hc. simpl. by rewrite Hc. Qed.

Lemma rstrip_none sp s :
  Str.all_chars (fun c => negb (sp c)) s = true -> Str.rstrip_with sp s = s.
Proof.
  induction s as [|c s IH]; simpl; [done|].
  intros [Hc Hs]%andb_true_iff. rewrite IH by done.
  destruct s; [|done]. by destruct (sp c).
Qed.

Lemma strip_none sp s :
  Str.all_chars (fun c => negb (sp c)) s = true -> Str.strip_with sp s = s.
Proof.
  intros Hs. unfold Str.strip_with.
  assert (Str.lstrip_with sp s = s) as ->; [|by apply rstrip_none].
  destruct s as [|c s]; [done|]. simpl in *.
  apply andb_true_iff in Hs as [Hc _]. by destruct (sp c).
Qed.

Lemma is_int_char_not_space c :
  is_int_char c = true -> negb (Str.int_space c) = true.
Proof.
  unfold is_int_char, is_digit, Str.digit_value, Str.int_space.
  destruct (Ascii.eqb_spec c "-") as [->|_]; [done|].
  rewrite orb_false_r. set (n := Str.code c).
  destruct ((48 <=? n)%N && (n <=? 57)%N) eqn:Hd; [|done]. intros _.
  apply andb_true_iff in Hd as [?%N.leb_le ?%N.leb_le].
  apply negb_true_iff.
  repeat (apply orb_false_iff; split); try (apply andb_false_iff);
    rewrite ?N.leb_gt, ?N.eqb_neq; lia.
Qed.

Lemma is_digit_not_sign c (m : ascii) :
  is_digit m = false -> is_digit c = true -> Ascii.eqb c m = false.
Proof.
  intros Hm Hc. destruct (Ascii.eqb_spec c m) as [->|]; [congruence|done].
Qed.

(** [int(str(n)) == n] *)
Lemma int_of_int n : Str.int (Str.of_int n) = Ok n.
Proof.
  unfold Str.int. rewrite strip_none.
  2: { eapply all_chars_impl; [apply is_int_char_not_space|apply of_int_chars]. }
  destruct n as [|p|p]; [done| |].
  - pose proof (of_int_digits (Z.pos p) ltac:(lia)) as Hdigits.
    unfold Str.of_int, pretty, pretty_Z, pretty, pretty_positive, pretty, pretty_N in *.
    destruct (decide _); [done|].
    pose proof (int_digits_pretty (N.pos p) "" false ltac:(lia)) as Hread.
    destruct (pretty_N_go (N.pos p) "") as [|c d] eqn:Htext; [done|].
    simpl in Hdigits. apply andb_true_iff in Hdigits as [Hc _].
    rewrite (is_digit_not_sign c "+"), (is_digit_not_sign c "-") by done.
    by rewrite Hread.
  - change (Str.of_int (Z.neg p)) with (String "-" (Str.of_int (Z.pos p))).
    cbn [Ascii.eqb Bool.eqb andb]. cbv iota.
    unfold Str.of_int, pretty, pretty_Z, pretty, pretty_positive, pretty, pretty_N.
    destruct (decide _); [done|].
    by rewrite (int_digits_pretty (N.pos p) "" false ltac:(lia)).
Qed.

(** ** Cutting and joining text *)

Lemma append_cons c (s1 s2 : string) :
  String c s1 +:+ s2 = String c (s1 +:+ s2).
Proof. done. Qed.

Lemma append_empty_r (s : string) : s +:+ "" = s.
Proof. induction s as [|c s IH]; [done|]. rewrite append_cons. by f_equal. Qed.

Lemma str_app_assoc (s1 s2 s3 : string) :
  (s1 +:+ s2) +:+ s3 = s1 +:+ s2 +:+ s3.
Proof.
  induction s1 as [|c s1 IH]; [done|]. rewrite !append_cons. by f_equal.
Qed.

Lemma cut_first_app sep a b :
  Str.all_chars (is_not sep) a = true ->
  Str.cut_first sep (a +:+ String sep b) = Some (a, b).
Proof.
  induction a as [|c a IH]; rewrite ?append_cons; simpl.
  - by rewrite Ascii.eqb_refl.
  - intros [Hc Ha]%andb_true_iff. unfold is_not in Hc.
    apply negb_true_iff in Hc. by rewrite Hc, IH.
Qed.

Lemma cut_last_none sep b :
  Str.all_chars (is_not sep) b = true -> Str.cut_last sep b = None.
Proof.
  induction b as [|c b IH]; simpl; [done|].
  intros [Hc Hb]%andb_true_iff. unfold is_not in Hc.
  apply negb_true_iff in Hc. by rewrite IH, Hc.
Qed.

Lemma cut_last_app sep a b :
  Str.all_chars (is_not sep) b = true ->
  Str.cut_last sep (a +:+ String sep b) = Some (a, b).
Proof.
  intros Hb. induction a as [|c a IH]; rewrite ?append_cons; simpl.
  - by rewrite cut_last_none, Ascii.eqb_refl.
  - by rewrite IH.
Qed.

Lemma cut_first_none sep a :
  Str.all_chars (is_not sep) a = true -> Str.cut_first sep a = None.
Proof.
  induction a as [|c a IH]; simpl; [done|].
  intros [Hc Ha]%andb_true_iff. unfold is_not in Hc.
  apply negb_true_iff in Hc. by rewrite Hc, IH.
Qed.

Lemma splitlines_from_one_line cur s rest :
  one_line s = true ->
  Str.splitlines_from false cur (s +:+ rest)
  = Str.splitlines_from false (rev (list_ascii_of_string s) ++ cur) rest.
Proof.
  revert cur. induction s as [|c s IH]; intros cur; [done|].
  rewrite append_cons. simpl.
  intros [Hc Hs]%andb_true_iff. apply negb_true_iff in Hc.
  rewrite Hc, IH by done. by rewrite <- List.app_assoc.
Qed.

(** [splitlines] undoes [join] on lines that are not empty and hold no line
    boundary. *)
Lemma splitlines_join lines :
  Forall (fun l => l <> "" /\ one_line l = true) lines ->
  Str.splitlines (join newline lines) = lines.
Proof.
  unfold Str.splitlines.
  induction lines as [|l lines IH]; [done|].
  intros [[Hne Hl] Hrest]%Forall_cons.
  assert (Hback : string_of_list_ascii (rev (rev (list_ascii_of_string l) ++ [])) = l).
  { by rewrite app_nil_r, rev_involutive, string_of_list_ascii_of_string. }
  destruct lines as [|l' lines].
  - simpl. rewrite <- (append_empty_r l) at 1.
    rewrite splitlines_from_one_line by done.
    remember (rev (list_ascii_of_string l) ++ []) as cur eqn:Hcur.
    destruct cur as [|c cur]; [simpl in Hback; congruence|].
    cbn [Str.splitlines_from]. by rewrite Hback.
  - change (join newline (l :: l' :: lines))
      with (l +:+ newline +:+ join newline (l' :: lines)).
    rewrite splitlines_from_one_line by done.
    unfold newline at 1. rewrite append_cons.
    change ("" +:+ join newline (l' :: lines)) with (join newline (l' :: lines)).
    rewrite splitlines_from_cons. cbn [andb].
    change (Str.is_linebreak Str.LF) with true. cbv iota.
    change (Ascii.eqb Str.LF Str.CR) with false.
    by rewrite Hback, IH.
Qed.

(** ** Definitions for the output lines *)

(** ** Lines and their entries *)

Lemma finalize_unfold stack count enrichment_options enrich_data :
  _enrich_and_finalize_stack stack count enrichment_options enrich_data
  = enriched_stack stack enrichment_options enrich_data
      +:+ " " +:+ Str.of_int count.
Proof.
  unfold _enrich_and_finalize_stack, enriched_stack, with_appid.
  by rewrite !str_app_assoc.
Qed.

Lemma of_int_no_space n : Str.all_chars (is_not " ") (Str.of_int n) = true.
Proof.
  eapply all_chars_impl; [|apply of_int_chars].
  intros c. unfold is_int_char, is_digit, Str.digit_value, is_not.
  destruct (Ascii.eqb_spec c " ") as [->|]; [by vm_compute|done].
Qed.

Lemma of_int_one_line n : one_line (Str.of_int n) = true.
Proof.
  eapply all_chars_impl; [|apply of_int_chars].
  intros c. unfold is_int_char, is_digit, Str.digit_value, Str.is_linebreak.
  destruct (Ascii.eqb_spec c "-") as [->|_]; [done|].
  rewrite orb_false_r. set (n' := Str.code c).
  destruct ((48 <=? n')%N && (n' <=? 57)%N) eqn:Hd; [|done]. intros _.
  apply andb_true_iff in Hd as [?%N.leb_le ?%N.leb_le].
  apply negb_true_iff.
  repeat (apply orb_false_iff; split); try (apply andb_false_iff);
    rewrite ?N.leb_gt, ?N.eqb_neq; lia.
Qed.

(** A line made of a key, a space and the text of a count reads back as
    that key and that count, unless the key starts with a hash sign. *)
Lemma spec_entry_line key count :
  Str.startswith "#" key = false ->
  spec_entry None (key +:+ " " +:+ Str.of_int count) = Some (key, count).
Proof.
  intros Hkey. unfold spec_entry.
  destruct (decide _) as [Hempty|_]; [by destruct key|].
  assert (Str.startswith "#" (key +:+ " " +:+ Str.of_int count) = false) as ->.
  { by destruct key. }
  unfold Str.rpartition. change (" " +:+ Str.of_int count)
    with (String " " (Str.of_int count)).
  rewrite cut_last_app by apply of_int_no_space.
  by rewrite int_of_int.
Qed.

Lemma spec_count_NoDup (entries : StackToSampleCount) signature :
  NoDup (Dict.keys entries) ->
  spec_count entries signature = Counter.get entries signature.
Proof.
  unfold Counter.get, Dict.keys.
  induction entries as [|[s n] entries IH]; simpl; [done|].
  intros [Hnotin Hnd]%NoDup_cons.
  destruct (decide (s = signature)) as [->|Hne]; [|by apply IH].
  assert (spec_count entries signature = 0) as ->; [|lia].
  clear IH Hnd. induction entries as [|[s' n'] entries IH]; simpl; [done|].
  simpl in Hnotin. apply not_elem_of_cons in Hnotin as [Hne Hnotin].
  destruct (decide (s' = signature)); [congruence|]. by rewrite IH.
Qed.

Lemma spec_entries_plain (entries : StackToSampleCount) :
  Forall (fun entry => line_safe entry.1 = true) entries ->
  spec_entries None (map plain_line entries) = entries.
Proof.
  induction entries as [|[s n] entries IH]; simpl; [done|].
  intros [Hs Hrest]%Forall_cons. simpl in Hs.
  apply andb_true_iff in Hs as [_ Hs%negb_true_iff].
  unfold plain_line at 1. simpl. rewrite spec_entry_line by done.
  by rewrite IH.
Qed.

Lemma spec_entries_app root lines1 lines2 :
  spec_entries root (lines1 ++ lines2)
  = spec_entries root lines1 ++ spec_entries root lines2.
Proof.
  induction lines1 as [|l lines1 IH]; simpl; [done|].
  destruct (spec_entry root l); simpl; by rewrite IH.
Qed.

Section Output.
Context {AppMetadata : Type} `{EqDecision AppMetadata}.
Context {MetaValue Metrics Client : Type}.
Context `{client_ops : ContainerNamesClient Client}.
Context `{error_stack : ProfilingErrorStack}.
Variable json_dumps : ProfileMetadata AppMetadata MetaValue Metrics -> string.

Lemma enrich_pid_stacks_v1 pid (profile : ProfileData AppMetadata)
  enrichment_options (client : option Client) table :
  profile_api_version enrichment_options = Some "v1" ->
  exists enrich_data,
    _enrich_pid_stacks pid profile enrichment_options client table
    = Ok (enrich_data, table_with table (app_metadata profile), client)
    /\ application_prefix enrich_data = ""
    /\ container_prefix enrich_data = "".
Proof.
  intros Hv1.
  destruct (enrich_pid_stacks_ok pid profile enrichment_options client table)
    as (idx & enrich_data & client' & Hrun & _ & _ & _).
  revert Hrun. unfold _enrich_pid_stacks, not_v1. rewrite Hv1.
  rewrite bool_decide_eq_true_2 by done. cbn [negb andb].
  destruct (register_app_metadata _ _) as [[i t]|]; [|done].
  cbn. intros [= <- <- <-]. eauto.
Qed.

Lemma profile_lines_plain pid (profile : ProfileData AppMetadata)
  enrichment_options enrich_data :
  application_identifiers enrichment_options = false ->
  application_prefix enrich_data = "" ->
  container_prefix enrich_data = "" ->
  map snd (profile_lines pid profile enrichment_options enrich_data)
  = map plain_line (stacks profile).
Proof.
  intros Hid Happ Hcont. unfold profile_lines. rewrite map_map.
  apply map_ext. intros [stack count]. simpl.
  unfold _enrich_and_finalize_stack. by rewrite Hid, Happ, Hcont.
Qed.

Lemma concatenate_loop_v1 enrichment_options
  (items : list (Z * ProfileData AppMetadata)) st :
  profile_api_version enrichment_options = Some "v1" ->
  application_identifiers enrichment_options = false ->
  exists st',
    concatenate_loop enrichment_options items st = Ok st'
    /\ map snd (cs_lines st') = map snd (cs_lines st) ++ plain_lines items
    /\ cs_client st' = cs_client st.
Proof.
  intros Hv1 Hid. revert st.
  induction items as [|[pid profile] items IH]; intros st.
  - exists st. unfold plain_lines. simpl. by rewrite app_nil_r.
  - cbn [concatenate_loop]. unfold concatenate_step.
    destruct (enrich_pid_stacks_v1 pid profile enrichment_options
                (cs_client st) (cs_application_metadata st) Hv1)
      as (enrich_data & -> & Happ & Hcont).
    cbn [bind].
    match goal with
    | |- context [concatenate_loop _ _ ?s] => destruct (IH s) as (st' & -> & Hl & Hc)
    end.
    exists st'. split; [done|]. split; [|done].
    rewrite Hl. cbn [cs_lines]. rewrite map_app.
    rewrite profile_lines_plain by done.
    unfold plain_lines. cbn [flat_map snd]. by rewrite <- List.app_assoc.
Qed.


Lemma concatenate_profiles_v1 (process_profiles : ProcessToProfileData AppMetadata)
  (client : option Client) enrichment_options (metadata : Metadata MetaValue)
  (metrics : Metrics) text client' :
  profile_api_version enrichment_options = Some "v1" ->
  application_identifiers enrichment_options = false ->
  concatenate_profiles json_dumps process_profiles client enrichment_options
    metadata metrics
  = Ok (text, client') ->
  exists document,
    text = join newline
             (("# " +:+ json_dumps document) :: plain_lines process_profiles)
    /\ pm_metadata document = metadata
    /\ pm_metrics document = metrics.
Proof.
  intros Hv1 Hid. unfold concatenate_profiles, concatenate_profiles_lines.
  destruct (concatenate_loop_v1 enrichment_options process_profiles
              (concat_init client) Hv1 Hid) as (st & -> & Hlines & _).
  cbn [bind].
  pose proof (make_profile_metadata_cases json_dumps (cs_client st)
                (container_names_option enrichment_options) metadata metrics
                (cs_application_metadata st)
                (application_metadata_option enrichment_options)) as Hheader.
  destruct (Dict.get metadata "profiling_mode") as [mode|].
  - destruct Hheader as (document & c' & -> & _ & Hmeta & Hmetrics & _).
    cbn. intros [= <- <-]. exists document. by rewrite Hlines.
  - by rewrite Hheader.
Qed.

Lemma plain_line_ok (entry : string * Z) :
  one_line entry.1 = true ->
  plain_line entry <> "" /\ one_line (plain_line entry) = true.
Proof.
  destruct entry as [s n]. unfold plain_line. simpl. intros Hs. split.
  - by destruct s.
  - pose proof (of_int_one_line n) as Hn. unfold one_line in *.
    by rewrite !all_chars_app, Hs, Hn.
Qed.

Lemma plain_lines_ok (profiles : list (Z * ProfileData AppMetadata)) :
  Forall (fun item =>
            Forall (fun entry => line_safe entry.1 = true) (stacks item.2))
    profiles ->
  Forall (fun l => l <> "" /\ one_line l = true) (plain_lines profiles).
Proof.
  unfold plain_lines. induction profiles as [|[pid p] profiles IH]; simpl.
  - constructor.
  - intros [Hp Hrest]%Forall_cons. apply Forall_app. split; [|by apply IH].
    apply Forall_map. eapply Forall_impl; [exact Hp|].
    intros entry [Hone _]%andb_true_iff. by apply plain_line_ok.
Qed.

Lemma spec_count_plain_lines (profiles : list (Z * ProfileData AppMetadata))
  signature :
  Forall (fun item =>
            NoDup (Dict.keys (stacks item.2))
            /\ Forall (fun entry => line_safe entry.1 = true) (stacks item.2))
    profiles ->
  spec_count (spec_entries None (plain_lines profiles)) signature
  = samples_of signature profiles.
Proof.
  unfold plain_lines. induction profiles as [|[pid p] profiles IH]; simpl.
  - done.
  - intros [[Hnd Hsafe] Hrest]%Forall_cons. simpl in *.
    rewrite spec_entries_app, spec_count_app, spec_entries_plain by done.
    rewrite spec_count_NoDup by done. by rewrite IH.
Qed.

(** X1. With protocol version v1 and no application identifiers, the text of
    [concatenate_profiles] is the header line followed by the stacks of the
    processes, in the order of the processes and of their mappings, each as
    the stack, a space and the count. *)
Theorem concatenate_profiles_v1_lines
  (process_profiles : ProcessToProfileData AppMetadata)
  (client : option Client) (enrichment_options : EnrichmentOptions)
  (metadata : Metadata MetaValue) (metrics : Metrics)
  (text : string) (client' : option Client) :
  profile_api_version enrichment_options = Some "v1" ->
  application_identifiers enrichment_options = false ->
  concatenate_profiles json_dumps process_profiles client enrichment_options
    metadata metrics
  = Ok (text, client') ->
  exists document,
    text = join newline
             (("# " +:+ json_dumps document) :: plain_lines process_profiles)
    /\ pm_metadata document = metadata
    /\ pm_metrics document = metrics.
Proof. apply concatenate_profiles_v1. Qed.

(** X2. Reading back what was written. With protocol version v1 and no
    application identifiers, when the serialised header and the stack
    signatures hold no line boundary and no signature starts with a hash
    sign, [parse_one_collapsed] on the text of [concatenate_profiles] gives
    every stack signature the sum of its counts over the processes. *)
Theorem parse_concatenated_profiles
  (process_profiles : ProcessToProfileData AppMetadata)
  (client : option Client) (enrichment_options : EnrichmentOptions)
  (metadata : Metadata MetaValue) (metrics : Metrics)
  (text : string) (client' : option Client) (signature : string) :
  profile_api_version enrichment_options = Some "v1" ->
  application_identifiers enrichment_options = false ->
  (forall document, one_line (json_dumps document) = true) ->
  Forall (fun item =>
            NoDup (Dict.keys (stacks item.2))
            /\ Forall (fun entry => line_safe entry.1 = true) (stacks item.2))
    process_profiles ->
  concatenate_profiles json_dumps process_profiles client enrichment_options
    metadata metrics
  = Ok (text, client') ->
  Counter.get (parse_one_collapsed text None) signature
  = samples_of signature process_profiles.
Proof.
  intros Hv1 Hid Hdumps Hsafe Hrun.
  destruct (concatenate_profiles_v1 _ _ _ _ _ _ _ Hv1 Hid Hrun)
    as (document & -> & _).
  unfold parse_one_collapsed. rewrite splitlines_join.
  2: { constructor.
       - split; [done|]. pose proof (Hdumps document) as Hdoc.
         unfold one_line in *. by rewrite all_chars_app, Hdoc.
       - apply plain_lines_ok. eapply Forall_impl; [exact Hsafe|].
         by intros item [_ ?]. }
  rewrite parse_lines_count. cbn [spec_entries].
  assert (spec_entry None ("# " +:+ json_dumps document) = None) as -> by done.
  by rewrite spec_count_plain_lines.
Qed.

End Output.

(** ** More on the parsers *)

Section DictMap.
Context {V : Type}.
Variable f : string -> string.
Hypothesis f_inj : forall a b, f a = f b -> a = b.

Lemma dict_get_map_key (d : Dict.t string V) k :
  Dict.get (map (fun e => (f e.1, e.2)) d) (f k) = Dict.get d k.
Proof.
  induction d as [|[k0 v0] d IH]; simpl; [done|].
  destruct (decide (k0 = k)) as [->|Hne].
  - by rewrite decide_True.
  - rewrite decide_False; [done|]. intros Heq. by apply Hne, f_inj.
Qed.

Lemma dict_set_map_key (d : Dict.t string V) k v :
  Dict.set (map (fun e => (f e.1, e.2)) d) (f k) v
  = map (fun e => (f e.1, e.2)) (Dict.set d k v).
Proof.
  induction d as [|[k0 v0] d IH]; simpl; [done|].
  destruct (decide (k0 = k)) as [->|Hne].
  - by rewrite decide_True.
  - rewrite decide_False; [by rewrite IH|]. intros Heq. by apply Hne, f_inj.
Qed.

End DictMap.

Lemma dict_set_set {K V : Type} `{EqDecision K} (d : Dict.t K V) k v v' :
  Dict.set (Dict.set d k v) k v' = Dict.set d k v'.
Proof.
  induction d as [|[k0 v0] d IH]; simpl.
  - by rewrite decide_True.
  - destruct (decide (k0 = k)); simpl.
    + by rewrite decide_True.
    + rewrite decide_False by done. by rewrite IH.
Qed.

Lemma under_root_inj comm a b :
  comm +:+ ";" +:+ a = comm +:+ ";" +:+ b -> a = b.
Proof. intros Heq. by do 2 apply (inj (String.append _)) in Heq. Qed.

Lemma parse_one_line_root comm stacks line :
  parse_one_line (Some comm) (map (under_root comm) stacks) line
  = map (under_root comm) (parse_one_line None stacks line).
Proof.
  unfold parse_one_line.
  destruct (decide _) as [|_]; [done|]. destruct (Str.startswith _ _); [done|].
  destruct (Str.rpartition " " line) as [stack count].
  destruct (Str.int count) as [n|]; [|done]. cbn [bind].
  unfold Counter.add, Counter.get, under_root.
  rewrite (dict_get_map_key (fun k => comm +:+ ";" +:+ k) (under_root_inj comm)).
  by rewrite (dict_set_map_key (fun k => comm +:+ ";" +:+ k)
                (under_root_inj comm)).
Qed.

(** X3. A root frame given to [parse_one_collapsed] only renames the stacks:
    the result is the result without a root, with the root frame and a
    semicolon put before every signature; counts and order are the same. *)
Theorem parse_one_collapsed_add_comm (text comm : string) :
  parse_one_collapsed text (Some comm)
  = map (under_root comm) (parse_one_collapsed text None).
Proof.
  unfold parse_one_collapsed.
  change (@nil (string * Z)) with (map (under_root comm) []) at 1.
  generalize (@nil (string * Z)).
  induction (Str.splitlines text) as [|line lines IH]; intros stacks; [done|].
  cbn [fold_left]. by rewrite parse_one_line_root, IH.
Qed.

(** *** Process ids are never negative *)

Lemma digit_value_nonneg c d : Str.digit_value c = Some d -> 0 <= d.
Proof.
  unfold Str.digit_value.
  destruct (_ && _)%bool eqn:Hd; [|done]. intros [= <-].
  apply andb_true_iff in Hd as [?%N.leb_le _]. lia.
Qed.

Lemma int_digits_nonneg acc seen s n :
  0 <= acc -> Str.int_digits acc seen s = Some n -> 0 <= n.
Proof.
  revert acc seen. induction s as [|c s IH]; intros acc seen Hacc; simpl.
  - destruct seen; [|done]. by intros [= <-].
  - destruct (Str.digit_value c) as [d|] eqn:Hd.
    + apply IH. apply digit_value_nonneg in Hd. lia.
    + destruct (_ && _)%bool; [by apply IH|done].
Qed.

(** A text without a minus sign reads as a number that is not negative. *)
Lemma int_no_minus s n :
  Str.all_chars (is_not "-") s = true -> Str.int s = Ok n -> 0 <= n.
Proof.
  intros Hs. unfold Str.int, Str.strip_with.
  pose proof (all_chars_rstrip (is_not "-") Str.int_space _
                (all_chars_lstrip (is_not "-") Str.int_space _ Hs)) as Ht.
  destruct (Str.rstrip_with _ _) as [|c d]; [done|].
  simpl in Ht. apply andb_true_iff in Ht as [Hc _].
  unfold is_not in Hc. apply negb_true_iff in Hc. rewrite Hc.
  destruct (Ascii.eqb c "+").
  - destruct (Str.int_digits 0 false d) as [m|] eqn:Hm; [|done].
    intros [= <-]. by eapply int_digits_nonneg.
  - destruct (Str.int_digits 0 false (String c d)) as [m|] eqn:Hm; [|done].
    intros [= <-]. by eapply int_digits_nonneg.
Qed.

Lemma cut_last_no_sep sep s a b :
  Str.cut_last sep s = Some (a, b) -> Str.all_chars (is_not sep) b = true.
Proof.
  revert a. induction s as [|c s IH]; simpl; [done|]. intros a.
  destruct (Str.cut_last sep s) as [[a' b']|] eqn:Hcut.
  - intros [= <- <-]. by eapply IH.
  - destruct (Ascii.eqb c sep); [|done]. intros [= <- <-].
    clear IH. induction s as [|c' s IH]; simpl in *; [done|].
    destruct (Str.cut_last sep s) as [[a' b']|]; [done|].
    unfold is_not at 1. destruct (Ascii.eqb c' sep); [done|]. by apply IH.
Qed.

Lemma cut_first_head p sep s a b :
  Str.cut_first sep s = Some (a, b) ->
  Str.all_chars p s = true -> Str.all_chars p a = true.
Proof.
  revert a. induction s as [|c s IH]; simpl; [done|]. intros a.
  destruct (Ascii.eqb c sep); [by intros [= <- <-]|].
  destruct (Str.cut_first sep s) as [[a' b']|]; [|done].
  intros [= <- <-] [Hc Hs]%andb_true_iff. simpl. rewrite Hc. by eapply IH.
Qed.

Lemma split_head_chars p sep s :
  Str.all_chars p s = true -> Str.all_chars p (Str.split_head sep s) = true.
Proof.
  unfold Str.split_head. intros Hs.
  destruct (Str.cut_first sep s) as [[a b]|] eqn:Hcut; [|done].
  by eapply cut_first_head.
Qed.

(** What one line does to the mapping: nothing, a new empty counter, or a
    new value for one counter; the process id it touches is read from a text
    without a minus sign. *)
Lemma parse_many_try_cases results line :
  (parse_many_try results line).2 = results
  \/ exists pid counter,
       0 <= pid
       /\ (parse_many_try results line).2 = Dict.set results pid counter.
Proof.
  unfold parse_many_try.
  destruct (Str.unpack2 (Str.rsplit1 " " line)) as [[stack count]|]; [|by left].
  destruct (Str.unpack2 (Str.split1 ";" stack)) as [[ident stack']|]; [|by left].
  unfold Str.rsplit1.
  destruct (Str.cut_last "-" ident) as [[comm pid_tid]|] eqn:Hcut; [|by left].
  cbn [Str.unpack2].
  destruct (Str.int (Str.split_head "/" pid_tid)) as [pid|] eqn:Hpid; [|by left].
  assert (0 <= pid) as Hnonneg.
  { eapply int_no_minus; [|exact Hpid].
    apply split_head_chars. by eapply cut_last_no_sep. }
  unfold results_getitem.
  destruct (Dict.get results pid) as [counter|] eqn:Hget.
  - destruct (Str.int count) as [n|]; [|by left].
    right. eexists pid, _. by split.
  - right. destruct (Str.int count) as [n|].
    + exists pid. eexists. split; [done|]. cbn [snd]. apply dict_set_set.
    + by exists pid, [].
Qed.

Lemma parse_many_line_keys results bad_lines line results' bad_lines' :
  parse_many_line (results, bad_lines) line = Ok (results', bad_lines') ->
  Forall (fun pid => 0 <= pid) (Dict.keys results) ->
  Forall (fun pid => 0 <= pid) (Dict.keys results').
Proof.
  unfold parse_many_line. intros Hline Hkeys.
  pose proof (parse_many_try_cases results line) as Hcases.
  assert (results' = (parse_many_try results line).2) as ->.
  { destruct (parse_many_try results line) as [[[]|e] results1];
      [|destruct e; try done]; by injection Hline as <- _. }
  destruct Hcases as [->|(pid & counter & Hpid & ->)]; [done|].
  apply Forall_forall. intros k [->|Hin]%dict_keys_set; [done|].
  by eapply Forall_forall in Hkeys.
Qed.

Lemma parse_many_loop_keys lines results bad_lines results' bad_lines' :
  parse_many_loop lines (results, bad_lines) = Ok (results', bad_lines') ->
  Forall (fun pid => 0 <= pid) (Dict.keys results) ->
  Forall (fun pid => 0 <= pid) (Dict.keys results').
Proof.
  revert results bad_lines.
  induction lines as [|line lines IH]; intros results bad_lines;
    cbn [parse_many_loop].
  - by intros [= <- <-].
  - destruct (parse_many_line (results, bad_lines) line) as [[r1 b1]|] eqn:Hline;
      cbn [bind]; [|done].
    intros Hloop Hkeys. eapply IH; [exact Hloop|].
    by eapply parse_many_line_keys.
Qed.

(** X4. [parse_many_collapsed] always returns, and no process id of its result
    is negative: the text of the id comes after the last hyphen of the
    identity portion. *)
Theorem parse_many_collapsed_pids_not_negative (text : string) :
  exists results,
    parse_many_collapsed text = Ok results
    /\ Forall (fun pid => 0 <= pid) (Dict.keys results).
Proof.
  unfold parse_many_collapsed, parse_many_collapsed_log.
  destruct (parse_many_loop_ok (Str.splitlines text) ([], []))
    as [[results bad_lines] Hloop].
  rewrite Hloop. exists results. split; [done|].
  eapply parse_many_loop_keys; [exact Hloop|]. constructor.
Qed.

(** *** A well-formed line *)

Lemma digits_not sep n :
  is_digit sep = false -> sep <> "-"%char ->
  Str.all_chars (is_not sep) (Str.of_int n) = true.
Proof.
  intros Hsep Hminus. eapply all_chars_impl; [|apply of_int_chars].
  intros c Hc. unfold is_not. apply negb_true_iff.
  destruct (Ascii.eqb_spec c sep) as [->|]; [|done].
  unfold is_int_char in Hc. rewrite Hsep in Hc. simpl in Hc.
  by apply Ascii.eqb_eq in Hc.
Qed.

Lemma digits_not_minus n :
  0 <= n -> Str.all_chars (is_not "-") (Str.of_int n) = true.
Proof.
  intros Hn. eapply all_chars_impl; [|by apply of_int_digits].
  intros c Hc. unfold is_not. apply negb_true_iff.
  by destruct (Ascii.eqb_spec c "-") as [->|].
Qed.

Lemma parse_many_try_perf_line results comm pid tid stack count :
  0 <= pid -> 0 <= tid -> Str.all_chars (is_not ";") comm = true ->
  parse_many_try results (perf_line comm pid tid stack count)
  = (Ok tt,
     Dict.set results pid
       (Counter.add (default [] (Dict.get results pid))
          (comm +:+ ";" +:+ stack) count)).
Proof.
  intros Hpid Htid Hcomm. unfold parse_many_try, perf_line.
  set (ident := comm +:+ "-" +:+ Str.of_int pid +:+ "/" +:+ Str.of_int tid).
  assert (comm +:+ "-" +:+ Str.of_int pid +:+ "/" +:+ Str.of_int tid +:+ ";"
            +:+ stack +:+ " " +:+ Str.of_int count
          = (ident +:+ String ";" stack) +:+ String " " (Str.of_int count)) as ->.
  { unfold ident. by rewrite !str_app_assoc. }
  unfold Str.rsplit1 at 1. rewrite cut_last_app by apply of_int_no_space.
  cbn [Str.unpack2]. unfold Str.split1.
  rewrite cut_first_app.
  2: { unfold ident. rewrite !all_chars_app, Hcomm.
       by rewrite (digits_not ";" pid), (digits_not ";" tid). }
  cbn [Str.unpack2]. unfold Str.rsplit1, ident.
  change ("-" +:+ Str.of_int pid +:+ "/" +:+ Str.of_int tid)
    with (String "-" (Str.of_int pid +:+ "/" +:+ Str.of_int tid)).
  rewrite cut_last_app.
  2: { rewrite !all_chars_app.
       by rewrite (digits_not_minus pid), (digits_not_minus tid). }
  cbn [Str.unpack2]. unfold Str.split_head.
  change ("/" +:+ Str.of_int tid) with (String "/" (Str.of_int tid)).
  rewrite cut_first_app by by apply digits_not.
  rewrite !int_of_int. unfold results_getitem, Counter.add.
  destruct (Dict.get results pid) as [counter|]; cbn [default]; [done|].
  by rewrite dict_set_set.
Qed.

(** X5. A line in the form of [perf script]'s collapsed output - command,
    hyphen, process id, slash, thread id, semicolon, stack, space, count -
    with ids that are not negative and a command without a semicolon is
    never a bad line: it adds its count, under the process id, to the
    signature made of the command and the stack. The thread id is dropped;
    the command may hold hyphens and spaces. *)
Theorem parse_many_perf_line (results : ProcessToStackSampleCounters)
  (bad_lines : list string) (comm : string) (pid tid : Z) (stack : string)
  (count : Z) :
  0 <= pid -> 0 <= tid -> Str.all_chars (is_not ";") comm = true ->
  exists results',
    parse_many_line (results, bad_lines) (perf_line comm pid tid stack count)
    = Ok (results', bad_lines)
    /\ (forall q signature,
          sample_count results' q signature
          = sample_count results q signature
            + if decide (q = pid /\ signature = comm +:+ ";" +:+ stack)
              then count else 0).
Proof.
  intros Hpid Htid Hcomm. unfold parse_many_line.
  rewrite parse_many_try_perf_line by done.
  eexists. split; [done|]. intros q signature. unfold sample_count.
  destruct (decide (q = pid)) as [->|Hq].
  - rewrite dict_get_set_eq, counter_get_add.
    destruct (Dict.get results pid) as [counter|]; cbn [default];
      repeat case_decide; subst; unfold id, Counter.get; cbn [Dict.get];
      first [lia | exfalso; naive_solver].
  - rewrite dict_get_set_ne by done. rewrite decide_False by naive_solver.
    destruct (Dict.get results q); lia.
Qed.

(** *** Bad lines *)

Lemma parse_many_try_bad results line e results' :
  parse_many_try results line = (Raise e, results') ->
  results' = results
  \/ exists pid, Dict.get results pid = None /\ results' = Dict.set results pid [].
Proof.
  unfold parse_many_try.
  destruct (Str.unpack2 (Str.rsplit1 " " line)) as [[stack count]|];
    [|intros [= _ <-]; by left].
  destruct (Str.unpack2 (Str.split1 ";" stack)) as [[ident stack']|];
    [|intros [= _ <-]; by left].
  destruct (Str.unpack2 (Str.rsplit1 "-" ident)) as [[comm pid_tid]|];
    [|intros [= _ <-]; by left].
  destruct (Str.int (Str.split_head "/" pid_tid)) as [pid|];
    [|intros [= _ <-]; by left].
  unfold results_getitem.
  destruct (Dict.get results pid) as [counter|] eqn:Hget;
    destruct (Str.int count) as [n|]; try done; intros [= _ <-].
  - by left.
  - right. by exists pid.
Qed.

(** X6. A line that [parse_many_collapsed] records as bad changes no count:
    the samples of every process and signature are what they were before
    the line. *)
Theorem parse_many_bad_line_keeps_counts
  (results results' : ProcessToStackSampleCounters)
  (bad_lines bad_lines' : list string) (line : string) :
  parse_many_line (results, bad_lines) line = Ok (results', bad_lines') ->
  bad_lines' <> bad_lines ->
  bad_lines' = bad_lines ++ [line]
  /\ forall pid signature,
       sample_count results' pid signature = sample_count results pid signature.
Proof.
  unfold parse_many_line.
  destruct (parse_many_try results line) as [[[]|e] results1] eqn:Htry.
  - by intros [= <- <-].
  - destruct e; try done. intros [= <- <-] _. split; [done|].
    intros pid signature. unfold sample_count.
    apply parse_many_try_bad in Htry as [->|(q & Hnone & ->)]; [done|].
    destruct (decide (q = pid)) as [->|Hq].
    + by rewrite dict_get_set_eq, Hnone.
    + by rewrite dict_get_set_ne.
Qed.

(** ** More on the sample scaler *)

Section DictMore.
Context {K V : Type} `{EqDecision K}.
Implicit Types (d : Dict.t K V) (k : K) (v : V).

Lemma dict_set_fresh d k v :
  k ∉ Dict.keys d -> Dict.set d k v = d ++ [(k, v)].
Proof.
  unfold Dict.keys. induction d as [|[k0 v0] d IH]; simpl; [done|].
  intros [Hne Hnotin]%not_elem_of_cons.
  rewrite decide_False by done. by rewrite IH.
Qed.

Lemma dict_get_elem_of d k v : Dict.get d k = Some v -> (k, v) ∈ d.
Proof.
  induction d as [|[k0 v0] d IH]; simpl; [done|].
  destruct (decide (k0 = k)) as [->|Hne].
  - intros [= ->]. apply list_elem_of_here.
  - intros Hget. apply list_elem_of_further. by apply IH.
Qed.

Lemma dict_elem_of_get d k v :
  NoDup (Dict.keys d) -> (k, v) ∈ d -> Dict.get d k = Some v.
Proof.
  unfold Dict.keys. induction d as [|[k0 v0] d IH]; simpl.
  - by intros _ ?%elem_of_nil.
  - intros [Hnotin Hnd]%NoDup_cons [[= -> ->]|Hin]%elem_of_cons.
    + by rewrite decide_True.
    + rewrite decide_False; [by apply IH|]. intros ->. apply Hnotin.
      apply list_elem_of_fmap. by exists (k, v).
Qed.

End DictMore.

Lemma scale_one_source count ratio g v g' :
  scale_one count ratio g = Ok (v, g') -> g' = fun i => g (S i).
Proof.
  unfold scale_one. destruct (Float.int_mul count ratio) as [x|]; [|done].
  cbn [bind]. unfold random.
  destruct (if Float.le _ _ then _ else _) as [w|]; [|done].
  cbn. by intros [= _ <-].
Qed.

Lemma scale_one_finite count ratio g r :
  scale_one count ratio g = Ok r -> product_finite count ratio = true.
Proof.
  unfold scale_one, product_finite.
  destruct (Float.int_mul count ratio) as [x|]; [|done]. cbn [bind].
  unfold random. destruct x as [s|s| |s m e]; try done.
  - by destruct (Float.le _ _).
  - by destruct (Float.le _ _).
Qed.

Lemma scale_loop_finite items ratio acc g r :
  scale_loop items ratio acc g = Ok r ->
  Forall (fun entry => product_finite entry.2 ratio = true) items.
Proof.
  revert acc g. induction items as [|[stack count] items IH]; intros acc g.
  - constructor.
  - cbn [scale_loop].
    destruct (scale_one count ratio g) as [[v g1]|] eqn:Hone; [|done].
    cbn [bind]. intros Hloop. constructor.
    + by eapply scale_one_finite.
    + destruct (v =? 0); by eapply IH.
Qed.

Lemma scale_loop_returns items ratio acc g :
  Forall (fun entry => product_finite entry.2 ratio = true) items ->
  exists r, scale_loop items ratio acc g = Ok r.
Proof.
  intros Hfin. revert acc g.
  induction Hfin as [|[stack count] items Hcount _ IH]; intros acc g.
  - by eexists.
  - cbn [scale_loop].
    destruct (scale_one_rounded count ratio g Hcount) as (x & _ & ->).
    cbn [bind]. destruct (_ =? 0); apply IH.
Qed.

(** X7. [scale_sample_counts] returns exactly when the ratio is 1 or every
    product [count * ratio] is a zero or a finite float; it raises when a
    count is too large for a float or a product is infinite or not a
    number. *)
Theorem scale_sample_counts_returns_iff (stacks : StackToSampleCount)
  (ratio : Float.t) (g : Random) :
  (exists r, scale_sample_counts stacks ratio g = Ok r)
  <-> Float.eq_int ratio 1 = true
      \/ Forall (fun entry => product_finite entry.2 ratio = true) stacks.
Proof.
  unfold scale_sample_counts. destruct (Float.eq_int ratio 1); split.
  - by left.
  - by eexists.
  - intros [r Hr]. right. by eapply scale_loop_finite.
  - intros [|Hfin]; [done|]. by apply scale_loop_returns.
Qed.

Lemma scale_loop_draws items ratio acc g scaled g' i :
  scale_loop items ratio acc g = Ok (scaled, g') ->
  g' i = g (length items + i)%nat.
Proof.
  revert acc g. induction items as [|[stack count] items IH]; intros acc g.
  - cbn. by intros [= _ <-].
  - cbn [scale_loop].
    destruct (scale_one count ratio g) as [[v g1]|] eqn:Hone; [|done].
    cbn [bind]. apply scale_one_source in Hone as ->.
    intros Hloop. destruct (v =? 0); by rewrite (IH _ _ Hloop).
Qed.

(** X8. [scale_sample_counts] draws one random number per entry of the mapping,
    also for the entries it leaves out, and none when the ratio is 1. *)
Theorem scale_sample_counts_draws (stacks : StackToSampleCount)
  (ratio : Float.t) (g : Random) (scaled : StackToSampleCount) (g' : Random)
  (i : nat) :
  scale_sample_counts stacks ratio g = Ok (scaled, g') ->
  g' i = g ((if Float.eq_int ratio 1 then 0 else length stacks) + i)%nat.
Proof.
  unfold scale_sample_counts. destruct (Float.eq_int ratio 1).
  - by intros [= _ <-].
  - apply scale_loop_draws.
Qed.

(** What the loop adds to the mapping it fills: new entries at its end, for
    stacks of the input in their order, each with a value that one turn of
    the loop computed and that is not zero. *)
Lemma scale_loop_entries items ratio acc g scaled g' :
  NoDup (Dict.keys items) ->
  (forall k, k ∈ Dict.keys items -> k ∉ Dict.keys acc) ->
  scale_loop items ratio acc g = Ok (scaled, g') ->
  exists new,
    scaled = acc ++ new
    /\ sublist (Dict.keys new) (Dict.keys items)
    /\ Forall (fun entry =>
                 exists count g0 g1,
                   (entry.1, count) ∈ items
                   /\ scale_one count ratio g0 = Ok (entry.2, g1)
                   /\ entry.2 <> 0) new.
Proof.
  revert acc g. induction items as [|[stack count] items IH]; intros acc g.
  - cbn. intros _ _ [= <- _]. exists []. rewrite app_nil_r.
    split_and!; [done|done|constructor].
  - unfold Dict.keys. cbn [map fst]. fold (Dict.keys items).
    intros [Hfresh Hnd]%NoDup_cons Hdisj. cbn [scale_loop].
    destruct (scale_one count ratio g) as [[v g1]|] eqn:Hone; [|done].
    cbn [bind]. destruct (Z.eqb_spec v 0) as [->|Hv]; intros Hloop.
    + apply IH in Hloop as (new & -> & Hsub & Hall); [|done|].
      2: { intros k Hk. apply Hdisj, elem_of_cons. by right. }
      exists new. split_and!; [done|by apply sublist_cons|].
      eapply Forall_impl; [exact Hall|].
      intros entry (c & g0 & g2 & Hin & Hrun & Hne).
      exists c, g0, g2. split_and!; [by apply list_elem_of_further|done..].
    + apply IH in Hloop as (new & -> & Hsub & Hall); [|done|].
      2: { intros k Hk [->|Hin]%dict_keys_set; [done|].
           revert Hin. apply Hdisj, elem_of_cons. by right. }
      rewrite dict_set_fresh.
      2: { apply Hdisj, elem_of_cons. by left. }
      exists ((stack, v) :: new). rewrite <- List.app_assoc.
      split_and!; [done|by apply sublist_skip|].
      constructor.
      * exists count, g, g1. split_and!; [apply list_elem_of_here|done..].
      * eapply Forall_impl; [exact Hall|].
        intros entry (c & g0 & g2 & Hin & Hrun & Hne).
        exists c, g0, g2. split_and!; [by apply list_elem_of_further|done..].
Qed.

(** X9. [scale_sample_counts] invents no stack and keeps the order: the stacks
    of the result are stacks of the mapping, in the order of the mapping;
    and with a ratio other than 1 the value of each is not zero and less
    than one away from the product of the stack's count and the ratio. *)
Theorem scale_sample_counts_entries (stacks : StackToSampleCount)
  (ratio : Float.t) (g : Random) (scaled : StackToSampleCount) (g' : Random) :
  NoDup (Dict.keys stacks) ->
  scale_sample_counts stacks ratio g = Ok (scaled, g') ->
  sublist (Dict.keys scaled) (Dict.keys stacks)
  /\ forall stack v,
       Dict.get scaled stack = Some v ->
       exists count,
         Dict.get stacks stack = Some count
         /\ if Float.eq_int ratio 1 then v = count
            else v <> 0
                 /\ (inject_Z v - 1 < product_value count ratio
                     /\ product_value count ratio < inject_Z v + 1)%Q.
Proof.
  intros Hnd. unfold scale_sample_counts.
  destruct (Float.eq_int ratio 1).
  - intros [= <- _]. split; [done|]. intros stack v Hget. by exists v.
  - intros Hloop.
    apply scale_loop_entries in Hloop as (new & -> & Hsub & Hall); [|done|].
    2: { intros k _. apply not_elem_of_nil. }
    split; [done|]. intros stack v Hget.
    apply dict_get_elem_of in Hget.
    eapply Forall_forall in Hall as (count & g0 & g1 & Hin & Hrun & Hne);
      [|exact Hget].
    exists count. split; [by apply dict_elem_of_get|].
    split; [done|]. by eapply scale_one_bounds.
Qed.

(** *** Whole products *)

Lemma mantissa_whole s m e :
  (0 <=? e) || (Z.pos m mod 2 ^ (- e) =? 0) = true ->
  0 <= e \/ cond_Zopp s (Z.pos m) mod 2 ^ (- e) = 0.
Proof.
  intros [Hpos%Z.leb_le|Hmod%Z.eqb_eq]%orb_true_iff; [by left|right].
  destruct s; simpl; [|done].
  change (Z.neg m) with (- Z.pos m). by apply Z_mod_zero_opp_full.
Qed.

Lemma dyadic_whole m e :
  (0 <= e \/ m mod 2 ^ (- e) = 0) ->
  (Float.dyadic m e == inject_Z (Z.shiftl m e))%Q.
Proof.
  intros Hwhole.
  destruct (dyadic_floor m e) as [Hlo _].
  destruct (dyadic_floor (- m) e) as [Hlo' _].
  rewrite dyadic_opp in Hlo'.
  pose proof (ceil_floor_exact m e Hwhole) as Heq.
  assert (Z.shiftl (- m) e = - Z.shiftl m e) as Hopp by lia.
  rewrite Hopp, inject_Z_opp in Hlo'. lra.
Qed.

Lemma scale_one_whole count ratio :
  product_whole count ratio = true ->
  exists v,
    (inject_Z v == product_value count ratio)%Q
    /\ forall g, scale_one count ratio g = Ok (v, fun i => g (S i)).
Proof.
  unfold product_whole, scale_one, product_value, Float.to_Q.
  destruct (Float.int_mul count ratio) as [x|]; [|done].
  destruct x as [s|s| |s m e]; try done.
  - intros _. exists 0. split; [done|]. intros g. cbn [bind]. unfold random.
    by destruct (Float.le _ _).
  - intros Hwhole%(mantissa_whole s). exists (Z.shiftl (cond_Zopp s (Z.pos m)) e).
    split; [symmetry; by apply dyadic_whole|].
    intros g. cbn [bind]. unfold random, Float.ceil, Float.floor.
    cbn [Float.mantissa Float.exponent].
    rewrite ceil_floor_exact by done. by destruct (Float.le _ _).
Qed.

Lemma scale_loop_whole items ratio acc :
  Forall (fun entry => product_whole entry.2 ratio = true) items ->
  NoDup (Dict.keys items) ->
  (forall k, k ∈ Dict.keys items -> k ∉ Dict.keys acc) ->
  exists new,
    (forall g, exists g', scale_loop items ratio acc g = Ok (acc ++ new, g'))
    /\ Forall (fun entry =>
                 exists count,
                   (entry.1, count) ∈ items
                   /\ (inject_Z entry.2 == product_value count ratio)%Q) new.
Proof.
  intros Hwhole. revert acc.
  induction Hwhole as [|[stack count] items Hcount _ IH]; intros acc.
  - intros _ _. exists []. split; [|constructor].
    intros g. exists g. by rewrite app_nil_r.
  - unfold Dict.keys. cbn [map fst]. fold (Dict.keys items).
    intros [Hfresh Hnd]%NoDup_cons Hdisj.
    destruct (scale_one_whole count ratio Hcount) as (v & Hv & Hrun).
    destruct (Z.eqb_spec v 0) as [Hzero|Hnonzero].
    + destruct (IH acc Hnd) as (new & Hnew & Hall).
      { intros k Hk. apply Hdisj, elem_of_cons. by right. }
      exists new. split.
      * intros g. cbn [scale_loop]. rewrite Hrun. cbn [bind].
        subst v. cbn. apply Hnew.
      * eapply Forall_impl; [exact Hall|]. intros entry (c & Hin & Hc).
        exists c. split; [by apply list_elem_of_further|done].
    + destruct (IH (Dict.set acc stack v) Hnd) as (new & Hnew & Hall).
      { intros k Hk [->|Hin]%dict_keys_set; [done|].
        revert Hin. apply Hdisj, elem_of_cons. by right. }
      exists ((stack, v) :: new). split.
      * intros g. cbn [scale_loop]. rewrite Hrun. cbn [bind].
        apply Z.eqb_neq in Hnonzero. rewrite Hnonzero.
        destruct (Hnew (fun i => g (S i))) as [g' ->]. exists g'.
        rewrite dict_set_fresh, <- List.app_assoc; [done|].
        apply Hdisj, elem_of_cons. by left.
      * constructor.
        -- exists count. split; [apply list_elem_of_here|done].
        -- eapply Forall_impl; [exact Hall|]. intros entry (c & Hin & Hc).
           exists c. split; [by apply list_elem_of_further|done].
Qed.

(** X10. When every product [count * ratio] is a whole number, the draws do not
    matter: [scale_sample_counts] returns the same mapping whatever they
    are, and the value of each of its stacks is the product itself. *)
Theorem scale_sample_counts_whole_products (stacks : StackToSampleCount)
  (ratio : Float.t) :
  NoDup (Dict.keys stacks) ->
  Float.eq_int ratio 1 = false ->
  Forall (fun entry => product_whole entry.2 ratio = true) stacks ->
  exists scaled,
    (forall g, exists g', scale_sample_counts stacks ratio g = Ok (scaled, g'))
    /\ forall stack v,
         Dict.get scaled stack = Some v ->
         exists count,
           Dict.get stacks stack = Some count
           /\ (inject_Z v == product_value count ratio)%Q.
Proof.
  intros Hnd Hone Hwhole. unfold scale_sample_counts. rewrite Hone.
  destruct (scale_loop_whole stacks ratio [] Hwhole Hnd)
    as (new & Hrun & Hall).
  { intros k _. apply not_elem_of_nil. }
  exists new. split; [exact Hrun|].
  intros stack v Hget%dict_get_elem_of.
  eapply Forall_forall in Hall as (count & Hin & Hv); [|exact Hget].
  exists count. split; [by apply dict_elem_of_get|done].
Qed.

(** *** A ratio that is no number *)







(** ** More on [concatenate_profiles] and [merge_profiles] *)

Lemma int_true_div_same n :
  0 < n ->
  Float.int_true_div n n = Ok (S754_finite false 4503599627370496 (-52)).
Proof.
  intros Hn. destruct n as [|p|p]; try lia.
  unfold Float.int_true_div. cbn [Z.ltb Z.compare xorb].
  unfold SFdiv_core_binary. change (Z.abs (Z.pos p)) with (Z.pos p).
  replace (Zdigits2 (Z.pos p) + 0 - (Zdigits2 (Z.pos p) + 0)) with 0 by lia.
  change (0 - 0 - fexp Float.prec Float.emax 0 `min` (0 - 0)) with 53.
  change (fexp Float.prec Float.emax 0 `min` (0 - 0)) with (-53).
  cbv iota.
  assert (IntDef.Z.div_eucl (Z.pos p ≪ 53) (Z.pos p) = (2 ^ 53, 0)) as ->.
  { change IntDef.Z.div_eucl with Z.div_eucl.
    rewrite Z.shiftl_mul_pow2 by lia.
    assert (forall a b, Z.div_eucl a b = (a / b, a mod b)) as ->.
    { intros a b. unfold Z.div, Z.modulo. by destruct (Z.div_eucl a b). }
    by rewrite Z.mul_comm, Z.div_mul, Z.mod_mul. }
  assert (new_location (Z.pos p) 0 = loc_Exact) as ->.
  { unfold new_location. destruct (Z.even _); reflexivity. }
  by vm_compute.
Qed.

Lemma dict_keys_set_list {K V : Type} `{EqDecision K} (d : Dict.t K V) k v :
  Dict.keys (Dict.set d k v)
  = Dict.keys d ++ if decide (k ∈ Dict.keys d) then [] else [k].
Proof.
  unfold Dict.keys. induction d as [|[k0 v0] d IH]; cbn [Dict.set map fst].
  - destruct (decide (k ∈ [])) as [Hin|_]; [by apply elem_of_nil in Hin|done].
  - destruct (decide (k0 = k)) as [->|Hne]; cbn [map fst].
    + destruct (decide (k ∈ k :: map fst d)) as [_|Hnotin];
        [by rewrite app_nil_r|].
      exfalso. apply Hnotin, list_elem_of_here.
    + rewrite IH. cbn [app]. f_equal. f_equal.
      destruct (decide (k ∈ map fst d)) as [Hin|Hnotin];
        destruct (decide (k ∈ k0 :: map fst d)) as [Hin'|Hnotin']; try done.
      * exfalso. by apply Hnotin', list_elem_of_further.
      * apply elem_of_cons in Hin' as [?|?]; congruence.
Qed.

Section MergeMore.
Context {AppMetadata : Type} `{EqDecision AppMetadata}.
Context {MetaValue Metrics Client : Type}.
Context `{client_ops : ContainerNamesClient Client}.
Context `{error_stack : ProfilingErrorStack}.
Variable json_dumps : ProfileMetadata AppMetadata MetaValue Metrics -> string.

Implicit Types (perf merged : ProcessToProfileData AppMetadata).
Implicit Types (candidates : list (Z * ProfileData AppMetadata)).

(** *** The container-names client *)

Lemma concatenate_loop_resolves enrichment_options
  (items : list (Z * ProfileData AppMetadata))
  (st st' : ConcatState AppMetadata Client) :
  concatenate_loop enrichment_options items st = Ok st' ->
  cs_client st'
  = client_after_lines (cs_client st) enrichment_options (Dict.keys items).
Proof.
  revert st. induction items as [|[pid profile] items IH]; intros st.
  - cbn. intros [= <-]. unfold client_after_lines.
    destruct (cs_client st); [|done]. by destruct (_ && _).
  - cbn [concatenate_loop]. unfold concatenate_step at 1.
    unfold _enrich_pid_stacks, _get_container_name.
    destruct (register_app_metadata _ _) as [[idx table]|]; [|done].
    cbn [bind]. unfold client_after_lines, resolve_all, Dict.keys.
    cbn [map fst fold_left].
    destruct (cs_client st) as [c|] eqn:Hc;
      destruct (not_v1 enrichment_options) eqn:Hv;
      destruct (container_names_option enrichment_options) eqn:Hopt;
      try destruct (get_container_name c pid) as [name c1] eqn:Hget;
      cbn; intros Hloop; rewrite (IH _ Hloop); cbn;
      unfold client_after_lines, resolve_all, Dict.keys;
      rewrite ?Hc, ?Hv, ?Hopt; cbn; try done.
Qed.

(** X12. The container names. With a client and container names on,
    [concatenate_profiles] resolves the container of every process once, in
    the order of the processes - not at all under protocol version v1 -,
    then writes the names the client holds into the header and resets the
    client's cache. With container names off, or without a client, the
    client is left as it was and the header lists no container. The two
    flags of the header say what was on. *)
Theorem concatenate_profiles_container_names
  (process_profiles : ProcessToProfileData AppMetadata)
  (client : option Client) (enrichment_options : EnrichmentOptions)
  (metadata : Metadata MetaValue) (metrics : Metrics)
  (text : string) (client' : option Client) :
  concatenate_profiles json_dumps process_profiles client enrichment_options
    metadata metrics
  = Ok (text, client') ->
  exists document lines,
    text = join newline (("# " +:+ json_dumps document) :: lines)
    /\ pm_application_metadata_enabled document
       = application_metadata_option enrichment_options
    /\ match client_after_lines client enrichment_options
               (Dict.keys process_profiles) with
       | Some c =>
           if container_names_option enrichment_options
           then pm_container_names_enabled document = true
                /\ pm_containers document = container_names c
                /\ client' = Some (reset_cache c)
           else pm_container_names_enabled document = false
                /\ pm_containers document = []
                /\ client' = client
       | None =>
           pm_container_names_enabled document = false
           /\ pm_containers document = []
           /\ client' = None /\ client = None
       end.
Proof.
  unfold concatenate_profiles, concatenate_profiles_lines.
  destruct (concatenate_loop _ _ _) as [st|] eqn:Hloop; [|done].
  cbn [bind]. apply concatenate_loop_resolves in Hloop. cbn in Hloop.
  rewrite Hloop. unfold _make_profile_metadata.
  destruct (Dict.get metadata "profiling_mode") as [mode|].
  2: { by destruct (client_after_lines _ _ _);
         [destruct (container_names_option enrichment_options)|]. }
  unfold client_after_lines.
  destruct client as [c|].
  - destruct (container_names_option enrichment_options) eqn:Hopt.
    + rewrite andb_true_r. destruct (not_v1 enrichment_options);
        cbn; intros [= <- <-]; by eexists _, _.
    + rewrite andb_false_r. cbn. intros [= <- <-]. by eexists _, _.
  - cbn. intros [= <- <-]. by eexists _, _.
Qed.

(** *** One line per stack *)

Lemma concatenate_loop_length enrichment_options
  (items : list (Z * ProfileData AppMetadata))
  (st st' : ConcatState AppMetadata Client) :
  concatenate_loop enrichment_options items st = Ok st' ->
  map fst (cs_lines st')
  = map fst (cs_lines st)
    ++ flat_map (fun item => replicate (length (stacks item.2)) item.1) items.
Proof.
  revert st. induction items as [|[pid profile] items IH]; intros st.
  - cbn. intros [= <-]. by rewrite app_nil_r.
  - cbn [concatenate_loop]. unfold concatenate_step at 1.
    destruct (_enrich_pid_stacks _ _ _ _ _) as [[[e t] c]|]; [|done].
    cbn [bind]. intros Hloop. rewrite (IH _ Hloop). cbn [cs_lines flat_map].
    rewrite map_app, <- List.app_assoc. f_equal. f_equal.
    unfold profile_lines. rewrite map_map. cbn [fst snd].
    clear. induction (stacks profile) as [|[s n] l IHl]; [done|].
    cbn. by rewrite IHl.
Qed.

(** X13. Whatever the options, [concatenate_profiles] writes one line per stack
    of every process, in the order of the processes, after the header
    line. *)
Theorem concatenate_profiles_line_per_stack
  (process_profiles : ProcessToProfileData AppMetadata)
  (client : option Client) (enrichment_options : EnrichmentOptions)
  (metadata : Metadata MetaValue) (metrics : Metrics)
  (header : string) (lines : list (Z * string)) (client' : option Client) :
  concatenate_profiles_lines json_dumps process_profiles client
    enrichment_options metadata metrics
  = Ok (header, lines, client') ->
  map fst lines
  = flat_map (fun item => replicate (length (stacks item.2)) item.1)
      process_profiles
  /\ concatenate_profiles json_dumps process_profiles client
       enrichment_options metadata metrics
     = Ok (join newline (header :: map snd lines), client').
Proof.
  intros Hrun. unfold concatenate_profiles. rewrite Hrun. split; [|done].
  unfold concatenate_profiles_lines in Hrun.
  destruct (concatenate_loop _ _ _) as [st|] eqn:Hloop; [|done].
  cbn [bind] in Hrun.
  destruct (_make_profile_metadata _ _ _ _ _ _ _) as [[h c]|]; [|done].
  cbn in Hrun. injection Hrun as _ <- _.
  by rewrite (concatenate_loop_length _ _ _ _ Hloop).
Qed.

(** *** The loop of [merge_profiles], once more *)

Lemma merge_step_empty (st : ProcessToProfileData AppMetadata * Random) pid
  (profile : ProfileData AppMetadata) :
  stacks profile = [] -> merge_step st (pid, profile) = Ok st.
Proof. destruct st as [perf g]. unfold merge_step. by intros ->. Qed.

Lemma merge_loop_empty candidates
  (st : ProcessToProfileData AppMetadata * Random) :
  Forall (fun item => stacks item.2 = []) candidates ->
  merge_loop candidates st = Ok st.
Proof.
  induction 1 as [|[pid profile] candidates Hempty _ IH]; [done|].
  cbn [merge_loop]. by rewrite merge_step_empty.
Qed.

(** X14. When no candidate profile holds a stack - or there is no candidate at
    all - [merge_profiles] draws no random number and returns what
    [concatenate_profiles] returns for the reference profiles. *)
Theorem merge_profiles_without_samples
  (perf_pid_to_profiles process_profiles : ProcessToProfileData AppMetadata)
  (client : option Client) (enrichment_options : EnrichmentOptions)
  (metadata : Metadata MetaValue) (metrics : Metrics) (g : Random) :
  Forall (fun item => stacks item.2 = []) process_profiles ->
  merge_profiles json_dumps perf_pid_to_profiles process_profiles client
    enrichment_options metadata metrics g
  = let* (text, client') :=
      concatenate_profiles json_dumps perf_pid_to_profiles client
        enrichment_options metadata metrics in
    Ok (text, client', g).
Proof.
  intros Hempty. rewrite merge_profiles_unfold.
  by rewrite merge_loop_empty.
Qed.

(** X15. A candidate profile that holds stacks whose counts do not add up to
    more than zero stops [merge_profiles] with [AssertionError], whatever
    the reference profiles hold. *)
Theorem merge_profiles_asserts_samples
  (perf_pid_to_profiles : ProcessToProfileData AppMetadata)
  (before after : list (Z * ProfileData AppMetadata)) (pid : Z)
  (profile : ProfileData AppMetadata)
  (client : option Client) (enrichment_options : EnrichmentOptions)
  (metadata : Metadata MetaValue) (metrics : Metrics) (g : Random)
  (st : ProcessToProfileData AppMetadata * Random) :
  merge_loop before (perf_pid_to_profiles, g) = Ok st ->
  stacks profile <> [] ->
  Counter.total (stacks profile) <= 0 ->
  merge_profiles json_dumps perf_pid_to_profiles
    (before ++ (pid, profile) :: after) client enrichment_options metadata
    metrics g
  = Raise AssertionError.
Proof.
  intros Hbefore Hne Htotal. rewrite merge_profiles_unfold, merge_loop_app.
  rewrite Hbefore. cbn [bind merge_loop]. destruct st as [perf1 g1].
  unfold merge_step. destruct (stacks profile) as [|entry entries]; [done|].
  apply Z.ltb_ge in Htotal. by rewrite Htotal.
Qed.

Lemma merge_step_frame perf g pid (profile : ProfileData AppMetadata)
  perf' g' q :
  merge_step (perf, g) (pid, profile) = Ok (perf', g') ->
  q <> pid \/ stacks profile = [] ->
  Dict.get perf' q = Dict.get perf q.
Proof.
  intros Hstep [Hne|Hempty]; [by eapply merge_step_other|].
  rewrite merge_step_empty in Hstep by done. by injection Hstep as <- _.
Qed.

(** X16. [merge_profiles] leaves alone every process that has no candidate
    profile, or only one without stacks: the profile the reference holds
    for it, if any, is the one that is written. *)
Theorem merge_loop_keeps_others perf candidates (g : Random) merged
  (g' : Random) (q : Z) :
  merge_loop candidates (perf, g) = Ok (merged, g') ->
  (forall p, (q, p) ∈ candidates -> stacks p = []) ->
  Dict.get merged q = Dict.get perf q.
Proof.
  revert perf g. induction candidates as [|[pid profile] candidates IH];
    intros perf g.
  - cbn. by intros [= <- _].
  - cbn [merge_loop].
    destruct (merge_step (perf, g) (pid, profile)) as [[perf1 g1]|] eqn:Hstep;
      [|done].
    cbn [bind]. intros Hloop Hq. rewrite (IH _ _ Hloop).
    2: { intros p Hp. apply Hq. by apply list_elem_of_further. }
    eapply merge_step_frame; [done|].
    destruct (decide (q = pid)) as [->|]; [right|by left].
    apply Hq, list_elem_of_here.
Qed.

Lemma merge_step_keys perf g pid (profile : ProfileData AppMetadata) perf' g' :
  merge_step (perf, g) (pid, profile) = Ok (perf', g') ->
  Dict.keys perf'
  = Dict.keys perf
    ++ if decide (stacks profile = [] \/ pid ∈ Dict.keys perf) then []
       else [pid].
Proof.
  intros Hstep. destruct (decide (stacks profile = [])) as [Hempty|Hne].
  - rewrite merge_step_empty in Hstep by done. injection Hstep as <- _.
    rewrite decide_True by by left. by rewrite app_nil_r.
  - destruct (merge_step_inv _ _ _ _ _ _ Hstep Hne) as (stacks' & -> & _).
    rewrite dict_keys_set_list. f_equal.
    destruct (decide (pid ∈ Dict.keys perf)).
    + rewrite decide_True; [done|by right].
    + rewrite decide_False; [done|]. by intros [?|?].
Qed.

(** X17. The processes of the merged mapping are those of the reference, in
    their order and first, and then the candidates with stacks that the
    reference did not hold. *)
Theorem merge_loop_processes perf candidates (g : Random) merged
  (g' : Random) :
  merge_loop candidates (perf, g) = Ok (merged, g') ->
  Dict.keys perf `prefix_of` Dict.keys merged
  /\ forall q,
       q ∈ Dict.keys merged
       <-> q ∈ Dict.keys perf
           \/ exists p, (q, p) ∈ candidates /\ stacks p <> [].
Proof.
  revert perf g. induction candidates as [|[pid profile] candidates IH];
    intros perf g.
  - cbn. intros [= <- _]. split; [done|]. intros q. split; [by left|].
    intros [?|(p & Hp & _)]; [done|]. by apply elem_of_nil in Hp.
  - cbn [merge_loop].
    destruct (merge_step (perf, g) (pid, profile)) as [[perf1 g1]|] eqn:Hstep;
      [|done].
    cbn [bind]. intros Hloop. destruct (IH _ _ Hloop) as [Hprefix Hkeys].
    pose proof (merge_step_keys _ _ _ _ _ _ Hstep) as Hstepkeys.
    split.
    + etrans; [|exact Hprefix]. rewrite Hstepkeys. by apply prefix_app_r.
    + intros q. rewrite Hkeys, Hstepkeys, elem_of_app.
      assert ((exists p, (q, p) ∈ (pid, profile) :: candidates /\ stacks p <> [])
              <-> (q = pid /\ stacks profile <> [])
                  \/ exists p, (q, p) ∈ candidates /\ stacks p <> []) as ->.
      { setoid_rewrite elem_of_cons. naive_solver. }
      case_decide; rewrite ?elem_of_nil, ?list_elem_of_singleton; naive_solver.
Qed.

(** X18. What [merge_profiles] stores for a candidate with stacks: the
    candidate's application id and metadata, and for the stacks either the
    error-attach combination, when the reference holds samples for the
    process and the candidate is an error stack, or else the candidate's
    stacks scaled by the ratio of the reference's sample total, zero
    without a reference, to the candidate's. Nothing else of the reference
    profile is kept. *)
Theorem merge_loop_stores_candidate perf candidates (g : Random) merged
  (g' : Random) (pid : Z) (profile : ProfileData AppMetadata) :
  NoDup (Dict.keys candidates) ->
  Dict.get candidates pid = Some profile ->
  stacks profile <> [] ->
  merge_loop candidates (perf, g) = Ok (merged, g') ->
  exists stacks',
    Dict.get merged pid
    = Some {| stacks := stacks';
              appid := appid profile;
              app_metadata := app_metadata profile |}
    /\ 0 < Counter.total (stacks profile)
    /\ let perf_samples_count :=
         match Dict.get perf pid with
         | Some reference => Counter.total (stacks reference)
         | None => 0
         end in
       if (0 <? perf_samples_count) && is_error_stack (stacks profile)
       then exists reference,
              Dict.get perf pid = Some reference
              /\ stacks' = attach_error_to_stacks (stacks reference)
                             (stacks profile)
       else exists ratio g0 g1,
              Float.int_true_div perf_samples_count
                (Counter.total (stacks profile))
              = Ok ratio
              /\ scale_sample_counts (stacks profile) ratio g0
                 = Ok (stacks', g1).
Proof.
  intros Hnd Hcand Hne Hloop.
  destruct (dict_get_split _ _ _ Hnd Hcand) as (l1 & l2 & -> & Hl1 & Hl2).
  rewrite merge_loop_app in Hloop.
  destruct (merge_loop l1 (perf, g)) as [[perf1 g1]|] eqn:H1; [|done].
  cbn [bind merge_loop] in Hloop.
  destruct (merge_step (perf1, g1) (pid, profile)) as [[perf2 g2]|] eqn:H2;
    [|done].
  cbn [bind] in Hloop.
  rewrite (merge_loop_other _ _ _ _ _ _ Hloop Hl2).
  pose proof (merge_loop_other _ _ _ _ _ _ H1 Hl1) as Hsame.
  revert H2. unfold merge_step.
  destruct (stacks profile) as [|entry entries] eqn:Hstacks; [done|].
  destruct (0 <? Counter.total (entry :: entries)) eqn:Hassert; [|done].
  cbn [negb]. rewrite Hsame. cbv zeta.
  destruct (Dict.get perf pid) as [reference|] eqn:Href.
  - destruct ((0 <? Counter.total (stacks reference))
              && is_error_stack (entry :: entries)) eqn:Hattach.
    + cbn. intros [= <- _]. eexists. rewrite dict_get_set_eq.
      split; [done|]. split; [by apply Z.ltb_lt|]. by exists reference.
    + destruct (Float.int_true_div _ _) as [ratio|] eqn:Hdiv; [|done].
      cbn [bind].
      destruct (scale_sample_counts _ ratio g1) as [[stacks' g3]|] eqn:Hscale;
        [|done].
      cbn. intros [= <- _]. exists stacks'. rewrite dict_get_set_eq.
      split; [done|]. split; [by apply Z.ltb_lt|]. by exists ratio, g1, g3.
  - cbn [andb Z.ltb Z.compare].
    destruct (Float.int_true_div _ _) as [ratio|] eqn:Hdiv; [|done].
    cbn [bind].
    destruct (scale_sample_counts _ ratio g1) as [[stacks' g3]|] eqn:Hscale;
      [|done].
    cbn. intros [= <- _]. exists stacks'. rewrite dict_get_set_eq.
    split; [done|]. split; [by apply Z.ltb_lt|]. by exists ratio, g1, g3.
Qed.

(** X19. A candidate whose sample total equals the reference's total for the
    process, and that is no error stack, is stored as it is: the ratio is
    exactly 1 and nothing is scaled. *)
Theorem merge_loop_equal_totals perf candidates (g : Random) merged
  (g' : Random) (pid : Z) (profile reference : ProfileData AppMetadata) :
  NoDup (Dict.keys candidates) ->
  Dict.get candidates pid = Some profile ->
  stacks profile <> [] ->
  Dict.get perf pid = Some reference ->
  Counter.total (stacks reference) = Counter.total (stacks profile) ->
  is_error_stack (stacks profile) = false ->
  merge_loop candidates (perf, g) = Ok (merged, g') ->
  Dict.get merged pid = Some profile.
Proof.
  intros Hnd Hcand Hne Href Htotal Herr Hloop.
  destruct (dict_get_split _ _ _ Hnd Hcand) as (l1 & l2 & -> & Hl1 & Hl2).
  rewrite merge_loop_app in Hloop.
  destruct (merge_loop l1 (perf, g)) as [[perf1 g1]|] eqn:H1; [|done].
  cbn [bind merge_loop] in Hloop.
  destruct (merge_step (perf1, g1) (pid, profile)) as [[perf2 g2]|] eqn:H2;
    [|done].
  cbn [bind] in Hloop.
  rewrite (merge_loop_other _ _ _ _ _ _ Hloop Hl2).
  pose proof (merge_loop_other _ _ _ _ _ _ H1 Hl1) as Hsame.
  rewrite Href in Hsame. revert H2. unfold merge_step.
  destruct profile as [pstacks pappid pmeta]. cbn [stacks appid app_metadata] in *.
  destruct pstacks as [|entry entries]; [done|].
  destruct (0 <? Counter.total (entry :: entries)) eqn:Hassert; [|done].
  cbn [negb]. rewrite Hsame, Herr, andb_false_r, Htotal.
  rewrite int_true_div_same by by apply Z.ltb_lt.
  cbn. intros [= <- _]. by rewrite dict_get_set_eq.
Qed.

End MergeMore.

(** ** More on the enrichment of a line *)

(** X20. The line [_enrich_and_finalize_stack] writes reads back, with the
    loop body of [parse_one_collapsed], as the enriched stack and the
    count, unless the enriched stack starts with a hash sign. *)
Theorem finalized_line_parses_back (stack : string) (count : Z)
  (enrichment_options : EnrichmentOptions) (enrich_data : PidStackEnrichment)
  (stacks : StackToSampleCount) :
  Str.startswith "#" (enriched_stack stack enrichment_options enrich_data)
  = false ->
  parse_one_line None stacks
    (_enrich_and_finalize_stack stack count enrichment_options enrich_data)
  = Counter.add stacks (enriched_stack stack enrichment_options enrich_data)
      count.
Proof.
  intros Hkey. rewrite finalize_unfold, parse_one_line_spec.
  by rewrite spec_entry_line.
Qed.

Lemma cut_first_head_no_sep sep s a b :
  Str.cut_first sep s = Some (a, b) -> Str.all_chars (is_not sep) a = true.
Proof.
  revert a. induction s as [|c s IH]; simpl; [done|]. intros a.
  destruct (Ascii.eqb c sep) eqn:Hc; [intros [= <- _]; reflexivity|].
  destruct (Str.cut_first sep s) as [[a' b']|]; [|done].
  intros [= <- <-]. simpl. unfold is_not at 1. rewrite Hc. by eapply IH.
Qed.

Lemma cut_first_none_no_sep sep s :
  Str.cut_first sep s = None -> Str.all_chars (is_not sep) s = true.
Proof.
  induction s as [|c s IH]; simpl; [done|].
  destruct (Ascii.eqb c sep) eqn:Hc; [done|].
  destruct (Str.cut_first sep s) as [[a' b']|]; [done|].
  intros _. unfold is_not at 1. rewrite Hc. by apply IH.
Qed.

(** X21. With application identifiers on, the application frame is the second
    frame of the stack that [_enrich_and_finalize_stack] writes between the
    prefixes and the count: the first frame stays the first, and the other
    frames, if any, follow the application frame. *)
Theorem appid_is_second_frame (stack appid : string) (count : Z)
  (enrichment_options : EnrichmentOptions) (enrich_data : PidStackEnrichment) :
  application_identifiers enrichment_options = true ->
  appid_frame enrich_data = Some appid ->
  exists written,
    _enrich_and_finalize_stack stack count enrichment_options enrich_data
    = application_prefix enrich_data +:+ container_prefix enrich_data
        +:+ written +:+ " " +:+ Str.of_int count
    /\ Str.cut_first ";" written
       = Some (Str.split_head ";" stack,
               match Str.cut_first ";" stack with
               | Some (_, others) => appid +:+ ";" +:+ others
               | None => appid
               end).
Proof.
  intros Hid Happ. exists (with_appid stack enrichment_options enrich_data).
  split.
  { rewrite finalize_unfold. unfold enriched_stack.
    by rewrite !str_app_assoc. }
  unfold with_appid, Str.split1, Str.split_head.
  rewrite Hid, Happ.
  destruct (Str.cut_first ";" stack) as [[first others]|] eqn:Hcut;
    cbn [Str.unpack2].
  - change (";" +:+ appid +:+ ";" +:+ others)
      with (String ";" (appid +:+ ";" +:+ others)).
    apply cut_first_app. by eapply cut_first_head_no_sep.
  - change (";" +:+ appid) with (String ";" appid).
    apply cut_first_app. by apply cut_first_none_no_sep.
Qed.

Section ContainerFrame.
Context {AppMetadata : Type} `{EqDecision AppMetadata}.
Context {MetaValue Metrics Client : Type}.
Context `{client_ops : ContainerNamesClient Client}.
Variable json_dumps : ProfileMetadata AppMetadata MetaValue Metrics -> string.

Lemma enrich_pid_stacks_no_names pid (profile : ProfileData AppMetadata)
  enrichment_options (client : option Client) table :
  not_v1 enrichment_options = true ->
  container_names_option enrichment_options = false \/ client = None ->
  application_metadata_option enrichment_options = false ->
  exists enrich_data,
    _enrich_pid_stacks pid profile enrichment_options client table
    = Ok (enrich_data, table_with table (app_metadata profile), client)
    /\ application_prefix enrich_data = ""
    /\ container_prefix enrich_data = ";".
Proof.
  intros Hv Hoff Hmeta.
  destruct (enrich_pid_stacks_ok pid profile enrichment_options client table)
    as (idx & enrich_data & client' & Hrun & _ & _ & _).
  revert Hrun. unfold _enrich_pid_stacks, _get_container_name.
  rewrite Hv, Hmeta. cbn [andb].
  destruct (register_app_metadata _ _) as [[i t]|]; [|done]. cbn [bind].
  destruct client as [c|].
  - destruct Hoff as [Hoff|]; [|done]. rewrite Hoff.
    cbn. intros [= <- <- <-]. eauto.
  - cbn. intros [= <- <- <-]. eauto.
Qed.

Lemma concatenate_loop_no_names enrichment_options
  (items : list (Z * ProfileData AppMetadata))
  (st : ConcatState AppMetadata Client) :
  not_v1 enrichment_options = true ->
  container_names_option enrichment_options = false \/ cs_client st = None ->
  application_metadata_option enrichment_options = false ->
  application_identifiers enrichment_options = false ->
  exists st',
    concatenate_loop enrichment_options items st = Ok st'
    /\ map snd (cs_lines st')
       = map snd (cs_lines st) ++ map (String ";") (plain_lines items).
Proof.
  intros Hv Hoff Hmeta Hid. revert st Hoff.
  induction items as [|[pid profile] items IH]; intros st Hoff.
  - exists st. unfold plain_lines. simpl. by rewrite app_nil_r.
  - cbn [concatenate_loop]. unfold concatenate_step.
    destruct (enrich_pid_stacks_no_names pid profile enrichment_options
                (cs_client st) (cs_application_metadata st) Hv Hoff Hmeta)
      as (enrich_data & -> & Happ & Hcont).
    cbn [bind].
    match goal with
    | |- context [concatenate_loop _ _ ?s] =>
        destruct (IH s) as (st' & -> & Hl); [done|]
    end.
    exists st'. split; [done|].
    rewrite Hl. cbn [cs_lines]. rewrite map_app.
    unfold plain_lines. cbn [flat_map snd]. rewrite map_app, List.app_assoc.
    f_equal. f_equal. unfold profile_lines. rewrite !map_map.
    apply map_ext. intros [stack count]. cbn [snd].
    unfold _enrich_and_finalize_stack. by rewrite Hid, Happ, Hcont.
Qed.

(** X22. To stay compatible with old readers, a protocol version other than v1
    always gets a container frame: with container names off, or without a
    client, and with application metadata and identifiers off, every stack
    line of [concatenate_profiles] is the plain line of the stack behind
    one semicolon, the frame of an empty container name. *)
Theorem concatenate_profiles_empty_container_frame
  (process_profiles : ProcessToProfileData AppMetadata)
  (client : option Client) (enrichment_options : EnrichmentOptions)
  (metadata : Metadata MetaValue) (metrics : Metrics)
  (text : string) (client' : option Client) :
  profile_api_version enrichment_options <> Some "v1" ->
  container_names_option enrichment_options = false \/ client = None ->
  application_metadata_option enrichment_options = false ->
  application_identifiers enrichment_options = false ->
  concatenate_profiles json_dumps process_profiles client enrichment_options
    metadata metrics
  = Ok (text, client') ->
  exists document,
    text = join newline
             (("# " +:+ json_dumps document)
                :: map (String ";") (plain_lines process_profiles)).
Proof.
  intros Hv Hoff Hmeta Hid.
  assert (not_v1 enrichment_options = true) as Hnot.
  { unfold not_v1. by rewrite bool_decide_eq_false_2. }
  unfold concatenate_profiles, concatenate_profiles_lines.
  destruct (concatenate_loop_no_names enrichment_options process_profiles
              (concat_init client) Hnot Hoff Hmeta Hid) as (st & -> & Hlines).
  cbn [bind].
  pose proof (make_profile_metadata_cases json_dumps (cs_client st)
                (container_names_option enrichment_options) metadata metrics
                (cs_application_metadata st)
                (application_metadata_option enrichment_options)) as Hheader.
  destruct (Dict.get metadata "profiling_mode") as [mode|].
  - destruct Hheader as (document & c' & -> & _).
    cbn. intros [= <- <-]. exists document. by rewrite Hlines.
  - by rewrite Hheader.
Qed.

End ContainerFrame.

(** ** The file parser *)

Lemma splitlines_from_universal s after_cr cur :
  Str.splitlines_from false cur (universal_newlines after_cr s)
  = Str.splitlines_from after_cr cur s.
Proof.
  revert after_cr cur. induction s as [|c s IH]; intros after_cr cur.
  - by destruct after_cr.
  - cbn [universal_newlines]. rewrite (splitlines_from_cons after_cr).
    destruct (after_cr && Ascii.eqb c Str.LF) eqn:Hlf; [apply IH|].
    destruct (Ascii.eqb_spec c Str.CR) as [->|Hcr].
    + rewrite splitlines_from_cons. cbn [andb].
      change (Str.is_linebreak Str.LF) with true.
      change (Str.is_linebreak Str.CR) with true. cbv iota.
      change (Ascii.eqb Str.LF Str.CR) with false.
      change (Ascii.eqb Str.CR Str.CR) with true.
      by rewrite IH.
    + rewrite splitlines_from_cons. cbn [andb].
      assert (Ascii.eqb c Str.CR = false) as -> by by apply Ascii.eqb_neq.
      destruct (Str.is_linebreak c); by rewrite IH.
Qed.

(** X23. [parse_one_collapsed_file] gives what [parse_one_collapsed] gives on
    the characters of the file as they are: the newline translation of text
    mode changes no line, so a file with CR LF or CR line ends parses like
    one with LF line ends. An exception of the read is passed on. *)
Theorem parse_one_collapsed_file_newlines {E : Type} `{FileSystem E}
  (collapsed : string) (add_comm : option string) :
  parse_one_collapsed_file collapsed add_comm
  = match read_decoded collapsed with
    | inl e => inl e
    | inr raw => inr (parse_one_collapsed raw add_comm)
    end.
Proof.
  unfold parse_one_collapsed_file, read_text.
  destruct (read_decoded collapsed) as [e|raw]; [done|].
  unfold parse_one_collapsed, Str.splitlines.
  by rewrite splitlines_from_universal.
Qed.

(** ** The order of the lines *)

Lemma spec_entries_perm root lines1 lines2 :
  lines1 ≡ₚ lines2 -> spec_entries root lines1 ≡ₚ spec_entries root lines2.
Proof.
  induction 1 as [|l ls1 ls2 _ IH|l l' ls|ls1 ls2 ls3 _ IH1 _ IH2]; simpl.
  - done.
  - destruct (spec_entry root l); [by constructor|done].
  - destruct (spec_entry root l), (spec_entry root l'); try done.
    by constructor.
  - by etrans.
Qed.

Lemma spec_count_perm entries1 entries2 signature :
  entries1 ≡ₚ entries2 ->
  spec_count entries1 signature = spec_count entries2 signature.
Proof.
  induction 1 as [|[s n] es1 es2 _ IH|[s n] [s' n'] es|es1 es2 es3 _ IH1 _ IH2];
    simpl; lia.
Qed.

(** X24. The order of the lines does not matter to the counts of
    [parse_one_collapsed]: two texts whose lines are the same up to their
    order give every stack signature the same count. *)
Theorem parse_one_collapsed_line_order (text1 text2 : string)
  (add_comm : option string) (signature : string) :
  Str.splitlines text1 ≡ₚ Str.splitlines text2 ->
  Counter.get (parse_one_collapsed text1 add_comm) signature
  = Counter.get (parse_one_collapsed text2 add_comm) signature.
Proof.
  intros Hperm. unfold parse_one_collapsed. rewrite !parse_lines_count.
  f_equal. by apply spec_count_perm, spec_entries_perm.
Qed.

(** ** The further properties on concrete inputs *)

(** X5 on a concrete input. *)
Lemma parse_many_perf_line_witness :
  exists results',
    parse_many_line ([], []) "my-comm x-12/34;a;b c 5" = Ok (results', [])
    /\ forall q signature,
         sample_count results' q signature
         = sample_count [] q signature
           + if decide (q = 12 /\ signature = "my-comm x;a;b c") then 5 else 0.
Proof.
  apply (parse_many_perf_line [] [] "my-comm x" 12 34 "a;b c" 5);
    [lia | lia | reflexivity].
Defined.

(** X6 on a concrete input. *)
Lemma parse_many_bad_line_keeps_counts_witness :
  ["comm-12/34;a;b xyz"] = [] ++ ["comm-12/34;a;b xyz"]
  /\ forall pid signature,
       sample_count [(1, [("x;a", 2)]); (12, [])] pid signature
       = sample_count [(1, [("x;a", 2)])] pid signature.
Proof.
  apply (parse_many_bad_line_keeps_counts [(1, [("x;a", 2)])]
           [(1, [("x;a", 2)]); (12, [])] [] ["comm-12/34;a;b xyz"]
           "comm-12/34;a;b xyz");
    [reflexivity | discriminate].
Defined.

(** X8 on a concrete input. *)
Lemma scale_sample_counts_draws_witness :
  (fun i => N.of_nat (S (S i))) 5%nat
  = N.of_nat
      ((if Float.eq_int Sample.half 1 then 0
        else length [("a", 3); ("c", 1)]) + 5)%nat.
Proof.
  apply (scale_sample_counts_draws [("a", 3); ("c", 1)] Sample.half
           N.of_nat [("a", 2); ("c", 1)] (fun i => N.of_nat (S (S i))) 5%nat).
  reflexivity.
Defined.

(** X9 on a concrete input. *)
Lemma scale_sample_counts_entries_witness :
  sublist (Dict.keys [("a", 2); ("c", 1)])
    (Dict.keys [("a", 3); ("b", 0); ("c", 1)])
  /\ forall stack v,
       Dict.get [("a", 2); ("c", 1)] stack = Some v ->
       exists count,
         Dict.get [("a", 3); ("b", 0); ("c", 1)] stack = Some count
         /\ if Float.eq_int Sample.half 1 then v = count
            else v <> 0
                 /\ (inject_Z v - 1 < product_value count Sample.half
                     /\ product_value count Sample.half < inject_Z v + 1)%Q.
Proof.
  apply (scale_sample_counts_entries [("a", 3); ("b", 0); ("c", 1)]
           Sample.half (Example.constant_source 0) [("a", 2); ("c", 1)]
           (Example.constant_source 0)).
  - apply (bool_decide_unpack _). reflexivity.
  - reflexivity.
Defined.

(** X10 on a concrete input. *)
Lemma scale_sample_counts_whole_products_witness :
  exists scaled,
    (forall g,
       exists g',
         scale_sample_counts [("a", 3); ("b", -2); ("c", 0)] Sample.two g
         = Ok (scaled, g'))
    /\ forall stack v,
         Dict.get scaled stack = Some v ->
         exists count,
           Dict.get [("a", 3); ("b", -2); ("c", 0)] stack = Some count
           /\ (inject_Z v == product_value count Sample.two)%Q.
Proof.
  apply (scale_sample_counts_whole_products [("a", 3); ("b", -2); ("c", 0)]
           Sample.two).
  - apply (bool_decide_unpack _). reflexivity.
  - reflexivity.
  - repeat constructor.
Defined.


(** X20 on a concrete input. *)
Lemma finalized_line_parses_back_witness :
  parse_one_line None []
    (_enrich_and_finalize_stack "a;b" 3 Example.full_enrichment
       Sample.app_frames)
  = Counter.add [] "1;c1;a;appid: app;b" 3.
Proof.
  apply (finalized_line_parses_back "a;b" 3 Example.full_enrichment
           Sample.app_frames []).
  reflexivity.
Defined.

(** X21 on a concrete input. *)
Lemma appid_is_second_frame_witness :
  exists written,
    _enrich_and_finalize_stack "a;b;c" 3 Example.full_enrichment
      Sample.app_frames
    = "1;" +:+ "c1;" +:+ written +:+ " " +:+ Str.of_int 3
    /\ Str.cut_first ";" written = Some ("a", "appid: app;b;c").
Proof.
  apply (appid_is_second_frame "a;b;c" "appid: app" 3 Example.full_enrichment
           Sample.app_frames); reflexivity.
Defined.

(** X1 on a concrete input. *)
Lemma concatenate_profiles_v1_lines_witness :
  exists document,
    join newline ["# {profiling_mode: cpu}"; "a;b 3"; "c 1"; "d 4"]
    = join newline
        (("# " +:+ Example.dumps document)
           :: plain_lines Sample.two_processes)
    /\ pm_metadata document = Example.cpu_metadata
    /\ pm_metrics document = tt.
Proof.
  apply (concatenate_profiles_v1_lines (client_ops := Example.list_client)
           Example.dumps Sample.two_processes (Some [])
           Example.no_enrichment Example.cpu_metadata tt _ (Some []));
    reflexivity.
Defined.

(** X22 on a concrete input. *)
Lemma concatenate_profiles_empty_container_frame_witness :
  exists document,
    join newline ["# {profiling_mode: cpu}"; ";a;b 3"; ";c 1"; ";d 4"]
    = join newline
        (("# " +:+ Example.dumps document)
           :: map (String ";") (plain_lines Sample.two_processes)).
Proof.
  apply (concatenate_profiles_empty_container_frame
           (client_ops := Example.list_client) Example.dumps
           Sample.two_processes (Some ["old"]) Sample.bare_v2
           Example.cpu_metadata tt _ (Some ["old"]));
    [discriminate | by left | reflexivity | reflexivity | reflexivity].
Defined.

(** X13 on a concrete input. *)
Lemma concatenate_profiles_line_per_stack_witness :
  map fst [(1, "a;b 3"); (1, "c 1"); (2, "d 4")]
  = flat_map (fun item => replicate (length (stacks item.2)) item.1)
      Sample.two_processes
  /\ concatenate_profiles (client_ops := Example.list_client) Example.dumps
       Sample.two_processes (Some []) Example.no_enrichment
       Example.cpu_metadata tt
     = Ok (join newline
             ("# {profiling_mode: cpu}"
                :: map snd [(1, "a;b 3"); (1, "c 1"); (2, "d 4")]),
           Some []).
Proof.
  apply (concatenate_profiles_line_per_stack
           (client_ops := Example.list_client) Example.dumps
           Sample.two_processes (Some []) Example.no_enrichment
           Example.cpu_metadata tt).
  reflexivity.
Defined.

(** X12 on a concrete input. *)
Lemma concatenate_profiles_container_names_witness :
  exists document lines,
    join newline
      ["# {profiling_mode: cpu}"; "0;c1;a;b 3"; "0;c1;c 1"; "0;c2;d 4"]
    = join newline (("# " +:+ Example.dumps document) :: lines)
    /\ pm_application_metadata_enabled document = true
    /\ pm_container_names_enabled document = true
    /\ pm_containers document = ["old"; "c1"; "c2"]
    /\ Some [] = Some (reset_cache (ContainerNamesClient := Example.list_client)
                         ["old"; "c1"; "c2"]).
Proof.
  apply (concatenate_profiles_container_names
           (client_ops := Example.list_client) Example.dumps
           Sample.two_processes (Some ["old"]) Example.full_enrichment
           Example.cpu_metadata tt _ (Some [])).
  reflexivity.
Defined.

(** X2 on a concrete input. *)
Lemma parse_concatenated_profiles_witness :
  Counter.get
    (parse_one_collapsed
       (join newline ["# {}"; "a;b 3"; "c -1"; "a;b 4"]) None)
    "a;b"
  = samples_of "a;b"
      [(1, Example.profile [("a;b", 3); ("c", -1)]);
       (2, Example.profile [("a;b", 4)])].
Proof.
  apply (parse_concatenated_profiles (client_ops := Example.list_client)
           (fun _ : ProfileMetadata string string unit => "{}")
           [(1, Example.profile [("a;b", 3); ("c", -1)]);
            (2, Example.profile [("a;b", 4)])]
           (Some []) Example.no_enrichment Example.cpu_metadata tt
           _ (Some []) "a;b").
  - reflexivity.
  - reflexivity.
  - reflexivity.
  - repeat constructor; simpl; by apply (bool_decide_unpack _).
  - reflexivity.
Defined.

(** X14 on a concrete input. *)
Lemma merge_profiles_without_samples_witness :
  merge_profiles (client_ops := Example.list_client)
    (error_stack := SpecErrorStack.spec_error_stack) Example.dumps
    [(1, Example.profile [("a;b", 100)])]
    [(1, Example.profile []); (3, Example.profile [])]
    (Some []) Example.no_enrichment Example.cpu_metadata tt
    (Example.constant_source 0)
  = let* (text, client') :=
      concatenate_profiles (client_ops := Example.list_client) Example.dumps
        [(1, Example.profile [("a;b", 100)])] (Some [])
        Example.no_enrichment Example.cpu_metadata tt in
    Ok (text, client', Example.constant_source 0).
Proof.
  apply (merge_profiles_without_samples
           (client_ops := Example.list_client)
           (error_stack := SpecErrorStack.spec_error_stack) Example.dumps).
  repeat constructor.
Defined.

(** X15 on a concrete input. *)
Lemma merge_profiles_asserts_samples_witness :
  merge_profiles (client_ops := Example.list_client)
    (error_stack := SpecErrorStack.spec_error_stack) Example.dumps
    [(2, Example.profile [("a;b", 100)])]
    ([(1, Example.profile [])] ++ (2, Example.profile [("x", 1); ("y", -1)]) :: [])
    (Some []) Example.no_enrichment Example.cpu_metadata tt
    (Example.constant_source 0)
  = Raise AssertionError.
Proof.
  apply (merge_profiles_asserts_samples
           (client_ops := Example.list_client)
           (error_stack := SpecErrorStack.spec_error_stack) Example.dumps
           [(2, Example.profile [("a;b", 100)])] [(1, Example.profile [])] []
           2 (Example.profile [("x", 1); ("y", -1)]) (Some [])
           Example.no_enrichment Example.cpu_metadata tt
           (Example.constant_source 0)
           ([(2, Example.profile [("a;b", 100)])], Example.constant_source 0)).
  - reflexivity.
  - discriminate.
  - by vm_compute.
Defined.

(** X16 on a concrete input. *)
Lemma merge_loop_keeps_others_witness :
  Dict.get
    [(1, Example.profile [("x;a;b", 100)]); (2, Example.profile [("k", 1)]);
     (3, Example.profile [])] 2
  = Dict.get
      [(1, Example.profile [("a;b", 100)]); (2, Example.profile [("k", 1)])] 2.
Proof.
  apply (merge_loop_keeps_others
           (error_stack := SpecErrorStack.spec_error_stack)
           [(1, Example.profile [("a;b", 100)]); (2, Example.profile [("k", 1)])]
           [(3, Example.profile [("z", 4)]);
            (1, Example.profile [("x;a;b", 10)]); (2, Example.profile [])]
           (Example.constant_source 0) _ (Example.constant_source 0) 2).
  - reflexivity.
  - intros p Hin. rewrite !elem_of_cons, elem_of_nil in Hin.
    destruct Hin as [[=]|[[=]|[[= ->]|[]]]]. reflexivity.
Defined.

(** X17 on a concrete input. *)
Lemma merge_loop_processes_witness :
  Dict.keys
    [(1, Example.profile [("a;b", 100)]); (2, Example.profile [("k", 1)])]
  `prefix_of` Dict.keys
                [(1, Example.profile [("x;a;b", 100)]);
                 (2, Example.profile [("k", 1)]); (3, Example.profile [])]
  /\ forall q,
       q ∈ Dict.keys
             [(1, Example.profile [("x;a;b", 100)]);
              (2, Example.profile [("k", 1)]); (3, Example.profile [])]
       <-> q ∈ Dict.keys
                 [(1, Example.profile [("a;b", 100)]);
                  (2, Example.profile [("k", 1)])]
           \/ exists p,
                (q, p) ∈ [(3, Example.profile [("z", 4)]);
                          (1, Example.profile [("x;a;b", 10)]);
                          (4, Example.profile [])]
                /\ stacks p <> [].
Proof.
  apply (merge_loop_processes
           (error_stack := SpecErrorStack.spec_error_stack)
           [(1, Example.profile [("a;b", 100)]); (2, Example.profile [("k", 1)])]
           [(3, Example.profile [("z", 4)]);
            (1, Example.profile [("x;a;b", 10)]); (4, Example.profile [])]
           (Example.constant_source 0) _ (Example.constant_source 0)).
  reflexivity.
Defined.

(** X18 on a concrete input. *)
Lemma merge_loop_stores_candidate_witness :
  exists stacks',
    Dict.get
      [(1, Example.profile [("x;a;b", 100)]); (2, Example.profile [("k", 1)]);
       (3, Example.profile [])] 1
    = Some {| stacks := stacks'; appid := None; app_metadata := None |}
    /\ 0 < Counter.total [("x;a;b", 10)]
    /\ exists ratio g0 g1,
         Float.int_true_div 100 10 = Ok ratio
         /\ scale_sample_counts [("x;a;b", 10)] ratio g0 = Ok (stacks', g1).
Proof.
  apply (merge_loop_stores_candidate
           (error_stack := SpecErrorStack.spec_error_stack)
           [(1, Example.profile [("a;b", 100)]); (2, Example.profile [("k", 1)])]
           [(3, Example.profile [("z", 4)]);
            (1, Example.profile [("x;a;b", 10)]); (4, Example.profile [])]
           (Example.constant_source 0) _ (Example.constant_source 0) 1
           (Example.profile [("x;a;b", 10)])).
  - apply (bool_decide_unpack _). reflexivity.
  - reflexivity.
  - discriminate.
  - reflexivity.
Defined.

(** X19 on a concrete input. *)
Lemma merge_loop_equal_totals_witness :
  Dict.get [(1, Example.profile [("x", 3); ("y", 4)])] 1
  = Some (Example.profile [("x", 3); ("y", 4)]).
Proof.
  apply (merge_loop_equal_totals
           (error_stack := SpecErrorStack.spec_error_stack)
           [(1, Example.profile [("a;b", 7)])]
           [(1, Example.profile [("x", 3); ("y", 4)])]
           (Example.constant_source 0) _ (Example.constant_source 0) 1
           (Example.profile [("x", 3); ("y", 4)])
           (Example.profile [("a;b", 7)])).
  - apply (bool_decide_unpack _). reflexivity.
  - reflexivity.
  - discriminate.
  - reflexivity.
  - reflexivity.
  - reflexivity.
  - reflexivity.
Defined.

(** X24 on a concrete input. *)
Lemma parse_one_collapsed_line_order_witness :
  Counter.get (parse_one_collapsed (join newline ["a;b 3"; "c 1"; "a;b 4"]) None)
    "a;b"
  = Counter.get
      (parse_one_collapsed (join newline ["c 1"; "a;b 4"; "a;b 3"]) None)
      "a;b".
Proof.
  apply (parse_one_collapsed_line_order
           (join newline ["a;b 3"; "c 1"; "a;b 4"])
           (join newline ["c 1"; "a;b 4"; "a;b 3"]) None "a;b").
  exact (Permutation_cons_append ["c 1"; "a;b 4"] "a;b 3").
Defined.
